(** * PIPECAST: ensemble probability, risk ranking and AOI extraction

    A shallow embedding of [pipecast/ensemble.py] (class
    [EnsembleProcessor]), of [ForecastProcessor] from
    [pipecast/forecast_processor.py] ([generate_aois],
    [process_single_forecast], [process_all_forecasts]) and of
    [DataManager.clip_to_land], with the properties of the
    specification and further properties of the code stated and
    proved over it.

    Conventions of the embedding.
    - Python floats are the type [pyfloat]: a rational, one of the two
      infinities, or NaN.  Rounding of finite results is not modelled
      (finite arithmetic is exact over [Q]); the special values and the
      comparisons with them follow IEEE 754 as Python and numpy do.
    - [numpy.uint16] count grids are lists of rows of [Z] with the
      wrap-around modulo 2^16 written out.
    - Python dicts keyed by bin label are [gmap string _].
    - shapely, rasterio and geopandas geometry is an interface (class
      [Shapely]); every theorem holds for any implementation of it, and
      the examples run on a small instance made of unit cells.
    - Exceptions are values of [result]; a [try]/[except] is a match on
      them.
    - The warnings of a run ([warnings.warn], and the lines printed
      for the empty bins) are a list, in the order in which they are
      issued; those of the collection of the members, which a run
      performs when the processor has no member, come first. *)

From Stdlib Require Import QArith Qminmax Qround Sorting.Permutation.
From stdpp Require Import gmap strings list fin_maps.

Local Open Scope Z_scope.

(** ** Python floats *)

Inductive pyfloat : Type :=
  | NInf
  | Fin (q : Q)
  | PInf
  | NaN.

(** [a <= b] on floats; every comparison with NaN is false. *)
Definition fle (a b : pyfloat) : bool :=
  match a, b with
  | NaN, _ | _, NaN => false
  | NInf, _ => true
  | _, PInf => true
  | Fin x, Fin y => Qle_bool x y
  | Fin _, NInf => false
  | PInf, _ => false
  end.

(** [a > b] on floats. *)
Definition fgt (a b : pyfloat) : bool :=
  match a, b with
  | NaN, _ | _, NaN => false
  | NInf, _ => false
  | PInf, PInf => false
  | PInf, _ => true
  | Fin _, NInf => true
  | Fin x, Fin y => negb (Qle_bool x y)
  | Fin _, PInf => false
  end.

(** Numerical equality of two float values (the same number, possibly
    written as two different fractions). *)
Definition fsame (a b : pyfloat) : Prop :=
  match a, b with
  | Fin x, Fin y => (x == y)%Q
  | NInf, NInf | PInf, PInf | NaN, NaN => True
  | _, _ => False
  end.

Definition of_int (z : Z) : pyfloat := Fin (inject_Z z).

(** ** Exceptions *)

Inductive exception : Type :=
  | KeyError (key : string)
  | ValueError
  | OverflowError
  | GEOSException.

Inductive result (A : Type) : Type :=
  | Ok (a : A)
  | Raise (e : exception).
Arguments Ok {A} a.
Arguments Raise {A} e.

Definition bind {A B} (r : result A) (k : A -> result B) : result B :=
  match r with
  | Ok a => k a
  | Raise e => Raise e
  end.

(** ** BinClassifier: [EnsembleProcessor.threshold_to_bin_label] *)

Definition default_bins : list (pyfloat * pyfloat) :=
  [ (of_int 0, of_int 5); (of_int 6, of_int 39); (of_int 40, of_int 50);
    (of_int 51, of_int 100); (of_int 100, of_int 254); (of_int 255, PInf) ].

Definition default_bin_labels : list string :=
  [ "0-5"; "6-39"; "40-50"; "51-100"; "100-254"; "255+" ]%string.

Definition UNBINNED : string := "UNBINNED".

(** [lo <= threshold <= hi] *)
Definition in_interval (lo hi threshold : pyfloat) : bool :=
  fle lo threshold && fle threshold hi.

(** The [for ... in zip(self.bins, self.bin_labels)] loop. *)
Fixpoint first_matching_label
    (pairs : list ((pyfloat * pyfloat) * string)) (threshold : pyfloat) : string :=
  match pairs with
  | [] => UNBINNED
  | ((lo, hi), label) :: rest =>
      if in_interval lo hi threshold then label
      else first_matching_label rest threshold
  end.

Definition threshold_to_bin_label
    (bins : list (pyfloat * pyfloat)) (bin_labels : list string)
    (threshold : pyfloat) : string :=
  first_matching_label (zip bins bin_labels) threshold.

(** ** Grids

    A grid is a list of [height] rows of [width] cells, row 0 in the
    north.  Count grids hold [numpy.uint16] values, probability grids
    hold floats that are always finite here. *)

Abbreviation grid A := (list (list A)) (only parsing).

Definition make_grid {A} (height width : nat) (cell : nat -> nat -> A) : grid A :=
  (fun r => (fun c => cell r c) <$> seq 0 width) <$> seq 0 height.

(** [np.zeros((height, width), dtype=np.uint16)] *)
Definition zeros (height width : nat) : grid Z :=
  make_grid height width (fun _ _ => 0).

Definition cell_at {A} (g : grid A) (r c : nat) : option A :=
  match g !! r with
  | Some row => row !! c
  | None => None
  end.

Definition uint16_modulus : Z := 65536.

(** One cell of [counts += tmp.astype(np.uint16)]: addition of uint16
    values wraps around. *)
Definition uint16_add (a b : Z) : Z := (a + b) mod uint16_modulus.

Definition grid_add (g tmp : grid Z) : grid Z :=
  zip_with (zip_with uint16_add) g tmp.

(** [np.clip(x, 0.0, 1.0)] *)
Definition clip01 (x : Q) : Q := Qmin (Qmax x 0) 1.

(** One cell of [counts.astype(np.float32) / float(denom)], clipped. *)
Definition probability_cell (denom : Z) (count : Z) : Q :=
  clip01 (inject_Z count / inject_Z denom).

Definition probability_grid (denom : Z) (counts : grid Z) : grid Q :=
  (fun row : list Z => probability_cell denom <$> row) <$> counts.

(** ** The geometry interface (shapely, rasterio.features)

    [geom_burns g r c] tells whether [rasterio.features.rasterize],
    with the processor's shared transform, burns cell (r, c) for the
    shape [g].  [geom_centroid] is [None] for a geometry without a
    centroid (the empty geometry, whose centroid coordinates are NaN).
    The two operations called inside the population [try] block may
    raise. *)

Record transform : Type := {
  t_west : Q; t_south : Q; t_east : Q; t_north : Q;
  t_width : nat; t_height : nat
}.

Class Shapely (G : Type) : Type := {
  geom_is_empty : G -> bool;
  geom_area : G -> Q;
  geom_centroid : G -> option (Q * Q);
  geom_burns : G -> nat -> nat -> bool;
  geom_intersects : G -> G -> result bool;
  geom_intersection : G -> G -> result G;
  unary_union : list G -> G;
  polygonize : transform -> list (nat * nat) -> G
}.

(** ** Files and Members *)

(** The [Path] of a member file below the root directory:
    root / method / date / name. *)
Record file_path : Type := {
  p_method : string;
  p_date : string;
  p_name : string
}.

Global Instance file_path_eq_dec : EqDecision file_path.
Proof. solve_decision. Defined.

(** What [gpd.read_file] followed by [to_crs] yields: an exception, or
    the geometry column of the frame, where a feature may have no
    geometry ([None]). *)
Inductive file_content (G : Type) : Type :=
  | Unreadable
  | Frame (geometry : list (option G)).
Arguments Unreadable {G}.
Arguments Frame {G} geometry.

(** A file met by the three nested [iterdir] loops of
    [collect_members], in traversal order.  [f_match] is the outcome of
    the suffix test and of the pattern search on the file name: the
    groups (fxx, thr) when the name is a member name. *)
Record disk_file (G : Type) : Type := {
  f_path : file_path;
  f_match : option (Z * Z);
  f_content : file_content G
}.
Arguments f_path {G} _.
Arguments f_match {G} _.
Arguments f_content {G} _.

Definition disk (G : Type) : Type := list (disk_file G).

(** [gpd.read_file(path)]; a path that is not on the disk cannot be read. *)
Definition read_file {G} (d : disk G) (p : file_path) : file_content G :=
  match List.find (fun f => bool_decide (f_path f = p)) d with
  | Some f => f_content f
  | None => Unreadable
  end.

Record member : Type := {
  method : string;
  date : string;
  fxx : Z;
  thr : Z;
  path : file_path
}.

Inductive warning : Type :=
  | FailedToRead (p : file_path)
  | FailedToProcessMember (p : file_path)
  | FailedToProcess (p : file_path)
  | NoMembersForBin (lbl : string).

(** [collect_members]: the member list and the warnings issued.  The
    extent and the grid shape computed at the end are carried by the
    processor record below. *)
Definition collect_file {G} (f : disk_file G) : list member * list warning :=
  if String.eqb (p_method (f_path f)) "ensemble_probability" then ([], [])
  else
    match f_match f with
    | None => ([], [])
    | Some (fxx_, thr_) =>
        match f_content f with
        | Unreadable => ([], [FailedToRead (f_path f)])
        | Frame _ =>
            ([ {| method := p_method (f_path f); date := p_date (f_path f);
                  fxx := fxx_; thr := thr_; path := f_path f |} ], [])
        end
    end.

Fixpoint collect_members {G} (d : disk G) : list member * list warning :=
  match d with
  | [] => ([], [])
  | f :: rest =>
      let '(ms, ws) := collect_file f in
      let '(ms', ws') := collect_members rest in
      (ms ++ ms', ws ++ ws')
  end.

(** The processor object ([self]) after [__init__] and collection. *)
Record EnsembleProcessor : Type := {
  bins : list (pyfloat * pyfloat);
  bin_labels : list string;
  members : list member;
  height : nat;
  width : nat
}.

Definition with_members (self : EnsembleProcessor) (ms : list member) : EnsembleProcessor :=
  {| bins := bins self; bin_labels := bin_labels self; members := ms;
     height := height self; width := width self |}.

(** [if not self.members: self.collect_members()], the first step of
    [create_ensemble_probabilities] and of [rank_aois_by_probability]:
    the members in force afterwards and the warnings that the
    collection issued. *)
Definition ensure_members {G} (self : EnsembleProcessor) (d : disk G)
    : list member * list warning :=
  match members self with
  | [] => collect_members d
  | ms => (ms, [])
  end.

(** [self.members] after that step. *)
Definition current_members {G} (self : EnsembleProcessor) (d : disk G) : list member :=
  (ensure_members self d).1.

(** The warnings of that step: those of the collection, when it runs. *)
Definition collection_warnings {G} (self : EnsembleProcessor) (d : disk G)
    : list warning :=
  (ensure_members self d).2.

Definition label_of (self : EnsembleProcessor) (mem : member) : string :=
  threshold_to_bin_label (bins self) (bin_labels self) (of_int (thr mem)).

(** ** EnsembleGridAccumulator and ProbabilityComputer:
       [EnsembleProcessor.create_ensemble_probabilities] *)

Record accumulators : Type := {
  counts_by_bin : gmap string (grid Z);
  denom_by_bin : gmap string Z;
  warnings : list warning
}.

Record ensemble_output : Type := {
  out_counts : gmap string (grid Z);
  out_denoms : gmap string Z;
  prob_grids : gmap string (grid Q);
  out_warnings : list warning
}.

(** A dict comprehension [{lbl: v for lbl in labels}]. *)
Definition dict_of_labels {V} (labels : list string) (v : V) : gmap string V :=
  fold_left (fun m lbl => <[lbl := v]> m) labels ∅.

Definition init_accumulators (self : EnsembleProcessor) : accumulators :=
  {| counts_by_bin := dict_of_labels (bin_labels self) (zeros (height self) (width self));
     denom_by_bin := dict_of_labels (bin_labels self) 0;
     warnings := [] |}.

Section Ensemble.
Context {G : Type} `{Shapely G}.

(** [rasterize(shapes, out_shape=(height, width), transform, fill=0,
    default_value=1, dtype=np.uint8)], every shape with value 1. *)
Definition rasterize (shapes : list G) (height width : nat) : grid Z :=
  make_grid height width
    (fun r c => if existsb (fun g => geom_burns g r c) shapes then 1 else 0).

(** [[(geom, 1) for geom in gdf.geometry if geom and not geom.is_empty]] *)
Fixpoint burnable_shapes (geometry : list (option G)) : list G :=
  match geometry with
  | [] => []
  | Some g :: rest =>
      if geom_is_empty g then burnable_shapes rest else g :: burnable_shapes rest
  | None :: rest => burnable_shapes rest
  end.

(** The body of [for mem in self.members].  The denominator is
    incremented before the [try]; whatever is raised inside the [try]
    is caught, warned about, and the loop goes on. *)
Definition accumulate_member (self : EnsembleProcessor) (d : disk G)
    (acc : accumulators) (mem : member) : result accumulators :=
  let lbl := label_of self mem in
  match denom_by_bin acc !! lbl with
  | None => Raise (KeyError lbl)
  | Some n =>
      let denom' := <[lbl := n + 1]> (denom_by_bin acc) in
      let unchanged :=
        {| counts_by_bin := counts_by_bin acc; denom_by_bin := denom';
           warnings := warnings acc |} in
      let caught :=
        {| counts_by_bin := counts_by_bin acc; denom_by_bin := denom';
           warnings := warnings acc ++ [FailedToProcessMember (path mem)] |} in
      match read_file d (path mem) with
      | Unreadable => Ok caught
      | Frame [] => Ok unchanged
      | Frame geometry =>
          match burnable_shapes geometry with
          | [] => Ok unchanged
          | shapes =>
              let tmp := rasterize shapes (height self) (width self) in
              match counts_by_bin acc !! lbl with
              | Some g =>
                  Ok {| counts_by_bin := <[lbl := grid_add g tmp]> (counts_by_bin acc);
                        denom_by_bin := denom';
                        warnings := warnings acc |}
              | None => Ok caught
              end
          end
      end
  end.

Fixpoint accumulate_members (self : EnsembleProcessor) (d : disk G)
    (acc : accumulators) (ms : list member) : result accumulators :=
  match ms with
  | [] => Ok acc
  | mem :: rest =>
      bind (accumulate_member self d acc mem)
           (fun acc' => accumulate_members self d acc' rest)
  end.

(** The body of [for lbl in self.bin_labels]: the probability grid
    written for the bin, or the warning printed for an empty bin.
    Writing the GeoTIFF itself is left out: the grid is recorded under
    its label as [self.prob_paths] records the file. *)
Definition emit_bin (acc : accumulators)
    (st : gmap string (grid Q) * list warning) (lbl : string)
    : result (gmap string (grid Q) * list warning) :=
  match denom_by_bin acc !! lbl with
  | None => Raise (KeyError lbl)
  | Some denom =>
      if denom =? 0 then Ok (st.1, st.2 ++ [NoMembersForBin lbl])
      else
        match counts_by_bin acc !! lbl with
        | None => Raise (KeyError lbl)
        | Some counts => Ok (<[lbl := probability_grid denom counts]> st.1, st.2)
        end
  end.

Fixpoint emit_bins (acc : accumulators) (labels : list string)
    (st : gmap string (grid Q) * list warning)
    : result (gmap string (grid Q) * list warning) :=
  match labels with
  | [] => Ok st
  | lbl :: rest => bind (emit_bin acc st lbl) (emit_bins acc rest)
  end.

(** The run: the collection of the members when the processor has
    none, the loop over the members, the loop over the labels.  The
    warnings come in this order: those of the collection, those of the
    members, those of the empty bins. *)
Definition create_ensemble_probabilities (self : EnsembleProcessor) (d : disk G)
    : result ensemble_output :=
  let collected := collection_warnings self d in
  bind (accumulate_members self d (init_accumulators self) (current_members self d))
    (fun acc =>
       bind (emit_bins acc (bin_labels self) (∅, collected ++ warnings acc))
         (fun st =>
            Ok {| out_counts := counts_by_bin acc;
                  out_denoms := denom_by_bin acc;
                  prob_grids := st.1;
                  out_warnings := st.2 |})).

End Ensemble.

(** ** Float arithmetic used by the population estimate *)

Definition signed_inf (x : Q) : pyfloat :=
  if Qeq_bool x 0 then NaN else if Qle_bool 0 x then PInf else NInf.

(** Division of two finite floats as numpy does it: no exception, a
    zero divisor gives an infinity or NaN. *)
Definition fdiv_fin (x y : Q) : pyfloat :=
  if Qeq_bool y 0 then signed_inf x else Fin (x / y).

Definition fmul (a b : pyfloat) : pyfloat :=
  match a, b with
  | NaN, _ | _, NaN => NaN
  | Fin x, Fin y => Fin (x * y)
  | Fin x, PInf | PInf, Fin x => signed_inf x
  | Fin x, NInf | NInf, Fin x => signed_inf (- x)
  | PInf, PInf | NInf, NInf => PInf
  | PInf, NInf | NInf, PInf => NInf
  end.

Definition fadd (a b : pyfloat) : pyfloat :=
  match a, b with
  | NaN, _ | _, NaN => NaN
  | Fin x, Fin y => Fin (x + y)
  | PInf, NInf | NInf, PInf => NaN
  | PInf, _ | _, PInf => PInf
  | NInf, _ | _, NInf => NInf
  end.

Definition is_nan (a : pyfloat) : bool :=
  match a with NaN => true | _ => false end.

(** [Series.sum()]: NaN entries are skipped. *)
Definition nansum (l : list pyfloat) : pyfloat :=
  fold_left fadd (List.filter (fun a => negb (is_nan a)) l) (Fin 0).

(** Truncation toward zero. *)
Definition Qtruncate (q : Q) : Z := Z.quot (Qnum q) (Z.pos (Qden q)).

(** [int(x)] of a float. *)
Definition py_int (a : pyfloat) : result Z :=
  match a with
  | Fin q => Ok (Qtruncate q)
  | PInf | NInf => Raise OverflowError
  | NaN => Raise ValueError
  end.

(** ** SpatialRiskAggregator and Ranker:
       [EnsembleProcessor.rank_aois_by_probability] *)

(** [x.round(1)] in tenths of a degree: [rint(10 x)], ties to even. *)
Definition round_half_even (q : Q) : Z :=
  let f := Qfloor q in
  match (q - inject_Z f ?= 1 # 2)%Q with
  | Lt => f
  | Gt => f + 1
  | Eq => if Z.even f then f else f + 1
  end.

Definition round1 (x : Q) : Z := round_half_even (x * 10).

Definition group_key : Type := Z * Z * string.

Definition key_compare (k1 k2 : group_key) : comparison :=
  match k1.1.1 ?= k2.1.1 with
  | Eq =>
      match k1.1.2 ?= k2.1.2 with
      | Eq => String.compare k1.2 k2.2
      | c => c
      end
  | c => c
  end.

(** Insertion into the sorted list of distinct group keys. *)
Fixpoint insert_key (k : group_key) (ks : list group_key) : list group_key :=
  match ks with
  | [] => [k]
  | k' :: rest =>
      match key_compare k k' with
      | Lt => k :: ks
      | Eq => ks
      | Gt => k' :: insert_key k rest
      end
  end.

Definition possible_cols : list string :=
  [ "Population"; "POPULATION"; "population"; "U7H001"; "POP" ]%string.

(** The first candidate column name found among the layer's columns. *)
Definition find_pop_col (columns : list string) : option string :=
  List.find (fun col => bool_decide (col ∈ columns)) possible_cols.

Fixpoint mapR {A B} (f : A -> result B) (l : list A) : result (list B) :=
  match l with
  | [] => Ok []
  | a :: rest =>
      bind (f a) (fun b => bind (mapR f rest) (fun bs => Ok (b :: bs)))
  end.

Fixpoint filterR {A} (f : A -> result bool) (l : list A) : result (list A) :=
  match l with
  | [] => Ok []
  | a :: rest =>
      bind (f a) (fun b =>
        bind (filterR f rest) (fun keep => Ok (if b then a :: keep else keep)))
  end.

(** [DataFrame.head(n)]: the first [n] rows, or all but the last [-n]
    when [n] is negative. *)
Definition head {A} (n : Z) (l : list A) : list A :=
  if n <? 0 then firstn (length l - Z.to_nat (- n)) l
  else firstn (Z.to_nat n) l.

Section Ranking.
Context {G : Type} `{Shapely G}.

(** A row of [aoi_data].  The columns that none of the properties
    below reads (file_name, aoi_id, mean_precip_mm, max_precip_mm,
    area_deg2) are left out. *)
Record aoi_record : Type := {
  a_method : string;
  a_date : string;
  a_fxx : Z;
  a_threshold : Z;
  a_bin : string;
  a_geometry : G
}.

(** [for idx, row in gdf.iterrows()]: reading [row['geometry'].area]
    of a feature without geometry raises; the rows appended before
    stay in [aoi_data]. *)
Fixpoint member_rows (self : EnsembleProcessor) (mem : member)
    (geometry : list (option G)) : list aoi_record * bool :=
  match geometry with
  | [] => ([], false)
  | None :: _ => ([], true)
  | Some g :: rest =>
      let '(rows, raised) := member_rows self mem rest in
      ({| a_method := method mem; a_date := date mem; a_fxx := fxx mem;
          a_threshold := thr mem; a_bin := label_of self mem;
          a_geometry := g |} :: rows, raised)
  end.

Definition member_aois (self : EnsembleProcessor) (d : disk G) (mem : member)
    : list aoi_record * list warning :=
  match read_file d (path mem) with
  | Unreadable => ([], [FailedToProcess (path mem)])
  | Frame geometry =>
      let '(rows, raised) := member_rows self mem geometry in
      (rows, if raised : bool then [FailedToProcess (path mem)] else [])
  end.

Fixpoint collect_aoi_data (self : EnsembleProcessor) (d : disk G)
    (ms : list member) : list aoi_record * list warning :=
  match ms with
  | [] => ([], [])
  | mem :: rest =>
      let '(rows, ws) := member_aois self d mem in
      let '(rows', ws') := collect_aoi_data self d rest in
      (rows ++ rows', ws ++ ws')
  end.

(** [centroid_lon], [centroid_lat]: the rounded centroid, absent when
    the centroid coordinates are NaN. *)
Definition centroid_key (g : G) : option (Z * Z) :=
  match geom_centroid g with
  | Some (x, y) => Some (round1 x, round1 y)
  | None => None
  end.

Definition key_of (a : aoi_record) : option group_key :=
  match centroid_key (a_geometry a) with
  | Some (lon, lat) => Some (lon, lat, a_bin a)
  | None => None
  end.

(** The keys of [groupby(['centroid_lon', 'centroid_lat', 'bin'])]:
    distinct, sorted, rows with a NaN key dropped. *)
Fixpoint group_keys (rows : list aoi_record) : list group_key :=
  match rows with
  | [] => []
  | a :: rest =>
      match key_of a with
      | Some k => insert_key k (group_keys rest)
      | None => group_keys rest
      end
  end.

Definition rows_of_group (rows : list aoi_record) (k : group_key) : list aoi_record :=
  List.filter (fun a => bool_decide (key_of a = Some k)) rows.

(** The population layer: its column names and, per unit, the
    geometry and the value of each column. *)
Record census_unit : Type := {
  u_geometry : G;
  u_value : string -> Q
}.

Record census_layer : Type := {
  census_columns : list string;
  census_units : list census_unit
}.

(** [matching_rows]: all AOIs at the group's rounded centroid, of
    whatever bin. *)
Definition matching_rows (rows : list aoi_record) (lon lat : Z) : list aoi_record :=
  List.filter (fun a => bool_decide (centroid_key (a_geometry a) = Some (lon, lat))) rows.

Definition combine_geometries (geom_list : list G) : G :=
  match geom_list with
  | [g] => g
  | _ => unary_union geom_list
  end.

(** [area_fraction] of one intersecting unit. *)
Definition area_fraction (combined : G) (u : census_unit) : result pyfloat :=
  bind (geom_intersection (u_geometry u) combined)
    (fun ig => Ok (fdiv_fin (geom_area ig) (geom_area (u_geometry u)))).

Definition weighted_pop (col : string) (uf : census_unit * pyfloat) : pyfloat :=
  fmul (Fin (u_value uf.1 col)) uf.2.

(** The body of the [try] block of the population loop. *)
Definition population_try (census : census_layer) (combined : G) : result Z :=
  bind (filterR (fun u => geom_intersects (u_geometry u) combined) (census_units census))
    (fun intersecting_census =>
       match intersecting_census with
       | [] => Ok 0
       | _ =>
           bind (mapR (area_fraction combined) intersecting_census)
             (fun fractions =>
                match find_pop_col (census_columns census) with
                | Some pop_col =>
                    py_int (nansum (map (weighted_pop pop_col)
                                        (zip intersecting_census fractions)))
                | None => Ok 0
                end)
       end).

(** One entry of [pop_list]. *)
Definition group_population (census : census_layer) (rows : list aoi_record)
    (lon lat : Z) : Z :=
  match matching_rows rows lon lat with
  | [] => 0
  | matching =>
      match population_try census (combine_geometries (map a_geometry matching)) with
      | Ok pop => pop
      | Raise _ => 0
      end
  end.

(** A row of [grouped]. *)
Record risk_group : Type := {
  centroid_lon : Z;
  centroid_lat : Z;
  bin : string;
  group_method : list string;
  ensemble_count : Z;
  population_affected : option Z
}.

Definition make_group (census_gdf : option census_layer) (rows : list aoi_record)
    (k : group_key) : risk_group :=
  let methods := map a_method (rows_of_group rows k) in
  {| centroid_lon := k.1.1;
     centroid_lat := k.1.2;
     bin := k.2;
     group_method := methods;
     ensemble_count := Z.of_nat (length methods);
     population_affected :=
       match census_gdf with
       | Some census => Some (group_population census rows k.1.1 k.1.2)
       | None => None
       end |}.

(** [sort_values('ensemble_count', ascending=False)], as an insertion
    sort; the order pandas gives to groups of equal count is not
    fixed by the source. *)
Fixpoint insert_by_count (g : risk_group) (gs : list risk_group) : list risk_group :=
  match gs with
  | [] => [g]
  | g' :: rest =>
      if ensemble_count g' <=? ensemble_count g then g :: gs
      else g' :: insert_by_count g rest
  end.

Fixpoint sort_by_count (gs : list risk_group) : list risk_group :=
  match gs with
  | [] => []
  | g :: rest => insert_by_count g (sort_by_count rest)
  end.

Definition grouped (census_gdf : option census_layer) (rows : list aoi_record)
    : list risk_group :=
  map (make_group census_gdf rows) (group_keys rows).

(** The table that [rank_aois_by_probability] returns. *)
Definition rank_aois_by_probability (self : EnsembleProcessor) (d : disk G)
    (census_gdf : option census_layer) (top_n : Z) : list risk_group :=
  match fst (collect_aoi_data self d (current_members self d)) with
  | [] => []
  | rows => head top_n (sort_by_count (grouped census_gdf rows))
  end.

(** The warnings that the same call issues: those of the collection of
    the members, when the processor has none, then those of the loop
    over the members. *)
Definition ranking_warnings (self : EnsembleProcessor) (d : disk G) : list warning :=
  collection_warnings self d ++ snd (collect_aoi_data self d (current_members self d)).

End Ranking.

(** ** AOIExtractor: [ForecastProcessor.generate_aois] *)

(** [a < b] on floats. *)
Definition flt (a b : pyfloat) : bool := fgt b a.

(** numpy's [max] of two values; NaN propagates. *)
Definition fmax (a b : pyfloat) : pyfloat :=
  match a, b with
  | NaN, _ | _, NaN => NaN
  | _, _ => if fle a b then b else a
  end.

(** Division of a float by a positive count. *)
Definition fdiv_count (a : pyfloat) (n : nat) : pyfloat :=
  match a with
  | Fin x => Fin (x / inject_Z (Z.of_nat n))
  | other => other
  end.

Definition cells_of {A} (g : grid A) : list (nat * nat) :=
  flat_map (fun r => map (fun c => (r, c)) (seq 0 (length (g !!! r))))
           (seq 0 (length g)).

Definition mask_at (mask : grid bool) (r c : nat) : bool :=
  default false (cell_at mask r c).

Definition label_at (labeled : grid Z) (r c : nat) : Z :=
  default 0 (cell_at labeled r c).

Definition set_cell {A} (g : grid A) (r c : nat) (v : A) : grid A :=
  match g !! r with
  | Some row => <[r := <[c := v]> row]> g
  | None => g
  end.

(** The four neighbours of a cell (the default structuring element of
    [scipy.ndimage.label]). *)
Definition neighbours (r c : nat) : list (nat * nat) :=
  match r with S r' => [(r', c)] | O => [] end
  ++ [(S r, c)]
  ++ match c with S c' => [(r, c')] | O => [] end
  ++ [(r, S c)].

(** Give label [lab] to every unlabelled mask cell reachable from the
    work list. *)
Fixpoint flood (fuel : nat) (mask : grid bool) (work : list (nat * nat))
    (lab : Z) (labeled : grid Z) : grid Z :=
  match fuel with
  | O => labeled
  | S fuel' =>
      match work with
      | [] => labeled
      | (r, c) :: rest =>
          if mask_at mask r c && (label_at labeled r c =? 0)
          then flood fuel' mask (neighbours r c ++ rest) lab (set_cell labeled r c lab)
          else flood fuel' mask rest lab labeled
      end
  end.

Definition label_step (mask : grid bool) (fuel : nat)
    (st : grid Z * Z) (rc : nat * nat) : grid Z * Z :=
  if mask_at mask rc.1 rc.2 && (label_at st.1 rc.1 rc.2 =? 0)
  then (flood fuel mask [rc] (st.2 + 1) st.1, st.2 + 1)
  else st.

(** [scipy.ndimage.label(mask)]: the labelled array and the number of
    features, components numbered in scan order. *)
Definition label (mask : grid bool) : grid Z * Z :=
  let cells := cells_of mask in
  fold_left (label_step mask (5 * length cells + 1)) cells
            ((fun row : list bool => (fun _ => 0) <$> row) <$> mask, 0).

(** [astype(np.int16)] of a label. *)
Definition wrap_int16 (z : Z) : Z := (z + 32768) mod 65536 - 32768.

Record dataset : Type := {
  longitude_min : Q;
  longitude_max : Q;
  latitude_min : Q;
  latitude_max : Q;
  dims_x : nat;
  dims_y : nat
}.

(** [from_bounds(lon_min, lat_min, lon_max, lat_max, width, height)]
    after the conversion of longitudes from 0..360 to -180..180. *)
Definition dataset_transform (ds : dataset) : transform :=
  let lon_min := longitude_min ds in
  let lon_max := longitude_max ds in
  let lon_min := if Qle_bool lon_min 180 then lon_min else (lon_min - 360)%Q in
  let lon_max := if Qle_bool lon_max 180 then lon_max else (lon_max - 360)%Q in
  {| t_west := lon_min; t_south := latitude_min ds;
     t_east := lon_max; t_north := latitude_max ds;
     t_width := dims_x ds; t_height := dims_y ds |}.

Definition aoi_columns : list string :=
  [ "id"; "mean_precip_mm"; "max_precip_mm"; "area_deg2" ]%string.

Section Extraction.
Context {G : Type} `{Shapely G}.

(** A row of the AOI frame. *)
Record aoi : Type := {
  aoi_id : Z;
  mean_precip_mm : pyfloat;
  max_precip_mm : pyfloat;
  area_deg2 : Q;
  aoi_geometry : G
}.

(** The returned [GeoDataFrame]: its columns (the geometry column
    last) and its rows. *)
Record aoi_frame : Type := {
  frame_columns : list string;
  frame_rows : list aoi
}.

Definition empty_frame : aoi_frame :=
  {| frame_columns := aoi_columns ++ ["geometry"%string]; frame_rows := [] |}.

Definition cells_with_label (labeled : grid Z) (v : Z) : list (nat * nat) :=
  List.filter (fun rc => label_at labeled rc.1 rc.2 =? v) (cells_of labeled).

Definition value_at (precip_data : grid pyfloat) (rc : nat * nat) : pyfloat :=
  default NaN (cell_at precip_data rc.1 rc.2).

(** The body of [for geom, label_id in shapes] for the shape of
    component [k]: [None] when the shape is skipped. *)
Definition shape_to_aoi (precip_data : grid pyfloat) (labeled : grid Z)
    (tr : transform) (min_area : pyfloat) (k : Z) : result (option aoi) :=
  let label_id := wrap_int16 k in
  if label_id =? 0 then Ok None
  else
    let poly := polygonize tr (cells_with_label labeled k) in
    if flt (Fin (geom_area poly)) min_area then Ok None
    else
      match map (value_at precip_data) (cells_with_label labeled label_id) with
      | [] => Raise ValueError
      | v :: vs =>
          Ok (Some {| aoi_id := label_id;
                      mean_precip_mm :=
                        fdiv_count (fold_left fadd vs v) (S (length vs));
                      max_precip_mm := fold_left fmax vs v;
                      area_deg2 := geom_area poly;
                      aoi_geometry := poly |})
      end.

Fixpoint shapes_to_aois (precip_data : grid pyfloat) (labeled : grid Z)
    (tr : transform) (min_area : pyfloat) (ks : list Z) : result (list aoi) :=
  match ks with
  | [] => Ok []
  | k :: rest =>
      bind (shape_to_aoi precip_data labeled tr min_area k)
        (fun o =>
           bind (shapes_to_aois precip_data labeled tr min_area rest)
             (fun rows => Ok (match o with Some a => a :: rows | None => rows end)))
  end.

(** [generate_aois(precip_data, ds, threshold, min_area)];
    [config_min_aoi_area] is [self.config.min_aoi_area]. *)
Definition generate_aois (config_min_aoi_area : pyfloat)
    (precip_data : grid pyfloat) (ds : dataset) (threshold : pyfloat)
    (min_area : option pyfloat) : result aoi_frame :=
  let min_area := default config_min_aoi_area min_area in
  let mask := (fun row : list pyfloat => (fun v => fgt v threshold) <$> row) <$> precip_data in
  let '(labeled, num_features) := label mask in
  if num_features =? 0 then Ok empty_frame
  else
    let tr := dataset_transform ds in
    bind (shapes_to_aois precip_data labeled tr min_area
            (map (fun i => Z.of_nat (S i)) (seq 0 (Z.to_nat num_features))))
      (fun rows =>
         Ok {| frame_columns := aoi_columns ++ ["geometry"%string];
               frame_rows := rows |}).

End Extraction.

(** ** Notions used to state the properties *)

Section EnsembleNotions.
Context {G : Type} `{Shapely G}.

(** The binary grid that a Member adds to the count grid of its bin,
    when it adds one. *)
Definition member_grid (self : EnsembleProcessor) (d : disk G) (mem : member)
    : option (grid Z) :=
  match read_file d (path mem) with
  | Unreadable => None
  | Frame geometry =>
      match burnable_shapes geometry with
      | [] => None
      | shapes => Some (rasterize shapes (height self) (width self))
      end
  end.

Definition add_to_bin (counts : gmap string (grid Z)) (lbl : string)
    (tmp : option (grid Z)) : gmap string (grid Z) :=
  match tmp with
  | Some t => alter (fun g => grid_add g t) lbl counts
  | None => counts
  end.

End EnsembleNotions.

Section RankingNotions.
Context {G : Type} `{Shapely G}.

(** The rows returned by the collection loop of the ranking pass. *)
Definition aoi_rows (self : EnsembleProcessor) (d : disk G) : list aoi_record :=
  (collect_aoi_data self d (current_members self d)).1.

(** The merged geometry used for a group: the union of all AOIs at
    the group's rounded centroid. *)
Definition combined_geometry (rows : list aoi_record) (lon lat : Z) : G :=
  combine_geometries (map a_geometry (matching_rows rows lon lat)).

Definition unit_intersects (combined : G) (u : census_unit) : bool :=
  match geom_intersects (u_geometry u) combined with
  | Ok true => true
  | _ => false
  end.

Definition intersection_area (combined : G) (u : census_unit) : Q :=
  match geom_intersection (u_geometry u) combined with
  | Ok ig => geom_area ig
  | Raise _ => 0%Q
  end.

(** The weighting formula of the specification: the sum, over the
    population units that intersect the merged geometry, of
    population x (intersection area / unit area). *)
Definition weighted_population_sum (census : census_layer) (col : string)
    (combined : G) : Q :=
  fold_left Qplus
    (map (fun u => (u_value u col
                    * (intersection_area combined u / geom_area (u_geometry u)))%Q)
         (List.filter (unit_intersects combined) (census_units census)))
    0%Q.

(** The population layer can be processed against a geometry: no
    geometry operation raises, and every unit has a non-zero area. *)
Definition census_usable (census : census_layer) (combined : G) : Prop :=
  forall u, u ∈ census_units census ->
    (exists b, geom_intersects (u_geometry u) combined = Ok b) /\
    (exists ig, geom_intersection (u_geometry u) combined = Ok ig) /\
    ~ (geom_area (u_geometry u) == 0)%Q.

End RankingNotions.

(** The Members that the classifier sends to a label. *)
Definition members_in_bin (self : EnsembleProcessor) (ms : list member) (lbl : string)
    : list member :=
  List.filter (fun m => bool_decide (label_of self m = lbl)) ms.

(** The probability grid that the final loop writes for a label. *)
Definition emitted (acc : accumulators) (lbl : string) : option (list (list Q)) :=
  match denom_by_bin acc !! lbl, counts_by_bin acc !! lbl with
  | Some denom, Some counts =>
      if denom =? 0 then None else Some (probability_grid denom counts)
  | _, _ => None
  end.

(** Every configured label is a key of both dictionaries, and the
    denominators are natural numbers. *)
Definition labels_are_keys (self : EnsembleProcessor) (acc : accumulators) : Prop :=
  forall l, l ∈ bin_labels self ->
    (exists n, denom_by_bin acc !! l = Some n /\ 0 <= n) /\
    (exists g, counts_by_bin acc !! l = Some g).

(** Two accumulator states with the same count grids and denominators
    (the warnings issued so far may differ). *)
Definition same_grids (a b : accumulators) : Prop :=
  counts_by_bin a = counts_by_bin b /\ denom_by_bin a = denom_by_bin b.

Definition same_result (r r' : result accumulators) : Prop :=
  match r, r' with
  | Ok a, Ok b => same_grids a b
  | Raise _, Raise _ => True
  | _, _ => False
  end.

(** Two runs that both raise, or both return the same count grids,
    denominators and probability grids. *)
Definition same_outcome (r r' : result ensemble_output) : Prop :=
  match r, r' with
  | Ok o, Ok o' =>
      out_counts o = out_counts o' /\ out_denoms o = out_denoms o' /\
      prob_grids o = prob_grids o'
  | Raise _, Raise _ => True
  | _, _ => False
  end.

(** ** A small implementation of the geometry interface

    A geometry is a finite list of unit cells (row, column) of a
    one-degree lattice; cell (r, c) is the square [c, c+1] x [r, r+1].
    It is used to run the definitions above on concrete inputs. *)

Module Cells.

Definition geom : Type := list (nat * nat).

Definition cell_in (rc : nat * nat) (g : geom) : bool :=
  existsb (fun rc' => bool_decide (rc = rc')) g.

Definition area (g : geom) : Q := inject_Z (Z.of_nat (length g)).

Definition Qsum (l : list Q) : Q := fold_right Qplus 0%Q l.

Definition centroid (g : geom) : option (Q * Q) :=
  match g with
  | [] => None
  | _ =>
      let n := inject_Z (Z.of_nat (length g)) in
      Some (Qred (Qsum (map (fun rc => inject_Z (Z.of_nat rc.2) + (1 # 2)) g) / n),
            Qred (Qsum (map (fun rc => inject_Z (Z.of_nat rc.1) + (1 # 2)) g) / n))%Q
  end.

Definition intersection (a b : geom) : geom :=
  List.filter (fun rc => cell_in rc b) a.

Fixpoint union (gs : list geom) : geom :=
  match gs with
  | [] => []
  | g :: rest => g ++ List.filter (fun rc => negb (cell_in rc g)) (union rest)
  end.

#[export] Instance cells_shapely : Shapely geom := {|
  geom_is_empty g := match g with [] => true | _ => false end;
  geom_area := area;
  geom_centroid := centroid;
  geom_burns g r c := cell_in (r, c) g;
  geom_intersects a b :=
    Ok (match intersection a b with [] => false | _ => true end);
  geom_intersection a b := Ok (intersection a b);
  unary_union := union;
  polygonize _ cells := cells
|}.

End Cells.

(** ** Example inputs *)

Module Examples.
Import Cells.

Definition file (m dt name : string) (fxx_thr : Z * Z) (geometry : list (option geom))
    : disk_file geom :=
  {| f_path := {| p_method := m; p_date := dt; p_name := name |};
     f_match := Some fxx_thr;
     f_content := Frame geometry |}.

Definition member_of (f : disk_file geom) : member :=
  {| method := p_method (f_path f); date := p_date (f_path f);
     fxx := default 0 (fst <$> f_match f); thr := default 0 (snd <$> f_match f);
     path := f_path f |}.

(** A processor with the default bins on a 2 x 2 grid. *)
Definition default_processor (ms : list member) : EnsembleProcessor :=
  {| bins := default_bins; bin_labels := default_bin_labels;
     members := ms; height := 2; width := 2 |}.

(** A processor configured with the single bin [10, 20]. *)
Definition one_bin_processor (ms : list member) : EnsembleProcessor :=
  {| bins := [(of_int 10, of_int 20)]; bin_labels := ["10-20"%string];
     members := ms; height := 2; width := 2 |}.

(** Scenario C: three Members of one bin, the first with a polygon
    over cell (0, 0), the two others without any AOI. *)
Definition covering_file : disk_file geom :=
  file "hrrr" "2024-01-01" "F06_T15_aois.geojson" (6, 15) [Some [(0, 0)%nat]].
Definition empty_file_1 : disk_file geom :=
  file "hrrr" "2024-01-02" "F06_T15_aois.geojson" (6, 15) [].
Definition empty_file_2 : disk_file geom :=
  file "hrrr" "2024-01-03" "F06_T15_aois.geojson" (6, 15) [].
Definition scenario_c_disk : disk geom :=
  [covering_file; empty_file_1; empty_file_2].
Definition scenario_c_members : list member :=
  [member_of covering_file; member_of empty_file_1; member_of empty_file_2].

(** A Member file with threshold 5, which the bin [10, 20] does not hold. *)
Definition unmatched_file : disk_file geom :=
  file "hrrr" "2024-01-01" "F06_T5_aois.geojson" (6, 5) [Some [(0, 0)%nat]].

(** A Member of threshold 15 whose file is no longer on the disk. *)
Definition missing_member : member :=
  member_of (file "hrrr" "2024-01-04" "F06_T15_aois.geojson" (6, 15) []).

(** Two Members of the same method, on two dates, with the same AOI. *)
Definition same_method_disk : disk geom :=
  [ file "hrrr" "2024-01-01" "F06_T15_aois.geojson" (6, 15) [Some [(0, 0)%nat]];
    file "hrrr" "2024-01-02" "F06_T15_aois.geojson" (6, 15) [Some [(0, 0)%nat]] ].

(** Scenario D: two Members of different methods with the same AOI. *)
Definition two_methods_disk : disk geom :=
  [ file "hrrr" "2024-01-01" "F06_T15_aois.geojson" (6, 15) [Some [(0, 0)%nat]];
    file "gfs" "2024-01-01" "F06_T15_aois.geojson" (6, 15) [Some [(0, 0)%nat]] ].

(** A population layer with the columns GEOID and POP. *)
Definition pop_value (p : Q) : string -> Q :=
  fun col => if String.eqb col "POP" then p else 0%Q.

Definition census_of (units : list (geom * Q)) : census_layer :=
  {| census_columns := ["GEOID"; "POP"]%string;
     census_units :=
       map (fun gp => {| u_geometry := gp.1; u_value := pop_value gp.2 |}) units |}.

(** Scenario E: one AOI over cell (0, 0), one population unit made of
    the cells (0, 0) and (0, 1). *)
Definition one_aoi_disk : disk geom :=
  [ file "hrrr" "2024-01-01" "F06_T15_aois.geojson" (6, 15) [Some [(0, 0)%nat]] ].
Definition half_covered_unit (population : Q) : census_layer :=
  census_of [([(0, 0)%nat; (0, 1)%nat], population)].

(** Two AOIs with the same centroid in two different bins: the cell
    (1, 1) at threshold 3 and the cross around it at threshold 10;
    one population unit on the cell (0, 1), which only the cross
    covers. *)
Definition cross : geom :=
  [(1, 1)%nat; (0, 1)%nat; (1, 0)%nat; (1, 2)%nat; (2, 1)%nat].
Definition two_bins_disk : disk geom :=
  [ file "hrrr" "2024-01-01" "F06_T3_aois.geojson" (6, 3) [Some [(1, 1)%nat]];
    file "hrrr" "2024-01-01" "F06_T10_aois.geojson" (6, 10) [Some cross] ].
Definition arm_unit : census_layer := census_of [([(0, 1)%nat], 1000%Q)].

(** Scenario A: a field of zeros.  Scenario B: a 3 x 3 block of 50 in
    a 5 x 5 field of zeros. *)
Definition zero_field : list (list pyfloat) :=
  [ [of_int 0; of_int 0]; [of_int 0; of_int 0] ].
Definition block_field : list (list pyfloat) :=
  let z := of_int 0 in
  let v := of_int 50 in
  [ [z; z; z; z; z]; [z; v; v; v; z]; [z; v; v; v; z]; [z; v; v; v; z]; [z; z; z; z; z] ].
Definition example_dataset (n : nat) : dataset :=
  {| longitude_min := 0; longitude_max := inject_Z (Z.of_nat n);
     latitude_min := 0; latitude_max := inject_Z (Z.of_nat n);
     dims_x := n; dims_y := n |}.

End Examples.

(** * Further definitions *)

From Stdlib Require Import Sorting.Sorted Lqa DecimalString DecimalN DecimalPos Ascii.

(** ** Further notions: the ensemble engine *)

Section CoverageNotions.
Context {G : Type} `{Shapely G}.

(** The Member's file can be read and one of its shapes is burnt into
    cell (r, c). *)
Definition member_covers (d : disk G) (mem : member) (r c : nat) : bool :=
  match read_file d (path mem) with
  | Unreadable => false
  | Frame geometry => existsb (fun g => geom_burns g r c) (burnable_shapes geometry)
  end.

(** The Members of a bin that cover a cell. *)
Definition covering_members (self : EnsembleProcessor) (d : disk G)
    (ms : list member) (lbl : string) (r c : nat) : list member :=
  List.filter (fun m => member_covers d m r c) (members_in_bin self ms lbl).

End CoverageNotions.

(** A grid of [height] rows of [width] cells. *)
Definition has_shape {A} (g : list (list A)) (height width : nat) : Prop :=
  length g = height /\ Forall (fun row => length row = width) g.

Section WarningNotions.
Context {G : Type}.

(** The file of the Member cannot be read. *)
Definition unreadable (d : disk G) (mem : member) : bool :=
  match read_file d (path mem) with
  | Unreadable => true
  | Frame _ => false
  end.

End WarningNotions.

(** The configured labels whose denominator is 0. *)
Definition empty_bins (labels : list string) (denoms : gmap string Z) : list string :=
  List.filter (fun l => bool_decide (denoms !! l = Some 0)) labels.

(** ** Further notions: the ranking pass *)

(** A list of counts that never increases from one row to a later one. *)
Definition non_increasing (l : list Z) : Prop :=
  forall i j x y, (i < j)%nat -> l !! i = Some x -> l !! j = Some y -> y <= x.

Definition sum_Z (l : list Z) : Z := fold_right Z.add 0 l.

Section GroupNotions.
Context {G : Type} `{Shapely G}.

(** The AOI rows that have a centroid, hence a group key. *)
Definition keyed_rows (rows : list aoi_record) : list aoi_record :=
  List.filter (fun a => bool_decide (is_Some (key_of a))) rows.

Definition key_of_group (g : risk_group) : group_key :=
  (centroid_lon g, centroid_lat g, bin g).

End GroupNotions.

(** ** Further notions: AOI extraction *)

(** The state of the labelling after a prefix of the scan. *)
Definition labelling_invariant (mask : list (list bool)) (done : list (nat * nat))
    (st : list (list Z) * Z) : Prop :=
  (forall r c, is_Some (cell_at st.1 r c) <-> is_Some (cell_at mask r c))
  /\ 0 <= st.2
  /\ (forall r c, 0 <= label_at st.1 r c <= st.2)
  /\ (forall r c, label_at st.1 r c <> 0 -> mask_at mask r c = true)
  /\ (forall k, 1 <= k <= st.2 -> exists r c, label_at st.1 r c = k)
  /\ (forall r c, (r, c) ∈ done -> mask_at mask r c = true -> label_at st.1 r c <> 0).

(** The mask of [generate_aois]: the cells strictly above the threshold. *)
Definition exceedance_mask (precip_data : list (list pyfloat)) (threshold : pyfloat)
    : list (list bool) :=
  (fun row : list pyfloat => (fun v => fgt v threshold) <$> row) <$> precip_data.

(** The labelled array and the number of regions found in a field. *)
Definition labelled_regions (precip_data : list (list pyfloat)) (threshold : pyfloat)
    : list (list Z) :=
  (label (exceedance_mask precip_data threshold)).1.

Definition num_regions (precip_data : list (list pyfloat)) (threshold : pyfloat) : Z :=
  (label (exceedance_mask precip_data threshold)).2.

(** The value of a cell is strictly above the threshold. *)
Definition exceeds (precip_data : list (list pyfloat)) (threshold : pyfloat)
    (rc : nat * nat) : Prop :=
  exists v, cell_at precip_data rc.1 rc.2 = Some v /\ fgt v threshold = true.


Section ExtractionNotions.
Context {G : Type} `{Shapely G}.

(** The polygon that [features.shapes] yields for the region labelled [k]. *)
Definition region_polygon (precip_data : list (list pyfloat)) (ds : dataset)
    (threshold : pyfloat) (k : Z) : G :=
  polygonize (dataset_transform ds)
             (cells_with_label (labelled_regions precip_data threshold) k).

(** The polygon of region [k] is smaller than the minimum area. *)
Definition below_min_area (precip_data : list (list pyfloat)) (ds : dataset)
    (threshold min_area : pyfloat) (k : Z) : bool :=
  flt (Fin (geom_area (region_polygon precip_data ds threshold k))) min_area.

(** The labels 1 .. num_features, in the order of the shapes. *)
Definition region_labels (precip_data : list (list pyfloat)) (threshold : pyfloat)
    : list Z :=
  map (fun i => Z.of_nat (S i)) (seq 0 (Z.to_nat (num_regions precip_data threshold))).

(** The labels of the regions that pass the area filter. *)
Definition kept_regions (precip_data : list (list pyfloat)) (ds : dataset)
    (threshold min_area : pyfloat) : list Z :=
  List.filter (fun k => negb (below_min_area precip_data ds threshold min_area k))
              (region_labels precip_data threshold).

End ExtractionNotions.

(** ** Member file names: [process_all_forecasts] and [collect_members] *)

(** [str(n)] of an integer, as an f-string prints it. *)
Definition str_int (z : Z) : string :=
  if z <? 0
  then String "-"%char (NilEmpty.string_of_uint (N.to_uint (Z.to_N (- z))))
  else NilEmpty.string_of_uint (N.to_uint (Z.to_N z)).

(** [key = f"F{fxx}_T{int(threshold)}"] *)
Definition forecast_key (fxx : Z) (threshold : pyfloat) : result string :=
  bind (py_int threshold)
    (fun t => Ok ("F" +:+ str_int fxx +:+ "_T" +:+ str_int t)).

(** The name of the file written for a forecast:
    [f"{key}_aois.geojson"]. *)
Definition aoi_file_name (fxx : Z) (threshold : pyfloat) : result string :=
  bind (forecast_key fxx threshold) (fun key => Ok (key +:+ "_aois.geojson")).

Definition is_digit (a : Ascii.ascii) : bool :=
  let n := Ascii.N_of_ascii a in (48 <=? n)%N && (n <=? 57)%N.

(** The longest prefix of digits, and what follows it.  In the pattern
    each [\d+] is followed by [_], which is no digit, so that only
    the longest run of digits can be its match. *)
Fixpoint span_digits (s : string) : string * string :=
  match s with
  | String a s' =>
      if is_digit a
      then let '(ds, rest) := span_digits s' in (String a ds, rest)
      else (EmptyString, s)
  | EmptyString => (EmptyString, EmptyString)
  end.

Fixpoint strip_prefix (p s : string) : option string :=
  match p, s with
  | EmptyString, _ => Some s
  | String a p', String b s' => if Ascii.eqb a b then strip_prefix p' s' else None
  | String _ _, EmptyString => None
  end.

(** A match of [F(?P<fxx>\d+)_T(?P<thr>\d+)_aois\.geojson$] that
    starts at the first character of [s]: the two groups.  The suffix
    test that precedes the search only lets through names that end in
    [.geojson], so that [$] is the end of the name. *)
Definition match_member_name (s : string) : option (string * string) :=
  match s with
  | String "F"%char s1 =>
      match span_digits s1 with
      | (EmptyString, _) => None
      | (fxx_digits, r1) =>
          match strip_prefix "_T" r1 with
          | Some s2 =>
              match span_digits s2 with
              | (EmptyString, _) => None
              | (thr_digits, r2) =>
                  if String.eqb r2 "_aois.geojson" then Some (fxx_digits, thr_digits)
                  else None
              end
          | None => None
          end
      end
  | _ => None
  end.

(** [pattern.search(file.name)]: the leftmost match. *)
Fixpoint pattern_search (s : string) : option (string * string) :=
  match match_member_name s with
  | Some m => Some m
  | None =>
      match s with
      | String _ s' => pattern_search s'
      | EmptyString => None
      end
  end.

(** [int(m.group(...))] of a run of digits. *)
Definition int_of_digits (ds : string) : option Z :=
  (fun d => Z.of_N (N.of_uint d)) <$> NilEmpty.uint_of_string ds.

(** The groups [(fxx, thr)] read from a file name by [collect_members],
    [None] when the file is passed over. *)
Definition member_name_groups (name : string) : option (Z * Z) :=
  match pattern_search name with
  | Some (fxx_digits, thr_digits) =>
      match int_of_digits fxx_digits, int_of_digits thr_digits with
      | Some f, Some t => Some (f, t)
      | _, _ => None
      end
  | None => None
  end.

(** A string of digits. *)
Definition all_digits (s : string) : Prop :=
  Forall (fun a => is_digit a = true) (String.list_ascii_of_string s).

(** A string without the letter F. *)
Definition no_F (s : string) : Prop :=
  Forall (fun a => a <> "F"%char) (String.list_ascii_of_string s).

(** A disk on which the groups of each file are those that the suffix
    test and the pattern search read from its name. *)
Definition well_named {G} (d : disk G) : Prop :=
  Forall (fun f => f_match f = member_name_groups (p_name (f_path f))) d.

(** ** The population column of [ForecastProcessor.enhance_aois] *)

(** [pop_columns], in the order of the search. *)
Definition pop_columns : list string :=
  [ "U7H001"; "population"; "POP"; "POPULATION" ]%string.

(** The column that [enhance_aois] sums, when it finds one. *)
Definition enhance_pop_col (columns : list string) : option string :=
  List.find (fun col => bool_decide (col ∈ columns)) pop_columns.

(** ** [DataManager.clip_to_land] and [ForecastProcessor.process_single_forecast] *)

(** What geopandas does with geometries beyond the Shapely interface:
    [to_crs], the reprojection of a geometry into a CRS, and
    [in_bounds], the selection [.cx] of the features that meet the
    bounding box of a list of geometries. *)
Class GeoPandas (G : Type) : Type := {
  to_crs : string -> G -> G;
  in_bounds : list G -> G -> bool
}.

(** A layer of features: the land boundary. *)
Record layer (G : Type) : Type := {
  layer_crs : string;
  layer_geometry : list G
}.
Arguments layer_crs {G} _.
Arguments layer_geometry {G} _.

(** [Series.mean()] and [Series.max()]: NaN entries are skipped. *)
Definition series_mean (l : list pyfloat) : pyfloat :=
  match List.filter (fun a => negb (is_nan a)) l with
  | [] => NaN
  | v :: vs => fdiv_count (fold_left fadd vs v) (S (length vs))
  end.

Definition series_max (l : list pyfloat) : pyfloat :=
  match List.filter (fun a => negb (is_nan a)) l with
  | [] => NaN
  | v :: vs => fold_left fmax vs v
  end.

Section Forecast.
Context {G : Type} `{Shapely G} `{GeoPandas G}.

Definition reproject (crs : string) (a : aoi) : aoi :=
  {| aoi_id := aoi_id a;
     mean_precip_mm := mean_precip_mm a;
     max_precip_mm := max_precip_mm a;
     area_deg2 := area_deg2 a;
     aoi_geometry := to_crs crs (aoi_geometry a) |}.

(** [gpd.sjoin(gdf, land_subset, how='inner', predicate='intersects')],
    cut to the columns of [gdf]: one copy of a row for each land
    feature that its geometry intersects. *)
Definition sjoin_intersects (rows : list aoi) (land : list G) : result (list aoi) :=
  bind (mapR (fun a =>
                bind (filterR (fun l => geom_intersects (aoi_geometry a) l) land)
                  (fun met => Ok (map (fun _ => a) met)))
             rows)
    (fun copies => Ok (concat copies)).

(** [drop_duplicates(subset=['id'])]: the first row of each id. *)
Fixpoint drop_duplicates (seen : list Z) (rows : list (aoi (G := G)))
    : list (aoi (G := G)) :=
  match rows with
  | [] => []
  | a :: rest =>
      if bool_decide (aoi_id a ∈ seen) then drop_duplicates seen rest
      else a :: drop_duplicates (aoi_id a :: seen) rest
  end.

(** [clip_to_land(gdf, land_boundary)]; [census_gdf] is the census
    layer of the data manager and [gdf_crs] the CRS of [gdf]. *)
Definition clip_to_land (census_gdf : option (layer G)) (gdf_crs : string)
    (gdf : aoi_frame) (land_boundary : option (layer G)) : result aoi_frame :=
  match (match land_boundary with Some l => Some l | None => census_gdf end) with
  | None => Ok gdf
  | Some land_boundary =>
      let rows :=
        if String.eqb gdf_crs (layer_crs land_boundary) then frame_rows gdf
        else reproject (layer_crs land_boundary) <$> frame_rows gdf in
      let land_subset :=
        List.filter (in_bounds (aoi_geometry <$> rows)) (layer_geometry land_boundary) in
      match land_subset with
      | [] => Ok {| frame_columns := frame_columns gdf; frame_rows := [] |}
      | _ =>
          bind (sjoin_intersects rows land_subset)
            (fun clipped =>
               Ok {| frame_columns := frame_columns gdf;
                     frame_rows := drop_duplicates [] clipped |})
      end
  end.

(** The first six entries of [stats]. *)
Record forecast_stats : Type := {
  forecast_hour : Z;
  threshold_mm : pyfloat;
  num_aois : nat;
  mean_precip_over_aois : pyfloat;
  max_precip_over_aois : pyfloat;
  total_area_deg2 : Q
}.

Definition frame_empty (gdf : aoi_frame (G := G)) : bool :=
  match frame_rows gdf with [] => true | _ => false end.

Definition forecast_statistics (fxx_ : Z) (threshold : pyfloat)
    (gdf_aoi : aoi_frame (G := G))
    : forecast_stats :=
  {| forecast_hour := fxx_;
     threshold_mm := threshold;
     num_aois := length (frame_rows gdf_aoi);
     mean_precip_over_aois :=
       if negb (frame_empty gdf_aoi)
       then series_mean (mean_precip_mm <$> frame_rows gdf_aoi) else of_int 0;
     max_precip_over_aois :=
       if negb (frame_empty gdf_aoi)
       then series_max (max_precip_mm <$> frame_rows gdf_aoi) else of_int 0;
     total_area_deg2 :=
       if negb (frame_empty gdf_aoi)
       then fold_left Qplus (area_deg2 <$> frame_rows gdf_aoi) 0%Q else 0%Q |}.

(** [process_single_forecast(date, fxx, threshold, method)] from the
    field and dataset that [fetch_forecast_data] returned, up to the
    statistics of the AOIs.  [config_clip_to_land], [config_min_aoi_area]
    and [config_target_crs] are the fields of [self.config]. *)
Definition process_single_forecast (config_clip_to_land : bool)
    (config_min_aoi_area : pyfloat) (config_target_crs : string)
    (land_boundary census_gdf : option (layer G))
    (precip_data : list (list pyfloat)) (ds : dataset) (fxx_ : Z) (threshold : pyfloat)
    : result (aoi_frame * forecast_stats) :=
  bind (generate_aois config_min_aoi_area precip_data ds threshold None)
    (fun gdf_aoi =>
       bind (if config_clip_to_land
                && bool_decide (is_Some land_boundary)
                && negb (frame_empty gdf_aoi)
             then clip_to_land census_gdf config_target_crs gdf_aoi land_boundary
             else Ok gdf_aoi)
         (fun gdf_aoi => Ok (gdf_aoi, forecast_statistics fxx_ threshold gdf_aoi))).

(** A row of a frame, up to the reprojection of its geometry. *)
Definition same_row (a b : aoi (G := G)) : Prop :=
  aoi_id a = aoi_id b /\ mean_precip_mm a = mean_precip_mm b
  /\ max_precip_mm a = max_precip_mm b /\ area_deg2 a = area_deg2 b.

End Forecast.

(** ** [ForecastProcessor.process_all_forecasts] *)

(** A loop whose body may raise. *)
Fixpoint foldR {A B} (f : A -> B -> result A) (l : list B) (a : A) : result A :=
  match l with
  | [] => Ok a
  | b :: rest => bind (f a b) (foldR f rest)
  end.

(** An entry of [self.results[method][date_str]]: the statistics of a
    forecast, or [{'error': str(e)}]. *)
Inductive forecast_entry (S : Type) : Type :=
  | Statistics (stats : S)
  | ErrorEntry (e : exception).
Arguments Statistics {S} stats.
Arguments ErrorEntry {S} e.

Section AllForecasts.
Context {S : Type}.

(** What the [try] block does for one forecast, the key apart:
    [process_single_forecast] (the download included) and the writing
    of the AOI file; the statistics when nothing raises. *)
Variable forecast : string -> string -> Z -> pyfloat -> result S.

Definition entry_of (method date : string) (fxx_ : Z) (threshold : pyfloat)
    : forecast_entry S :=
  match forecast method date fxx_ threshold with
  | Ok stats => Statistics stats
  | Raise e => ErrorEntry e
  end.

(** One turn of the loop over the thresholds.  The key is computed in
    the [try] block and again in its handler, so that an exception of
    [int(threshold)] is raised by the handler too and leaves the
    loops. *)
Definition threshold_turn (method date : string) (fxx_ : Z)
    (by_key : gmap string (forecast_entry S)) (threshold : pyfloat)
    : result (gmap string (forecast_entry S)) :=
  bind (forecast_key fxx_ threshold)
    (fun key => Ok (<[key := entry_of method date fxx_ threshold]> by_key)).

Definition fxx_turn (method date : string) (thresholds : list pyfloat)
    (by_key : gmap string (forecast_entry S)) (fxx_ : Z)
    : result (gmap string (forecast_entry S)) :=
  foldR (threshold_turn method date fxx_) thresholds by_key.

(** [self.results[method][date_str] = {}], then the loops over the
    lead times and the thresholds. *)
Definition date_turn (method : string) (fxx_list : list Z) (thresholds : list pyfloat)
    (by_date : gmap string (gmap string (forecast_entry S))) (date : string)
    : result (gmap string (gmap string (forecast_entry S))) :=
  bind (foldR (fxx_turn method date thresholds) fxx_list ∅)
    (fun by_key => Ok (<[date := by_key]> by_date)).

Definition method_turn (dates : list string) (fxx_list : list Z)
    (thresholds : list pyfloat)
    (results : gmap string (gmap string (gmap string (forecast_entry S))))
    (method : string)
    : result (gmap string (gmap string (gmap string (forecast_entry S)))) :=
  bind (foldR (date_turn method fxx_list thresholds) dates (default ∅ (results !! method)))
    (fun by_date => Ok (<[method := by_date]> results)).

(** [process_all_forecasts()] of a new processor, up to the results
    that it returns: [forecast_methods], [forecast_dates], [fxx_list]
    and [thresholds] are the fields of the configuration. *)
Definition process_all_forecasts (forecast_methods forecast_dates : list string)
    (fxx_list : list Z) (thresholds : list pyfloat)
    : result (gmap string (gmap string (gmap string (forecast_entry S)))) :=
  foldR (method_turn forecast_dates fxx_list thresholds) forecast_methods
        (fold_left (fun results method => <[method := ∅]> results) forecast_methods ∅).

(** The entries of a date are those of the forecasts of the
    configuration: each key is the key of one of them, with its
    outcome. *)
Definition entries_of_forecasts (method date : string) (fxx_list : list Z)
    (thresholds : list pyfloat) (by_key : gmap string (forecast_entry S)) : Prop :=
  (forall key, is_Some (by_key !! key) <->
     exists fxx_ t, fxx_ ∈ fxx_list /\ t ∈ thresholds /\ forecast_key fxx_ t = Ok key)
  /\ (forall key entry, by_key !! key = Some entry ->
       exists fxx_ t, fxx_ ∈ fxx_list /\ t ∈ thresholds /\ forecast_key fxx_ t = Ok key
                      /\ entry = entry_of method date fxx_ t).

End AllForecasts.

(** The threshold has an integer part: it is neither NaN nor infinite. *)
Definition finite (threshold : pyfloat) : Prop :=
  match threshold with Fin _ => True | _ => False end.

(** ** [ForecastProcessor.get_aoi_files] *)



(** ** Further example inputs *)

Module MoreExamples.
Import Cells Examples.

(** A member file whose second feature has no geometry. *)
Definition gap_file : disk_file geom :=
  file "hrrr" "2024-01-01" "F06_T15_aois.geojson" (6, 15)
    [Some [(0, 0)%nat]; None; Some [(1, 1)%nat]].

(** A member file that cannot be read. *)
Definition broken_file : disk_file geom :=
  {| f_path := {| p_method := "hrrr"; p_date := "2024-01-05";
                  p_name := "F06_T15_aois.geojson" |};
     f_match := Some (6, 15);
     f_content := Unreadable |}.

(** A population layer without any of the recognised population columns. *)
Definition unnamed_census : census_layer :=
  {| census_columns := ["GEOID"; "residents"]%string;
     census_units := [ {| u_geometry := [(0, 0)%nat]; u_value := fun _ => 100%Q |} ] |}.

(** A field of side [n] with 1 on the cells of even r + c and 0 on
    the others: no two cells above 0 touch by a side. *)
Definition checkerboard (n : nat) : list (list pyfloat) :=
  (fun r => (fun c => if Nat.even (r + c) then of_int 1 else of_int 0) <$> seq 0 n)
    <$> seq 0 n.

(** The global GFS grid at a quarter of a degree: longitudes 0 .. 359.75. *)
Definition gfs_dataset : dataset :=
  {| longitude_min := 0; longitude_max := 1439 # 4;
     latitude_min := -90; latitude_max := 90;
     dims_x := 1440; dims_y := 721 |}.

(** geopandas on cell geometries in a single CRS: the reprojection
    changes nothing and the bounding box selects every feature. *)
#[export] Instance cells_geopandas : GeoPandas geom := {|
  to_crs _ g := g;
  in_bounds _ _ := true
|}.

(** The AOI of Scenario B: the block of nine cells. *)
Definition block_frame : aoi_frame :=
  {| frame_columns := aoi_columns ++ ["geometry"%string];
     frame_rows :=
       [ {| aoi_id := 1; mean_precip_mm := of_int 50; max_precip_mm := of_int 50;
            area_deg2 := 9;
            aoi_geometry :=
              [ (1, 1); (1, 2); (1, 3); (2, 1); (2, 2); (2, 3); (3, 1); (3, 2); (3, 3) ]%nat
         |} ] |}.

(** A land boundary of two features, of which the first meets the block. *)
Definition land_cells : layer geom :=
  {| layer_crs := "EPSG:4326";
     layer_geometry := [ [(1, 1); (0, 1)]%nat; [(4, 4)%nat] ] |}.

(** Forecasts that fail at lead time 12 and report their lead time
    otherwise. *)
Definition example_forecast (method date : string) (fxx_ : Z) (threshold : pyfloat)
    : result Z :=
  if fxx_ =? 12 then Raise GEOSException else Ok fxx_.

End MoreExamples.
(** * Properties *)

(** ** Floats *)

Lemma fle_Fin (x y : Q) : fle (Fin x) (Fin y) = true <-> (x <= y)%Q.
Proof. simpl. apply Qle_bool_iff. Qed.

Lemma fle_fsame (a b a' b' : pyfloat) :
  fsame a a' -> fsame b b' -> fle a b = fle a' b'.
Proof.
  destruct a, a', b, b'; simpl; try tauto; intros Ha Hb.
  apply Qleb_comp; assumption.
Qed.

Lemma in_interval_fsame (lo hi t t' : pyfloat) :
  fsame t t' -> in_interval lo hi t = in_interval lo hi t'.
Proof.
  intros Ht. unfold in_interval.
  assert (Hlo : fsame lo lo) by (destruct lo; simpl; auto; reflexivity).
  assert (Hhi : fsame hi hi) by (destruct hi; simpl; auto; reflexivity).
  rewrite (fle_fsame lo t lo t' Hlo Ht), (fle_fsame t hi t' hi Ht Hhi).
  reflexivity.
Qed.

(** ** BinClassifier *)

Lemma first_matching_label_fsame pairs (t t' : pyfloat) :
  fsame t t' -> first_matching_label pairs t = first_matching_label pairs t'.
Proof.
  intros Ht. induction pairs as [|[[lo hi] l] rest IH]; simpl; [reflexivity|].
  rewrite (in_interval_fsame lo hi t t' Ht), IH. reflexivity.
Qed.

(** The loop returns the label of the first pair whose interval holds
    the threshold, and the sentinel when there is none. *)
Lemma first_matching_label_spec (pairs : list ((pyfloat * pyfloat) * string)) t :
  (exists i lo hi l,
      pairs !! i = Some ((lo, hi), l) /\ in_interval lo hi t = true /\
      (forall j lo' hi' l', (j < i)%nat -> pairs !! j = Some ((lo', hi'), l') ->
                            in_interval lo' hi' t = false) /\
      first_matching_label pairs t = l)
  \/ ((forall i lo hi l, pairs !! i = Some ((lo, hi), l) -> in_interval lo hi t = false) /\
      first_matching_label pairs t = UNBINNED).
Proof.
  induction pairs as [|[[lo hi] l] rest IH]; simpl.
  - right. split; [|reflexivity]. intros i lo hi l Hi. destruct i; discriminate.
  - destruct (in_interval lo hi t) eqn:Hin.
    + left. exists 0%nat, lo, hi, l. repeat split; auto.
      intros j ? ? ? Hj. lia.
    + destruct IH as [(i & lo' & hi' & l' & Hi & Hin' & Hbefore & Hres) | [Hnone Hres]].
      * left. exists (S i), lo', hi', l'. repeat split; auto.
        intros [|j] lo2 hi2 l2 Hj Hlook; simpl in Hlook.
        -- congruence.
        -- eapply Hbefore; [|exact Hlook]. lia.
      * right. split; [|exact Hres].
        intros [|i] lo' hi' l' Hlook; simpl in Hlook.
        -- congruence.
        -- eapply Hnone; exact Hlook.
Qed.

Lemma lookup_zip_Some {A B} (l1 : list A) (l2 : list B) i a b :
  zip l1 l2 !! i = Some (a, b) <-> l1 !! i = Some a /\ l2 !! i = Some b.
Proof.
  revert l2 i. induction l1 as [|x l1 IH]; intros [|y l2] [|i]; simpl;
    try (split; [discriminate | intros [? ?]; discriminate]).
  - split; [intros [= -> ->]; auto | intros [[= ->] [= ->]]; auto].
  - apply IH.
Qed.

(** C6. [threshold_to_bin_label] is a total function of the threshold.
    The bins are paired with the labels by position, so that a bin
    beyond the number of labels is never consulted.  The function
    returns the label of the first bin with a label, in declaration
    order, whose closed interval holds the threshold, and the sentinel
    UNBINNED when the interval of no bin with a label holds it; when
    two consecutive bins share the threshold as a boundary the first
    one wins; and two numerically equal thresholds get the same
    label. *)
Theorem threshold_to_bin_label_first_match
    (bins : list (pyfloat * pyfloat)) (bin_labels : list string) (t : pyfloat) :
  ((exists i lo hi l,
       bins !! i = Some (lo, hi) /\ bin_labels !! i = Some l /\
       in_interval lo hi t = true /\
       (forall j lo' hi', (j < i)%nat -> bins !! j = Some (lo', hi') ->
                          in_interval lo' hi' t = false) /\
       threshold_to_bin_label bins bin_labels t = l)
   \/ ((forall i lo hi, (i < length bin_labels)%nat -> bins !! i = Some (lo, hi) ->
                        in_interval lo hi t = false) /\
       threshold_to_bin_label bins bin_labels t = UNBINNED))
  /\ (forall i lo hi l,
        bins !! i = Some (lo, t) -> bins !! (S i) = Some (t, hi) ->
        bin_labels !! i = Some l ->
        in_interval lo t t = true -> in_interval t hi t = true ->
        (forall j lo' hi', (j < i)%nat -> bins !! j = Some (lo', hi') ->
                           in_interval lo' hi' t = false) ->
        threshold_to_bin_label bins bin_labels t = l)
  /\ (forall t', fsame t t' ->
        threshold_to_bin_label bins bin_labels t' = threshold_to_bin_label bins bin_labels t).
Proof.
  assert (Hlabel : forall i, (i < length bin_labels)%nat ->
                             exists l, bin_labels !! i = Some l).
  { intros i Hi. apply lookup_lt_is_Some_2 in Hi. destruct Hi as [l Hl]. eauto. }
  assert (Hmain :
    (exists i lo hi l,
       bins !! i = Some (lo, hi) /\ bin_labels !! i = Some l /\
       in_interval lo hi t = true /\
       (forall j lo' hi', (j < i)%nat -> bins !! j = Some (lo', hi') ->
                          in_interval lo' hi' t = false) /\
       threshold_to_bin_label bins bin_labels t = l)
   \/ ((forall i lo hi, (i < length bin_labels)%nat -> bins !! i = Some (lo, hi) ->
                        in_interval lo hi t = false) /\
       threshold_to_bin_label bins bin_labels t = UNBINNED)).
  { unfold threshold_to_bin_label.
    destruct (first_matching_label_spec (zip bins bin_labels) t)
      as [(i & lo & hi & l & Hi & Hin & Hbefore & Hres) | [Hnone Hres]].
    - apply lookup_zip_Some in Hi. destruct Hi as [Hb Hl].
      left. exists i, lo, hi, l. repeat split; auto.
      intros j lo' hi' Hj Hbj.
      destruct (Hlabel j) as [l' Hl'].
      { apply lookup_lt_Some in Hl. lia. }
      eapply (Hbefore j lo' hi' l'); [exact Hj|].
      apply lookup_zip_Some. auto.
    - right. split; [|exact Hres].
      intros i lo hi Hi Hb. destruct (Hlabel i Hi) as [l Hl].
      eapply (Hnone i lo hi l). apply lookup_zip_Some. auto. }
  split; [exact Hmain|]. split.
  - intros i lo hi l Hb Hb' Hl Hin _ Hbefore.
    destruct Hmain as [(i' & lo' & hi' & l' & Hbi' & Hli' & Hin' & Hbefore' & Hres) | [Hnone _]].
    + destruct (Nat.lt_trichotomy i i') as [Hlt | [Heq | Hgt]].
      * rewrite (Hbefore' i lo t Hlt Hb) in Hin. discriminate.
      * subst i'. congruence.
      * rewrite (Hbefore i' lo' hi' Hgt Hbi') in Hin'. discriminate.
    + apply lookup_lt_Some in Hl. rewrite (Hnone i lo t Hl Hb) in Hin. discriminate.
  - intros t' Ht. unfold threshold_to_bin_label. symmetry.
    apply first_matching_label_fsame. exact Ht.
Qed.


(** ** Dictionaries of accumulators *)

Lemma fold_insert_lookup {V} (labels : list string) (v : V) (m : gmap string V) (l : string) :
  fold_left (fun m lbl => <[lbl := v]> m) labels m !! l =
  if decide (l ∈ labels) then Some v else m !! l.
Proof.
  revert m. induction labels as [|x labels IH]; intros m; simpl.
  - destruct (decide (l ∈ [])) as [Hin|]; [inversion Hin | reflexivity].
  - rewrite IH. destruct (decide (l ∈ labels)) as [Hin|Hnin].
    + rewrite decide_True; [reflexivity | by right].
    + destruct (decide (l = x)) as [->|Hne].
      * rewrite lookup_insert_eq. rewrite decide_True; [reflexivity | by left].
      * rewrite lookup_insert_ne by congruence.
        rewrite decide_False; [reflexivity|].
        intros [?|?]%elem_of_cons; contradiction.
Qed.

Lemma dict_of_labels_lookup {V} (labels : list string) (v : V) (l : string) :
  dict_of_labels labels v !! l = if decide (l ∈ labels) then Some v else None.
Proof. unfold dict_of_labels. rewrite fold_insert_lookup, lookup_empty. reflexivity. Qed.

(** ** Grids *)

Lemma uint16_add_swap (a b c : Z) :
  uint16_add (uint16_add a b) c = uint16_add (uint16_add a c) b.
Proof.
  unfold uint16_add, uint16_modulus.
  rewrite !Z.add_mod_idemp_l by lia. f_equal. lia.
Qed.

Lemma row_add_swap (g t1 t2 : list Z) :
  zip_with uint16_add (zip_with uint16_add g t1) t2 =
  zip_with uint16_add (zip_with uint16_add g t2) t1.
Proof.
  revert t1 t2. induction g as [|a g IH]; intros [|b t1] [|c t2]; simpl; try reflexivity.
  rewrite uint16_add_swap, IH. reflexivity.
Qed.

Lemma grid_add_swap (g t1 t2 : grid Z) :
  grid_add (grid_add g t1) t2 = grid_add (grid_add g t2) t1.
Proof.
  unfold grid_add.
  revert t1 t2. induction g as [|a g IH]; intros [|b t1] [|c t2]; simpl; try reflexivity.
  rewrite row_add_swap, IH. reflexivity.
Qed.

Lemma cell_at_make_grid {A} (h w : nat) (f : nat -> nat -> A) (r c : nat) :
  (r < h)%nat -> (c < w)%nat -> cell_at (make_grid h w f) r c = Some (f r c).
Proof.
  intros Hr Hc. unfold cell_at, make_grid.
  rewrite list_lookup_fmap, lookup_seq_lt by assumption. simpl.
  rewrite list_lookup_fmap, lookup_seq_lt by assumption. reflexivity.
Qed.

Lemma cell_at_grid_add (g t : grid Z) (r c : nat) (a b : Z) :
  cell_at g r c = Some a -> cell_at t r c = Some b ->
  cell_at (grid_add g t) r c = Some (uint16_add a b).
Proof.
  unfold cell_at, grid_add. intros Hg Ht.
  destruct (g !! r) as [row|] eqn:Hrow; [|discriminate].
  destruct (t !! r) as [row'|] eqn:Hrow'; [|discriminate].
  rewrite lookup_zip_with, Hrow. simpl. rewrite Hrow'. simpl.
  rewrite lookup_zip_with, Hg. simpl. rewrite Ht. reflexivity.
Qed.

Lemma cell_at_probability_grid (denom : Z) (g : grid Z) (r c : nat) :
  cell_at (probability_grid denom g) r c = probability_cell denom <$> cell_at g r c.
Proof.
  unfold cell_at, probability_grid.
  rewrite list_lookup_fmap. destruct (g !! r) as [row|]; simpl; [|reflexivity].
  rewrite list_lookup_fmap. reflexivity.
Qed.

Lemma clip01_bounds (x : Q) : (0 <= clip01 x <= 1)%Q.
Proof.
  unfold clip01. split.
  - apply Q.min_glb; [apply Q.le_max_r | discriminate].
  - apply Q.le_min_r.
Qed.

(** Clipping to [0, 1]: below 0 it gives 0, between 0 and 1 the
    value itself, above 1 it gives 1. *)
Lemma clip01_cases (q : Q) :
  ((q <= 0)%Q -> (clip01 q == 0)%Q)
  /\ ((0 <= q <= 1)%Q -> (clip01 q == q)%Q)
  /\ ((1 <= q)%Q -> (clip01 q == 1)%Q).
Proof.
  unfold clip01. split; [|split].
  - intros Hq. rewrite (Q.max_r q 0) by exact Hq. apply Q.min_l. discriminate.
  - intros [H0 H1]. rewrite (Q.max_l q 0) by exact H0. apply Q.min_l. exact H1.
  - intros Hq. rewrite (Q.max_l q 0).
    + apply Q.min_r. exact Hq.
    + eapply Qle_trans; [|exact Hq]. discriminate.
Qed.

Lemma probability_cell_bounds (denom count : Z) :
  (0 <= probability_cell denom count <= 1)%Q.
Proof. apply clip01_bounds. Qed.

(** ** The accumulation loop *)

Section EnsembleProperties.
Context {G : Type} `{Shapely G}.

Lemma alter_as_insert {V} (f : V -> V) (m : gmap string V) (k : string) (v : V) :
  m !! k = Some v -> <[k := f v]> m = alter f k m.
Proof.
  intros Hk. apply map_eq. intros j.
  destruct (decide (k = j)) as [->|Hne].
  - rewrite lookup_insert_eq, lookup_alter_eq, Hk. reflexivity.
  - rewrite lookup_insert_ne, lookup_alter_ne by assumption. reflexivity.
Qed.

Lemma alter_absent {V} (f : V -> V) (m : gmap string V) (k : string) :
  m !! k = None -> alter f k m = m.
Proof.
  intros Hk. apply map_eq. intros j.
  destruct (decide (k = j)) as [->|Hne].
  - rewrite lookup_alter_eq, Hk. reflexivity.
  - rewrite lookup_alter_ne by assumption. reflexivity.
Qed.

(** One Member: the run goes on exactly when the label is a key of
    the denominators; then the denominator of the label grows by one
    and the count grid of the label receives the Member's grid. *)
Lemma accumulate_member_Ok (self : EnsembleProcessor) (d : disk G)
    (acc : accumulators) (mem : member) (n : Z) :
  denom_by_bin acc !! label_of self mem = Some n ->
  exists acc',
    accumulate_member self d acc mem = Ok acc' /\
    denom_by_bin acc' = <[label_of self mem := n + 1]> (denom_by_bin acc) /\
    counts_by_bin acc' =
      add_to_bin (counts_by_bin acc) (label_of self mem) (member_grid self d mem).
Proof.
  intros Hn. unfold accumulate_member, member_grid. rewrite Hn.
  destruct (read_file d (path mem)) as [|geometry]; simpl.
  - eexists; repeat split; reflexivity.
  - destruct geometry as [|o geometry]; simpl.
    + eexists; repeat split; reflexivity.
    + destruct (burnable_shapes (o :: geometry)) as [|s shapes] eqn:Hshapes.
      * simpl in Hshapes. rewrite Hshapes. eexists; repeat split; reflexivity.
      * simpl in Hshapes. rewrite Hshapes.
        destruct (counts_by_bin acc !! label_of self mem) as [g|] eqn:Hg.
        -- eexists; repeat split; simpl.
           apply (alter_as_insert (fun g => grid_add g _)). exact Hg.
        -- eexists; repeat split; simpl.
           symmetry. apply alter_absent. exact Hg.
Qed.

Lemma accumulate_member_Raise (self : EnsembleProcessor) (d : disk G)
    (acc : accumulators) (mem : member) :
  denom_by_bin acc !! label_of self mem = None ->
  accumulate_member self d acc mem = Raise (KeyError (label_of self mem)).
Proof. intros Hn. unfold accumulate_member. rewrite Hn. reflexivity. Qed.

Lemma same_grids_refl (a : accumulators) : same_grids a a.
Proof. split; reflexivity. Qed.

Lemma same_result_refl (r : result accumulators) : same_result r r.
Proof. destruct r; simpl; auto using same_grids_refl. Qed.

Lemma same_result_trans (r1 r2 r3 : result accumulators) :
  same_result r1 r2 -> same_result r2 r3 -> same_result r1 r3.
Proof.
  destruct r1, r2, r3; simpl; try tauto.
  unfold same_grids. intros [? ?] [? ?]. split; congruence.
Qed.

Lemma accumulate_member_same (self : EnsembleProcessor) (d : disk G)
    (a b : accumulators) (mem : member) :
  same_grids a b ->
  same_result (accumulate_member self d a mem) (accumulate_member self d b mem).
Proof.
  intros [Hc Hd].
  destruct (denom_by_bin a !! label_of self mem) as [n|] eqn:Hn.
  - destruct (accumulate_member_Ok self d a mem n Hn) as (a' & -> & Hda & Hca).
    rewrite Hd in Hn.
    destruct (accumulate_member_Ok self d b mem n Hn) as (b' & -> & Hdb & Hcb).
    simpl. split; congruence.
  - rewrite (accumulate_member_Raise self d a mem Hn).
    rewrite Hd in Hn. rewrite (accumulate_member_Raise self d b mem Hn).
    exact I.
Qed.

Lemma accumulate_members_same (self : EnsembleProcessor) (d : disk G)
    (ms : list member) (a b : accumulators) :
  same_grids a b ->
  same_result (accumulate_members self d a ms) (accumulate_members self d b ms).
Proof.
  revert a b. induction ms as [|mem ms IH]; intros a b Hab; simpl; [exact Hab|].
  pose proof (accumulate_member_same self d a b mem Hab) as Hstep.
  destruct (accumulate_member self d a mem), (accumulate_member self d b mem);
    simpl in *; try tauto.
  apply IH. exact Hstep.
Qed.

Lemma add_to_bin_swap (counts : gmap string (grid Z)) (l1 l2 : string)
    (t1 t2 : option (grid Z)) :
  add_to_bin (add_to_bin counts l1 t1) l2 t2 =
  add_to_bin (add_to_bin counts l2 t2) l1 t1.
Proof.
  destruct t1 as [t1|], t2 as [t2|]; simpl; try reflexivity.
  destruct (decide (l1 = l2)) as [->|Hne].
  - apply map_eq. intros j. destruct (decide (l2 = j)) as [->|Hj].
    + rewrite !lookup_alter_eq. destruct (counts !! j); simpl; [|reflexivity].
      rewrite grid_add_swap. reflexivity.
    + rewrite !lookup_alter_ne by assumption. reflexivity.
  - apply alter_alter_ne. congruence.
Qed.

(** Two consecutive Members can be processed in either order. *)
Lemma accumulate_member_swap (self : EnsembleProcessor) (d : disk G)
    (acc : accumulators) (x y : member) :
  same_result
    (bind (accumulate_member self d acc x) (fun a => accumulate_member self d a y))
    (bind (accumulate_member self d acc y) (fun a => accumulate_member self d a x)).
Proof.
  destruct (denom_by_bin acc !! label_of self x) as [n|] eqn:Hx;
    destruct (denom_by_bin acc !! label_of self y) as [k|] eqn:Hy.
  - destruct (accumulate_member_Ok self d acc x n Hx) as (ax & -> & Hdx & Hcx).
    destruct (accumulate_member_Ok self d acc y k Hy) as (ay & -> & Hdy & Hcy).
    simpl.
    destruct (decide (label_of self x = label_of self y)) as [Heq|Hne].
    + assert (k = n) by congruence. subst k.
      assert (Hy' : denom_by_bin ax !! label_of self y = Some (n + 1)).
      { rewrite Hdx, Heq. apply lookup_insert_eq. }
      assert (Hx' : denom_by_bin ay !! label_of self x = Some (n + 1)).
      { rewrite Hdy, Heq. apply lookup_insert_eq. }
      destruct (accumulate_member_Ok self d ax y _ Hy') as (axy & -> & Hd1 & Hc1).
      destruct (accumulate_member_Ok self d ay x _ Hx') as (ayx & -> & Hd2 & Hc2).
      simpl. split.
      * rewrite Hc1, Hc2, Hcx, Hcy. apply add_to_bin_swap.
      * rewrite Hd1, Hd2, Hdx, Hdy, Heq. rewrite !insert_insert_eq. reflexivity.
    + assert (Hy' : denom_by_bin ax !! label_of self y = Some k).
      { rewrite Hdx, lookup_insert_ne by assumption. exact Hy. }
      assert (Hx' : denom_by_bin ay !! label_of self x = Some n).
      { rewrite Hdy, lookup_insert_ne by congruence. exact Hx. }
      destruct (accumulate_member_Ok self d ax y _ Hy') as (axy & -> & Hd1 & Hc1).
      destruct (accumulate_member_Ok self d ay x _ Hx') as (ayx & -> & Hd2 & Hc2).
      simpl. split.
      * rewrite Hc1, Hc2, Hcx, Hcy. apply add_to_bin_swap.
      * rewrite Hd1, Hd2, Hdx, Hdy. apply insert_insert_ne. congruence.
  - destruct (accumulate_member_Ok self d acc x n Hx) as (ax & -> & Hdx & Hcx).
    rewrite (accumulate_member_Raise self d acc y Hy). simpl.
    rewrite accumulate_member_Raise; [exact I|].
    rewrite Hdx, lookup_insert_ne by congruence. exact Hy.
  - destruct (accumulate_member_Ok self d acc y k Hy) as (ay & -> & Hdy & Hcy).
    rewrite (accumulate_member_Raise self d acc x Hx). simpl.
    rewrite accumulate_member_Raise; [exact I|].
    rewrite Hdy, lookup_insert_ne by congruence. exact Hx.
  - rewrite (accumulate_member_Raise self d acc x Hx).
    rewrite (accumulate_member_Raise self d acc y Hy). exact I.
Qed.

(** The accumulation is the same for every order of the Members. *)
Lemma accumulate_members_perm (self : EnsembleProcessor) (d : disk G)
    (ms ms' : list member) :
  Permutation ms ms' ->
  forall acc,
    same_result (accumulate_members self d acc ms) (accumulate_members self d acc ms').
Proof.
  induction 1 as [|x l l' Hperm IH|x y l|l1 l2 l3 H12 IH12 H23 IH23]; intros acc.
  - apply same_result_refl.
  - simpl. destruct (accumulate_member self d acc x); simpl; [apply IH | exact I].
  - simpl.
    pose proof (accumulate_member_swap self d acc y x) as Hswap.
    destruct (accumulate_member self d acc y) as [ay|]; simpl in *;
      destruct (accumulate_member self d acc x) as [ax|]; simpl in *.
    + destruct (accumulate_member self d ay x) as [ayx|];
        destruct (accumulate_member self d ax y) as [axy|]; simpl in *; try tauto.
      apply accumulate_members_same. exact Hswap.
    + destruct (accumulate_member self d ay x); simpl in *; tauto.
    + destruct (accumulate_member self d ax y); simpl in *; tauto.
    + exact I.
  - eapply same_result_trans; [apply IH12 | apply IH23].
Qed.

End EnsembleProperties.

(** ** The whole run *)

Section RunProperties.
Context {G : Type} `{Shapely G}.

Lemma init_labels_are_keys (self : EnsembleProcessor) :
  labels_are_keys self (init_accumulators self).
Proof.
  intros l Hl. unfold init_accumulators; simpl.
  rewrite !dict_of_labels_lookup, !decide_True by assumption.
  split; eexists; [split; [reflexivity | lia] | reflexivity].
Qed.

Lemma add_to_bin_lookup (counts : gmap string (grid Z)) (lbl l : string)
    (tmp : option (grid Z)) (g : grid Z) :
  counts !! l = Some g -> exists g', add_to_bin counts lbl tmp !! l = Some g'.
Proof.
  intros Hg. destruct tmp as [t|]; simpl; [|eauto].
  destruct (decide (lbl = l)) as [->|Hne].
  - rewrite lookup_alter_eq, Hg. simpl. eauto.
  - rewrite lookup_alter_ne by assumption. eauto.
Qed.

Lemma accumulate_member_keys (self : EnsembleProcessor) (d : disk G)
    (acc : accumulators) (mem : member) :
  labels_are_keys self acc -> label_of self mem ∈ bin_labels self ->
  exists acc', accumulate_member self d acc mem = Ok acc' /\ labels_are_keys self acc'.
Proof.
  intros Hwf Hl. destruct (Hwf _ Hl) as [(n & Hn & Hpos) _].
  destruct (accumulate_member_Ok self d acc mem n Hn) as (acc' & Hrun & Hd & Hc).
  exists acc'. split; [exact Hrun|].
  intros l Hin. destruct (Hwf _ Hin) as [(k & Hk & Hkpos) (g & Hg)]. split.
  - rewrite Hd. destruct (decide (label_of self mem = l)) as [<-|Hne].
    + rewrite lookup_insert_eq. exists (n + 1). split; [reflexivity | lia].
    + rewrite lookup_insert_ne by assumption. eauto.
  - rewrite Hc. eapply add_to_bin_lookup. exact Hg.
Qed.

(** With every Member classified into a configured bin, the
    accumulation loop runs to its end. *)
Lemma accumulate_members_keys (self : EnsembleProcessor) (d : disk G)
    (ms : list member) (acc : accumulators) :
  labels_are_keys self acc ->
  (forall m, m ∈ ms -> label_of self m ∈ bin_labels self) ->
  exists acc', accumulate_members self d acc ms = Ok acc' /\ labels_are_keys self acc'.
Proof.
  revert acc. induction ms as [|mem ms IH]; intros acc Hwf Hms; simpl.
  - eauto.
  - destruct (accumulate_member_keys self d acc mem Hwf) as (acc1 & -> & Hwf1).
    { apply Hms. by left. }
    simpl. apply IH; [exact Hwf1|]. intros m Hm. apply Hms. by right.
Qed.

(** The final loop: what it writes and what it warns about. *)
Lemma emit_bins_spec (self : EnsembleProcessor) (acc : accumulators)
    (labels : list string) (st : gmap string (grid Q) * list warning) :
  labels_are_keys self acc ->
  (forall l, l ∈ labels -> l ∈ bin_labels self) ->
  exists st',
    emit_bins acc labels st = Ok st' /\
    (forall l, st'.1 !! l =
       if decide (l ∈ labels) then
         match emitted acc l with Some g => Some g | None => st.1 !! l end
       else st.1 !! l) /\
    (forall w, w ∈ st.2 -> w ∈ st'.2) /\
    (forall l, l ∈ labels -> denom_by_bin acc !! l = Some 0 -> NoMembersForBin l ∈ st'.2).
Proof.
  intros Hwf. revert st. induction labels as [|x labels IH]; intros st Hsub;
    cbn [emit_bins].
  - exists st. split; [reflexivity|]. split; [|split].
    + intros l. rewrite decide_False; [reflexivity | apply not_elem_of_nil].
    + auto.
    + intros l Hl. inversion Hl.
  - assert (Hx : x ∈ bin_labels self) by (apply Hsub; by left).
    destruct (Hwf _ Hx) as [(n & Hn & Hpos) (g & Hg)].
    assert (Hsub' : forall l, l ∈ labels -> l ∈ bin_labels self).
    { intros l Hl. apply Hsub. by right. }
    unfold emit_bin at 1. rewrite Hn.
    assert (Hem : emitted acc x = if n =? 0 then None else Some (probability_grid n g)).
    { unfold emitted. rewrite Hn, Hg. reflexivity. }
    destruct (n =? 0) eqn:Hz; simpl.
    + apply Z.eqb_eq in Hz. subst n.
      destruct (IH (st.1, st.2 ++ [NoMembersForBin x]) Hsub')
        as (st' & Hrun & Hlook & Hwarn & Hzero).
      exists st'. split; [exact Hrun|]. split; [|split].
      * intros l. rewrite Hlook. cbn [fst snd].
        destruct (decide (l ∈ labels)) as [Hin|Hnin].
        -- rewrite decide_True; [reflexivity | by right].
        -- destruct (decide (l = x)) as [->|Hne].
           ++ rewrite decide_True by (by left). rewrite Hem. reflexivity.
           ++ rewrite decide_False; [reflexivity|].
              intros [?|?]%elem_of_cons; contradiction.
      * intros w Hw. apply Hwarn. simpl. apply elem_of_app. by left.
      * intros l [->|Hl]%elem_of_cons Hl0.
        -- apply Hwarn. simpl. apply elem_of_app. right. by left.
        -- apply Hzero; assumption.
    + rewrite Hg. simpl.
      destruct (IH (<[x := probability_grid n g]> st.1, st.2) Hsub')
        as (st' & Hrun & Hlook & Hwarn & Hzero).
      exists st'. split; [exact Hrun|]. split; [|split].
      * intros l. rewrite Hlook. cbn [fst snd].
        destruct (decide (l ∈ labels)) as [Hin|Hnin].
        -- rewrite decide_True by (by right).
           destruct (emitted acc l) eqn:Hel; [reflexivity|].
           destruct (decide (x = l)) as [->|Hne].
           ++ congruence.
           ++ rewrite lookup_insert_ne by assumption. reflexivity.
        -- destruct (decide (l = x)) as [->|Hne].
           ++ rewrite decide_True by (by left). rewrite Hem, lookup_insert_eq. reflexivity.
           ++ rewrite decide_False.
              ** rewrite lookup_insert_ne by congruence. reflexivity.
              ** intros [?|?]%elem_of_cons; contradiction.
      * exact Hwarn.
      * intros l [->|Hl]%elem_of_cons Hl0.
        -- rewrite Hn in Hl0. apply Z.eqb_neq in Hz. congruence.
        -- apply Hzero; assumption.
Qed.

(** The run after a successful accumulation. *)
Lemma create_after_accumulation (self : EnsembleProcessor) (d : disk G)
    (acc : accumulators) :
  accumulate_members self d (init_accumulators self) (current_members self d) = Ok acc ->
  labels_are_keys self acc ->
  exists out,
    create_ensemble_probabilities self d = Ok out /\
    out_counts out = counts_by_bin acc /\
    out_denoms out = denom_by_bin acc /\
    (forall l, prob_grids out !! l =
               if decide (l ∈ bin_labels self) then emitted acc l else None) /\
    (forall l, l ∈ bin_labels self -> denom_by_bin acc !! l = Some 0 ->
               NoMembersForBin l ∈ out_warnings out).
Proof.
  intros Hacc Hwf. unfold create_ensemble_probabilities. rewrite Hacc. simpl.
  destruct (emit_bins_spec self acc (bin_labels self)
              (∅, collection_warnings self d ++ warnings acc) Hwf)
    as (st' & -> & Hlook & _ & Hzero); [auto|].
  simpl. eexists. split; [reflexivity|]. simpl.
  repeat split; auto.
  intros l. rewrite Hlook. simpl. rewrite lookup_empty.
  destruct (decide (l ∈ bin_labels self)); [|reflexivity].
  destruct (emitted acc l); reflexivity.
Qed.

Lemma emit_bins_same (a b : accumulators) (labels : list string)
    (st st' : gmap string (grid Q) * list warning) :
  same_grids a b -> st.1 = st'.1 ->
  match emit_bins a labels st, emit_bins b labels st' with
  | Ok s, Ok s' => s.1 = s'.1
  | Raise _, Raise _ => True
  | _, _ => False
  end.
Proof.
  intros [Hc Hd]. revert st st'.
  induction labels as [|x labels IH]; intros st st' Hst; simpl.
  - exact Hst.
  - unfold emit_bin. rewrite <- Hc, <- Hd.
    destruct (denom_by_bin a !! x) as [n|]; simpl; [|exact I].
    destruct (n =? 0); simpl.
    + apply IH. exact Hst.
    + destruct (counts_by_bin a !! x) as [g|]; simpl; [|exact I].
      apply IH. simpl. rewrite Hst. reflexivity.
Qed.

Lemma accumulate_members_with_members (self : EnsembleProcessor) (d : disk G)
    (ms l : list member) (acc : accumulators) :
  accumulate_members (with_members self ms) d acc l = accumulate_members self d acc l.
Proof.
  revert acc. induction l as [|m l IH]; intros acc; simpl; [reflexivity|].
  change (accumulate_member (with_members self ms) d acc m)
    with (accumulate_member self d acc m).
  destruct (accumulate_member self d acc m); simpl; [apply IH | reflexivity].
Qed.

Lemma current_members_perm (self : EnsembleProcessor) (d : disk G)
    (ms ms' : list member) :
  Permutation ms ms' ->
  Permutation (current_members (with_members self ms) d)
              (current_members (with_members self ms') d).
Proof.
  intros Hp. unfold current_members, ensure_members; simpl.
  destruct ms as [|x ms], ms' as [|y ms'].
  - reflexivity.
  - apply Permutation_nil in Hp. discriminate.
  - symmetry in Hp. apply Permutation_nil in Hp. discriminate.
  - exact Hp.
Qed.

(** The result of the run does not depend on the order of the Members. *)
Lemma create_ensemble_probabilities_perm (self : EnsembleProcessor) (d : disk G)
    (ms ms' : list member) :
  Permutation ms ms' ->
  same_outcome (create_ensemble_probabilities (with_members self ms) d)
               (create_ensemble_probabilities (with_members self ms') d).
Proof.
  intros Hp. unfold create_ensemble_probabilities.
  rewrite !accumulate_members_with_members.
  pose proof (accumulate_members_perm self d _ _ (current_members_perm self d ms ms' Hp)
                (init_accumulators self)) as Hacc.
  change (init_accumulators (with_members self ms)) with (init_accumulators self).
  change (init_accumulators (with_members self ms')) with (init_accumulators self).
  destruct (accumulate_members self d (init_accumulators self)
              (current_members (with_members self ms) d)) as [a|];
    destruct (accumulate_members self d (init_accumulators self)
                (current_members (with_members self ms') d)) as [b|];
    simpl in *; try tauto.
  pose proof (emit_bins_same a b (bin_labels self)
                (∅, collection_warnings (with_members self ms) d ++ warnings a)
                (∅, collection_warnings (with_members self ms') d ++ warnings b)
                Hacc eq_refl) as Hemit.
  destruct (emit_bins a (bin_labels self)
              (∅, collection_warnings (with_members self ms) d ++ warnings a)) as [s|];
    destruct (emit_bins b (bin_labels self)
                (∅, collection_warnings (with_members self ms') d ++ warnings b)) as [s'|];
    simpl in *; try tauto.
  destruct Hacc as [Hc Hd]. auto.
Qed.

End RunProperties.

(** ** Properties of the ensemble engine *)

Section EnsembleClaims.
Context {G : Type} `{Shapely G}.

Lemma denom_keys_are_labels (self : EnsembleProcessor) (d : disk G)
    (ms : list member) (acc acc' : accumulators) :
  (forall l, is_Some (denom_by_bin acc !! l) -> l ∈ bin_labels self) ->
  accumulate_members self d acc ms = Ok acc' ->
  (forall m, m ∈ ms -> label_of self m ∈ bin_labels self).
Proof.
  revert acc. induction ms as [|mem ms IH]; intros acc Hkeys Hrun m Hm.
  - inversion Hm.
  - simpl in Hrun.
    destruct (denom_by_bin acc !! label_of self mem) as [n|] eqn:Hn.
    + destruct (accumulate_member_Ok self d acc mem n Hn) as (a1 & Hstep & Hd & _).
      rewrite Hstep in Hrun. simpl in Hrun.
      apply elem_of_cons in Hm. destruct Hm as [->|Hm].
      * apply Hkeys. rewrite Hn. eauto.
      * eapply (IH a1); [|exact Hrun|exact Hm].
        intros l. rewrite Hd. destruct (decide (label_of self mem = l)) as [<-|Hne].
        -- intros _. apply Hkeys. rewrite Hn. eauto.
        -- rewrite lookup_insert_ne by assumption. apply Hkeys.
    + rewrite (accumulate_member_Raise self d acc mem Hn) in Hrun. discriminate.
Qed.

(** A Member whose label is not a configured label stops the run:
    the sentinel is looked up in the denominators before the [try]. *)
Lemma unmatched_member_aborts (self : EnsembleProcessor) (d : disk G) (m : member) :
  m ∈ current_members self d -> label_of self m ∉ bin_labels self ->
  exists e, create_ensemble_probabilities self d = Raise e.
Proof.
  intros Hm Hl. unfold create_ensemble_probabilities.
  destruct (accumulate_members self d (init_accumulators self) (current_members self d))
    as [acc|e] eqn:Hrun; simpl; [|eauto].
  exfalso. apply Hl.
  eapply (denom_keys_are_labels self d _ (init_accumulators self) acc); [|exact Hrun|exact Hm].
  intros l [n Hn]. unfold init_accumulators in Hn; simpl in Hn.
  rewrite dict_of_labels_lookup in Hn.
  destruct (decide (l ∈ bin_labels self)); [assumption | discriminate].
Qed.

(** C3 (amended). During the accumulation a Member whose file cannot
    be read is skipped with a warning and adds nothing to any count
    grid, while the denominator of its bin, incremented before the
    read is attempted, has grown by one.  For every Member the count
    grids either receive the whole rasterized grid of the Member in
    its bin or stay as they were.  A file that cannot be read when
    the Members are collected is warned about and never becomes a
    Member. *)
Theorem unreadable_member_skipped (self : EnsembleProcessor) (d : disk G) :
  (forall acc mem n,
      denom_by_bin acc !! label_of self mem = Some n ->
      read_file d (path mem) = Unreadable ->
      accumulate_member self d acc mem =
        Ok {| counts_by_bin := counts_by_bin acc;
              denom_by_bin := <[label_of self mem := n + 1]> (denom_by_bin acc);
              warnings := warnings acc ++ [FailedToProcessMember (path mem)] |})
  /\ (forall acc mem acc',
        accumulate_member self d acc mem = Ok acc' ->
        counts_by_bin acc' = counts_by_bin acc \/
        exists g tmp,
          counts_by_bin acc !! label_of self mem = Some g /\
          member_grid self d mem = Some tmp /\
          counts_by_bin acc' = <[label_of self mem := grid_add g tmp]> (counts_by_bin acc))
  /\ (forall m, m ∈ (collect_members d).1 ->
        exists f geometry,
          f ∈ d /\ path m = f_path f /\ f_content f = Frame geometry)
  /\ (forall f fxx_thr,
        f ∈ d -> p_method (f_path f) <> "ensemble_probability"%string ->
        f_match f = Some fxx_thr -> f_content f = Unreadable ->
        FailedToRead (f_path f) ∈ (collect_members d).2).
Proof.
  split; [|split; [|split]].
  - intros acc mem n Hn Hread. unfold accumulate_member. rewrite Hn, Hread. reflexivity.
  - intros acc mem acc' Hrun.
    destruct (denom_by_bin acc !! label_of self mem) as [n|] eqn:Hn.
    + destruct (accumulate_member_Ok self d acc mem n Hn) as (a & Hrun' & _ & Hc).
      rewrite Hrun in Hrun'. injection Hrun' as <-.
      destruct (member_grid self d mem) as [tmp|] eqn:Hgrid; simpl in Hc; [|by left].
      destruct (counts_by_bin acc !! label_of self mem) as [g|] eqn:Hg.
      * right. exists g, tmp. repeat split. rewrite Hc. symmetry.
        apply (alter_as_insert (fun g => grid_add g tmp)). exact Hg.
      * left. rewrite Hc. apply alter_absent. exact Hg.
    + rewrite (accumulate_member_Raise self d acc mem Hn) in Hrun. discriminate.
  - induction d as [|f rest IH]; simpl; intros m Hm.
    + inversion Hm.
    + destruct (collect_file f) as [ms ws] eqn:Hf.
      destruct (collect_members rest) as [ms' ws'] eqn:Hrest. simpl in Hm.
      apply elem_of_app in Hm. destruct Hm as [Hm|Hm].
      * unfold collect_file in Hf.
        destruct (String.eqb _ _); [injection Hf as <- <-; inversion Hm|].
        destruct (f_match f) as [[fxx_ thr_]|]; [|injection Hf as <- <-; inversion Hm].
        destruct (f_content f) as [|geometry] eqn:Hcontent;
          [injection Hf as <- <-; inversion Hm|].
        injection Hf as <- <-. apply list_elem_of_singleton in Hm. subst m.
        exists f, geometry. split; [by left | split; [reflexivity | exact Hcontent]].
      * destruct (IH m Hm) as (f' & geometry & Hin & Hp & Hc).
        exists f', geometry. split; [by right | auto].
  - induction d as [|f rest IH]; simpl; intros f0 fxx_thr Hin Hmeth Hmatch Hcontent.
    + inversion Hin.
    + destruct (collect_file f) as [ms ws] eqn:Hf.
      destruct (collect_members rest) as [ms' ws'] eqn:Hrest. simpl.
      apply elem_of_app. apply elem_of_cons in Hin. destruct Hin as [->|Hin].
      * left. unfold collect_file in Hf.
        apply String.eqb_neq in Hmeth. rewrite Hmeth, Hmatch, Hcontent in Hf.
        destruct fxx_thr. injection Hf as <- <-. by left.
      * right. eapply IH; eauto.
Qed.

End EnsembleClaims.

Section EnsembleClaims2.
Context {G : Type} `{Shapely G}.

Lemma cell_at_rasterize (shapes : list G) (h w r c : nat) :
  (r < h)%nat -> (c < w)%nat ->
  cell_at (rasterize shapes h w) r c =
    Some (if existsb (fun g => geom_burns g r c) shapes then 1 else 0).
Proof. intros Hr Hc. unfold rasterize. apply cell_at_make_grid; assumption. Qed.

Lemma cell_at_zeros (h w r c : nat) :
  (r < h)%nat -> (c < w)%nat -> cell_at (zeros h w) r c = Some 0.
Proof. intros Hr Hc. unfold zeros. apply cell_at_make_grid; assumption. Qed.

(** At the end of the loop each denominator has grown by the number of
    Members classified into its bin, whatever their files hold. *)
Lemma accumulate_members_denoms (self : EnsembleProcessor) (d : disk G)
    (ms : list member) (acc acc' : accumulators) (l : string) (n : Z) :
  accumulate_members self d acc ms = Ok acc' ->
  denom_by_bin acc !! l = Some n ->
  denom_by_bin acc' !! l = Some (n + Z.of_nat (length (members_in_bin self ms l))).
Proof.
  revert acc n. induction ms as [|mem ms IH]; intros acc n Hrun Hn; simpl in *.
  - injection Hrun as <-. rewrite Hn. f_equal. lia.
  - destruct (denom_by_bin acc !! label_of self mem) as [k|] eqn:Hk.
    + destruct (accumulate_member_Ok self d acc mem k Hk) as (a1 & Hstep & Hd & _).
      rewrite Hstep in Hrun. simpl in Hrun.
      destruct (decide (label_of self mem = l)) as [Heq|Hne].
      * rewrite bool_decide_eq_true_2 by assumption. simpl.
        rewrite (IH a1 (n + 1) Hrun).
        -- f_equal. lia.
        -- rewrite Hd, Heq. rewrite Heq in Hk. rewrite Hk in Hn. injection Hn as ->.
           apply lookup_insert_eq.
      * rewrite bool_decide_eq_false_2 by assumption.
        apply (IH a1 n Hrun). rewrite Hd, lookup_insert_ne by assumption. exact Hn.
    + rewrite (accumulate_member_Raise self d acc mem Hk) in Hrun. discriminate.
Qed.

(** C4. A Member whose label is a key of the denominators adds exactly
    one to the denominator of its bin, whatever its file holds, and
    leaves the count grids alone when its AOI collection is empty;
    at the end of a run the denominator of a bin is the number of
    Members classified into it.  With three Members in one bin, one of them with a polygon over
    cell (0, 0) only and two with no AOI, the probability grid of the
    bin is 1/3 at (0, 0) and 0 in every other cell. *)
Theorem denominator_counts_empty_members (self : EnsembleProcessor) (d : disk G) :
  (forall acc mem n,
      denom_by_bin acc !! label_of self mem = Some n ->
      exists acc',
        accumulate_member self d acc mem = Ok acc' /\
        denom_by_bin acc' = <[label_of self mem := n + 1]> (denom_by_bin acc) /\
        (read_file d (path mem) = Frame [] ->
         counts_by_bin acc' = counts_by_bin acc))
  /\ (forall out lbl,
        create_ensemble_probabilities self d = Ok out ->
        lbl ∈ bin_labels self ->
        out_denoms out !! lbl
        = Some (Z.of_nat (length (members_in_bin self (current_members self d) lbl))))
  /\ (forall m1 m2 m3 lbl geometry,
        Permutation (current_members self d) [m1; m2; m3] ->
        lbl ∈ bin_labels self ->
        label_of self m1 = lbl -> label_of self m2 = lbl -> label_of self m3 = lbl ->
        read_file d (path m1) = Frame geometry ->
        (forall r c, existsb (fun g => geom_burns g r c) (burnable_shapes geometry) = true
                     <-> r = 0%nat /\ c = 0%nat) ->
        read_file d (path m2) = Frame [] ->
        read_file d (path m3) = Frame [] ->
        exists out g,
          create_ensemble_probabilities self d = Ok out /\
          out_denoms out !! lbl = Some 3 /\
          prob_grids out !! lbl = Some g /\
          forall r c, (r < height self)%nat -> (c < width self)%nat ->
            exists p, cell_at g r c = Some p /\
              (p == if decide (r = 0%nat /\ c = 0%nat) then 1 # 3 else 0)%Q).
Proof.
  split; [|split].
  - intros acc mem n Hn.
    destruct (accumulate_member_Ok self d acc mem n Hn) as (acc' & Hrun & Hd & Hc).
    exists acc'. repeat split; try assumption.
    intros Hread. rewrite Hc. unfold member_grid. rewrite Hread. reflexivity.
  - intros out lbl Hout Hlbl. unfold create_ensemble_probabilities in Hout.
    destruct (accumulate_members self d (init_accumulators self) (current_members self d))
      as [acc|] eqn:Hrun; simpl in Hout; [|discriminate].
    destruct (emit_bins acc (bin_labels self) _); simpl in Hout;
      [|discriminate].
    injection Hout as <-. simpl.
    rewrite (accumulate_members_denoms self d _ _ acc lbl 0 Hrun); [reflexivity|].
    simpl. rewrite dict_of_labels_lookup, decide_True by assumption. reflexivity.
  - intros m1 m2 m3 lbl geometry Hperm Hlbl Hl1 Hl2 Hl3 Hr1 Hcover Hr2 Hr3.
    set (tmp := rasterize (burnable_shapes geometry) (height self) (width self)).
    assert (Hg1 : member_grid self d m1 = Some tmp).
    { unfold member_grid. rewrite Hr1.
      destruct (burnable_shapes geometry) as [|s shapes] eqn:Hs; [|reflexivity].
      destruct (Hcover 0%nat 0%nat) as [_ Hc]. simpl in Hc.
      discriminate Hc. auto. }
    assert (Hg2 : member_grid self d m2 = None).
    { unfold member_grid. rewrite Hr2. reflexivity. }
    assert (Hg3 : member_grid self d m3 = None).
    { unfold member_grid. rewrite Hr3. reflexivity. }
    (* the run on the Members as they come *)
    destruct (accumulate_members_keys self d (current_members self d)
                (init_accumulators self) (init_labels_are_keys self))
      as (acc & Hrun & Hwf).
    { intros m Hm. rewrite Hperm in Hm.
      repeat (apply elem_of_cons in Hm; destruct Hm as [->|Hm]); try congruence.
      inversion Hm. }
    (* the run on m1, m2, m3 in this order *)
    pose proof (accumulate_members_perm self d _ _ Hperm (init_accumulators self)) as Hsame.
    rewrite Hrun in Hsame. simpl in Hsame.
    assert (H0 : denom_by_bin (init_accumulators self) !! label_of self m1 = Some 0).
    { simpl. rewrite dict_of_labels_lookup, decide_True by congruence. reflexivity. }
    destruct (accumulate_member_Ok self d _ m1 0 H0) as (a1 & Hs1 & Hd1 & Hc1).
    rewrite Hs1 in Hsame. simpl in Hsame.
    assert (H1 : denom_by_bin a1 !! label_of self m2 = Some (0 + 1)).
    { rewrite Hd1, Hl1, Hl2. apply lookup_insert_eq. }
    destruct (accumulate_member_Ok self d _ m2 _ H1) as (a2 & Hs2 & Hd2 & Hc2).
    rewrite Hs2 in Hsame. simpl in Hsame.
    assert (H2 : denom_by_bin a2 !! label_of self m3 = Some (0 + 1 + 1)).
    { rewrite Hd2, Hl2, Hl3. apply lookup_insert_eq. }
    destruct (accumulate_member_Ok self d _ m3 _ H2) as (a3 & Hs3 & Hd3 & Hc3).
    rewrite Hs3 in Hsame. simpl in Hsame. destruct Hsame as [Hcounts Hdenoms].
    rewrite Hg3 in Hc3. rewrite Hg2 in Hc2. rewrite Hg1 in Hc1. simpl in Hc1, Hc2, Hc3.
    assert (Hden : denom_by_bin acc !! lbl = Some 3).
    { rewrite Hdenoms, Hd3, Hl3. apply lookup_insert_eq. }
    assert (Hcnt : counts_by_bin acc !! lbl =
                   Some (grid_add (zeros (height self) (width self)) tmp)).
    { rewrite Hcounts, Hc3, Hc2, Hc1, Hl1. rewrite lookup_alter_eq.
      unfold init_accumulators; simpl.
      rewrite dict_of_labels_lookup, decide_True by assumption. reflexivity. }
    destruct (create_after_accumulation self d acc Hrun Hwf)
      as (out & Hout & _ & Hod & Hprob & _).
    exists out, (probability_grid 3 (grid_add (zeros (height self) (width self)) tmp)).
    split; [exact Hout|]. split; [rewrite Hod; exact Hden|]. split.
    + rewrite Hprob, decide_True by assumption.
      unfold emitted. rewrite Hden, Hcnt. reflexivity.
    + intros r c Hr Hc. rewrite cell_at_probability_grid.
      erewrite cell_at_grid_add;
        [|apply cell_at_zeros; assumption|apply cell_at_rasterize; assumption].
      simpl. eexists. split; [reflexivity|].
      specialize (Hcover r c).
      destruct (existsb _ _) eqn:Hex.
      * rewrite decide_True by (apply Hcover; reflexivity). reflexivity.
      * rewrite decide_False; [reflexivity|].
        intros Hrc. apply Hcover in Hrc. discriminate.
Qed.

(** C5. Processing the Members in any order gives the same run: it
    stops in both orders, or ends in both with the same count grids,
    the same denominators and the same probability grids. *)
Theorem accumulation_order_independent (self : EnsembleProcessor) (d : disk G)
    (ms ms' : list member) :
  Permutation ms ms' ->
  same_outcome (create_ensemble_probabilities (with_members self ms) d)
               (create_ensemble_probabilities (with_members self ms') d).
Proof. apply create_ensemble_probabilities_perm. Qed.

(** C7. A run in which every Member is classified into a configured
    bin ends.  In every run that ends, for every configured label: a
    positive denominator comes with a probability grid of the shape of
    the count grid, each cell of which is the count divided by the
    denominator and clipped to [0, 1] (the quotient itself when it
    lies between 0 and 1, 1 when it is above, 0 when it is below) and
    so lies between 0 and 1; a zero denominator comes with no grid and
    with the warning that the bin has no Member. *)
Theorem probability_grids_bounded (self : EnsembleProcessor) (d : disk G) :
  ((forall m, m ∈ current_members self d -> label_of self m ∈ bin_labels self) ->
   exists out, create_ensemble_probabilities self d = Ok out)
  /\ forall out,
      create_ensemble_probabilities self d = Ok out ->
      forall lbl, lbl ∈ bin_labels self ->
        exists denom counts,
          out_denoms out !! lbl = Some denom /\
          out_counts out !! lbl = Some counts /\
          0 <= denom /\
          (0 < denom ->
             exists prob,
               prob_grids out !! lbl = Some prob /\
               forall r c,
                 match cell_at counts r c with
                 | Some n =>
                     exists p,
                       cell_at prob r c = Some p /\ (0 <= p <= 1)%Q /\
                       let q := (inject_Z n / inject_Z denom)%Q in
                       ((q <= 0)%Q -> (p == 0)%Q)
                       /\ ((0 <= q <= 1)%Q -> (p == q)%Q)
                       /\ ((1 <= q)%Q -> (p == 1)%Q)
                 | None => cell_at prob r c = None
                 end) /\
          (denom = 0 ->
             prob_grids out !! lbl = None /\
             NoMembersForBin lbl ∈ out_warnings out).
Proof.
  assert (Hends : (forall m, m ∈ current_members self d ->
                             label_of self m ∈ bin_labels self) ->
                  exists acc out,
                    labels_are_keys self acc
                    /\ create_ensemble_probabilities self d = Ok out
                    /\ out_counts out = counts_by_bin acc
                    /\ out_denoms out = denom_by_bin acc
                    /\ (forall l, prob_grids out !! l =
                          if decide (l ∈ bin_labels self) then emitted acc l else None)
                    /\ (forall l, l ∈ bin_labels self -> denom_by_bin acc !! l = Some 0 ->
                          NoMembersForBin l ∈ out_warnings out)).
  { intros Hms.
    destruct (accumulate_members_keys self d (current_members self d)
                (init_accumulators self) (init_labels_are_keys self) Hms)
      as (acc & Hrun & Hwf).
    destruct (create_after_accumulation self d acc Hrun Hwf)
      as (out & Hout & Hoc & Hod & Hprob & Hwarn).
    exists acc, out. repeat (split; [assumption|]). assumption. }
  split.
  - intros Hms. destruct (Hends Hms) as (acc & out & _ & Hout & _). eauto.
  - intros out Hout lbl Hlbl.
    assert (Hms : forall m, m ∈ current_members self d ->
                            label_of self m ∈ bin_labels self).
    { intros m Hm. destruct (decide (label_of self m ∈ bin_labels self)) as [Hin|Hnin];
        [exact Hin|].
      destruct (unmatched_member_aborts self d m Hm Hnin) as [e He]. congruence. }
    destruct (Hends Hms) as (acc & out' & Hwf & Hout' & Hoc & Hod & Hprob & Hwarn).
    assert (out' = out) by congruence. subst out'.
    destruct (Hwf _ Hlbl) as [(n & Hn & Hpos) (g & Hg)].
    exists n, g. rewrite Hoc, Hod.
    split; [exact Hn|]. split; [exact Hg|]. split; [exact Hpos|]. split.
    + intros Hgt. exists (probability_grid n g). split.
      * rewrite Hprob, decide_True by assumption. unfold emitted. rewrite Hn, Hg.
        destruct (n =? 0) eqn:Hz; [apply Z.eqb_eq in Hz; lia | reflexivity].
      * intros r c. rewrite cell_at_probability_grid.
        destruct (cell_at g r c) as [k|]; simpl; [|reflexivity].
        exists (probability_cell n k). split; [reflexivity|].
        split; [apply probability_cell_bounds|].
        apply clip01_cases.
    + intros ->. split.
      * rewrite Hprob, decide_True by assumption. unfold emitted. rewrite Hn, Hg.
        reflexivity.
      * apply Hwarn; assumption.
Qed.

End EnsembleClaims2.

(** ** The ensemble engine on concrete inputs *)

Module EnsembleExamples.
Import Cells Examples.

(** C2. With the single bin [10, 20], a Member of threshold 5 is
    classified as UNBINNED, and the run over a disk holding that
    Member stops on the lookup of the sentinel in the denominators:
    it returns the exception and no grid. *)
Theorem unmatched_threshold_aborts_run :
  threshold_to_bin_label [(of_int 10, of_int 20)] ["10-20"%string] (of_int 5) = UNBINNED
  /\ (collect_members [unmatched_file]).1 = [member_of unmatched_file]
  /\ create_ensemble_probabilities (one_bin_processor []) [unmatched_file]
     = Raise (KeyError UNBINNED).
Proof. repeat split; vm_compute; reflexivity. Qed.

(** The claim C6 fails when there are fewer labels than bins: with
    the bins [0, 5] and [6, 39] and the single label 0-5, the threshold
    7 lies in the second bin and is classified as UNBINNED. *)
Lemma bin_without_label_never_matches :
  in_interval (of_int 6) (of_int 39) (of_int 7) = true
  /\ threshold_to_bin_label [(of_int 0, of_int 5); (of_int 6, of_int 39)]
       ["0-5"%string] (of_int 7) = UNBINNED.
Proof. split; reflexivity. Qed.

(** The claim C3 fails on a Member whose file is missing at
    accumulation time: the file cannot be read, the run ends, and the
    denominator of the Member's bin is 1 while its count grid is
    still all zeros. *)
Lemma unreadable_member_counted_in_denominator :
  read_file ([] : disk geom) (path missing_member) = Unreadable
  /\ label_of (one_bin_processor [missing_member]) missing_member = "10-20"%string
  /\ exists out,
       create_ensemble_probabilities (one_bin_processor [missing_member]) ([] : disk geom)
         = Ok out
       /\ out_denoms out !! "10-20"%string = Some 1
       /\ out_counts out !! "10-20"%string = Some (zeros 2 2)
       /\ out_warnings out = [FailedToProcessMember (path missing_member)].
Proof.
  split; [reflexivity|]. split; [vm_compute; reflexivity|].
  eexists. split; [vm_compute; reflexivity|].
  repeat split; vm_compute; reflexivity.
Qed.

Lemma unreadable_member_skipped_witness :
  accumulate_member (one_bin_processor [missing_member]) ([] : disk geom)
    (init_accumulators (one_bin_processor [missing_member])) missing_member
  = Ok {| counts_by_bin := counts_by_bin (init_accumulators (one_bin_processor [missing_member]));
          denom_by_bin :=
            <["10-20"%string := 0 + 1]>
              (denom_by_bin (init_accumulators (one_bin_processor [missing_member])));
          warnings := [FailedToProcessMember (path missing_member)] |}.
Proof.
  destruct (unreadable_member_skipped (one_bin_processor [missing_member]) ([] : disk geom))
    as [Hskip _].
  apply (Hskip (init_accumulators (one_bin_processor [missing_member])) missing_member 0).
  - vm_compute. reflexivity.
  - reflexivity.
Defined.

Lemma denominator_counts_empty_members_witness :
  exists out g,
    create_ensemble_probabilities (one_bin_processor []) scenario_c_disk = Ok out
    /\ out_denoms out !! "10-20"%string = Some 3
    /\ prob_grids out !! "10-20"%string = Some g
    /\ forall r c, (r < 2)%nat -> (c < 2)%nat ->
         exists p, cell_at g r c = Some p /\
           (p == if decide (r = 0%nat /\ c = 0%nat) then 1 # 3 else 0)%Q.
Proof.
  destruct (denominator_counts_empty_members (one_bin_processor []) scenario_c_disk)
    as (_ & _ & Hscenario).
  apply (Hscenario (member_of covering_file) (member_of empty_file_1)
           (member_of empty_file_2) "10-20"%string [Some [(0, 0)%nat]]).
  - vm_compute. reflexivity.
  - vm_compute. by left.
  - vm_compute. reflexivity.
  - vm_compute. reflexivity.
  - vm_compute. reflexivity.
  - vm_compute. reflexivity.
  - intros r c. destruct r as [|r], c as [|c]; vm_compute; intuition congruence.
  - vm_compute. reflexivity.
  - vm_compute. reflexivity.
Defined.

Lemma accumulation_order_independent_witness :
  same_outcome
    (create_ensemble_probabilities (with_members (one_bin_processor []) scenario_c_members)
       scenario_c_disk)
    (create_ensemble_probabilities
       (with_members (one_bin_processor []) (rev scenario_c_members)) scenario_c_disk).
Proof.
  apply accumulation_order_independent. apply Permutation_rev.
Defined.

Lemma probability_grids_bounded_witness :
  exists out,
    create_ensemble_probabilities (one_bin_processor []) scenario_c_disk = Ok out /\
    forall lbl, lbl ∈ ["10-20"%string] ->
      exists denom counts,
        out_denoms out !! lbl = Some denom /\
        out_counts out !! lbl = Some counts /\
        0 <= denom /\
        (0 < denom ->
           exists prob,
             prob_grids out !! lbl = Some prob /\
             forall r c,
               match cell_at counts r c with
               | Some n =>
                   exists p,
                     cell_at prob r c = Some p /\ (0 <= p <= 1)%Q /\
                     let q := (inject_Z n / inject_Z denom)%Q in
                     ((q <= 0)%Q -> (p == 0)%Q)
                     /\ ((0 <= q <= 1)%Q -> (p == q)%Q)
                     /\ ((1 <= q)%Q -> (p == 1)%Q)
               | None => cell_at prob r c = None
               end) /\
        (denom = 0 ->
           prob_grids out !! lbl = None /\
           NoMembersForBin lbl ∈ out_warnings out).
Proof.
  destruct (probability_grids_bounded (one_bin_processor []) scenario_c_disk)
    as [Hends Hgrids].
  destruct Hends as [out Hout].
  { intros m Hm. vm_compute in Hm.
    repeat (apply elem_of_cons in Hm; destruct Hm as [->|Hm]);
      try (vm_compute; by left).
    inversion Hm. }
  exists out. split; [exact Hout|]. apply (Hgrids out Hout).
Defined.

Lemma threshold_to_bin_label_first_match_witness :
  threshold_to_bin_label default_bins default_bin_labels (of_int 100) = "51-100"%string.
Proof.
  destruct (threshold_to_bin_label_first_match default_bins default_bin_labels
              (of_int 100)) as (_ & Htie & _).
  apply (Htie 3%nat (of_int 51) (of_int 254)); try reflexivity.
  intros j lo' hi' Hj Hb.
  destruct j as [|[|[|j]]]; simpl in Hb; try lia; injection Hb as <- <-; reflexivity.
Defined.

End EnsembleExamples.

(** ** AOI extraction *)

Lemma fold_left_unchanged {A B} (f : A -> B -> A) (l : list B) (a : A) :
  (forall x b, f x b = x) -> fold_left f l a = a.
Proof.
  intros Hf. induction l as [|b l IH]; simpl; [reflexivity|].
  rewrite Hf. exact IH.
Qed.

(** Labelling a mask without any true cell finds no feature. *)
Lemma label_empty_mask (mask : list (list bool)) :
  (forall r c, mask_at mask r c = false) -> (label mask).2 = 0.
Proof.
  intros Hmask. unfold label. rewrite fold_left_unchanged; [reflexivity|].
  intros st rc. unfold label_step. rewrite Hmask. reflexivity.
Qed.

Lemma mask_at_threshold (precip_data : list (list pyfloat)) (threshold : pyfloat) (r c : nat) :
  mask_at ((fun row : list pyfloat => (fun v => fgt v threshold) <$> row) <$> precip_data) r c
  = match cell_at precip_data r c with
    | Some v => fgt v threshold
    | None => false
    end.
Proof.
  unfold mask_at, cell_at. rewrite list_lookup_fmap.
  destruct (precip_data !! r) as [row|]; simpl; [|reflexivity].
  rewrite list_lookup_fmap. destruct (row !! c); reflexivity.
Qed.

Section ExtractionClaims.
Context {G : Type} `{Shapely G}.

(** C9. When no cell of the field is strictly above the threshold,
    [generate_aois] returns a frame (not an exception, and the result
    type has no null) with no row and with the columns id,
    mean_precip_mm, max_precip_mm, area_deg2 and geometry. *)
Theorem generate_aois_empty_collection (config_min_aoi_area : pyfloat)
    (precip_data : list (list pyfloat)) (ds : dataset) (threshold : pyfloat)
    (min_area : option pyfloat) :
  (forall r c v, cell_at precip_data r c = Some v -> fgt v threshold = false) ->
  exists frame : aoi_frame,
    generate_aois config_min_aoi_area precip_data ds threshold min_area = Ok frame /\
    frame_rows frame = [] /\
    frame_columns frame
      = ["id"; "mean_precip_mm"; "max_precip_mm"; "area_deg2"; "geometry"]%string.
Proof.
  intros Hfield. exists empty_frame. split; [|split; reflexivity].
  unfold generate_aois.
  pose proof (label_empty_mask
    ((fun row : list pyfloat => (fun v => fgt v threshold) <$> row) <$> precip_data)) as Hlabel.
  destruct (label _) as [labeled num_features]. simpl in Hlabel.
  rewrite Hlabel; [reflexivity|].
  intros r c. rewrite mask_at_threshold.
  destruct (cell_at precip_data r c) as [v|] eqn:Hv; [|reflexivity].
  apply (Hfield r c v Hv).
Qed.

End ExtractionClaims.

Module ExtractionExamples.
Import Cells Examples.

Lemma generate_aois_empty_collection_witness :
  exists frame : aoi_frame,
    generate_aois (Fin (1 # 100)) zero_field (example_dataset 2) (of_int 5) None = Ok frame /\
    frame_rows frame = [] /\
    frame_columns frame
      = ["id"; "mean_precip_mm"; "max_precip_mm"; "area_deg2"; "geometry"]%string.
Proof.
  apply generate_aois_empty_collection.
  intros r c v Hv.
  destruct r as [|[|r]], c as [|[|c]]; vm_compute in Hv;
    try discriminate; injection Hv as <-; reflexivity.
Defined.

(** Scenario B: the block of 50 above threshold 10 is one AOI of nine
    cells, with mean 50 and maximum 50. *)
Example generate_aois_block :
  exists a,
    generate_aois (Fin (1 # 100)) block_field (example_dataset 5) (of_int 10)
      (Some (of_int 0))
    = Ok {| frame_columns := aoi_columns ++ ["geometry"%string]; frame_rows := [a] |}
    /\ aoi_id a = 1 /\ length (aoi_geometry a) = 9%nat
    /\ fsame (mean_precip_mm a) (of_int 50) /\ fsame (max_precip_mm a) (of_int 50).
Proof.
  eexists. split; [vm_compute; reflexivity|]. repeat split.
Qed.

(** The labelling follows 4-connectivity: two cells that touch by a
    corner are two features, a U-shaped region is one. *)
Example label_diagonal :
  label [[true; false]; [false; true]] = ([[1; 0]; [0; 2]], 2).
Proof. vm_compute. reflexivity. Qed.

Example label_u_shape :
  label [[true; false; true]; [true; true; true]] = ([[1; 0; 1]; [1; 1; 1]], 1).
Proof. vm_compute. reflexivity. Qed.

End ExtractionExamples.

(** ** Grouping and ranking *)

Lemma key_compare_eq (k k' : group_key) : key_compare k k' = Eq -> k = k'.
Proof.
  destruct k as [[a b] s], k' as [[a' b'] s']. unfold key_compare; simpl.
  destruct (a ?= a') eqn:Ha; try discriminate.
  destruct (b ?= b') eqn:Hb; try discriminate.
  intros Hs. apply Z.compare_eq in Ha, Hb. apply String.compare_eq_iff in Hs.
  congruence.
Qed.

Lemma key_compare_refl (k : group_key) : key_compare k k = Eq.
Proof.
  destruct k as [[a b] s]. unfold key_compare; simpl.
  rewrite !Z.compare_refl.
  destruct (String.compare s s) eqn:Hs; [reflexivity| |];
    pose proof (String.compare_antisym s s) as Hanti; rewrite Hs in Hanti; discriminate.
Qed.

Lemma elem_of_insert_key (x k : group_key) (ks : list group_key) :
  x ∈ insert_key k ks <-> x = k \/ x ∈ ks.
Proof.
  induction ks as [|k' ks IH]; simpl.
  - rewrite list_elem_of_singleton. split; [auto | intros [?|Hx]; [auto | inversion Hx]].
  - destruct (key_compare k k') eqn:Hc.
    + apply key_compare_eq in Hc. subst k'. split; [auto|].
      intros [->|Hx]; [by left | exact Hx].
    + rewrite elem_of_cons. reflexivity.
    + rewrite !elem_of_cons, IH. tauto.
Qed.

Lemma elem_of_head {A} (n : Z) (l : list A) (x : A) : x ∈ head n l -> x ∈ l.
Proof.
  unfold head. destruct (n <? 0); intros Hx;
    apply elem_of_take in Hx; destruct Hx as (i & Hi & _);
    eapply list_elem_of_lookup_2; exact Hi.
Qed.

Lemma head_all {A} (n : Z) (l : list A) : Z.of_nat (length l) <= n -> head n l = l.
Proof.
  intros Hn. unfold head. destruct (n <? 0) eqn:Hneg.
  - apply Z.ltb_lt in Hneg. lia.
  - apply firstn_all2. lia.
Qed.

Section RankingProperties.
Context {G : Type} `{Shapely G}.

Lemma elem_of_group_keys (rows : list aoi_record) (k : group_key) :
  k ∈ group_keys rows <-> exists a, a ∈ rows /\ key_of a = Some k.
Proof.
  induction rows as [|a rows IH]; simpl.
  - split; [intros Hk; inversion Hk | intros (a & Ha & _); inversion Ha].
  - destruct (key_of a) as [k'|] eqn:Hka.
    + rewrite elem_of_insert_key, IH. split.
      * intros [->|(b & Hb & Hkb)].
        -- exists a. split; [by left | exact Hka].
        -- exists b. split; [by right | exact Hkb].
      * intros (b & Hb & Hkb). apply elem_of_cons in Hb. destruct Hb as [->|Hb].
        -- left. congruence.
        -- right. eauto.
    + rewrite IH. split.
      * intros (b & Hb & Hkb). exists b. split; [by right | exact Hkb].
      * intros (b & Hb & Hkb). apply elem_of_cons in Hb. destruct Hb as [->|Hb].
        -- congruence.
        -- eauto.
Qed.

Lemma elem_of_insert_by_count (x g : risk_group) (gs : list risk_group) :
  x ∈ insert_by_count g gs <-> x = g \/ x ∈ gs.
Proof.
  induction gs as [|g' gs IH]; simpl.
  - rewrite list_elem_of_singleton. split; [auto | intros [?|Hx]; [auto | inversion Hx]].
  - destruct (ensemble_count g' <=? ensemble_count g).
    + rewrite elem_of_cons. reflexivity.
    + rewrite !elem_of_cons, IH. tauto.
Qed.

Lemma elem_of_sort_by_count (x : risk_group) (gs : list risk_group) :
  x ∈ sort_by_count gs <-> x ∈ gs.
Proof.
  induction gs as [|g gs IH]; simpl; [reflexivity|].
  rewrite elem_of_insert_by_count, elem_of_cons, IH. reflexivity.
Qed.

(** Every row of the ranked table is the aggregate of one group key. *)
Lemma ranked_group_is_aggregate (self : EnsembleProcessor) (d : disk G)
    (census_gdf : option census_layer) (top_n : Z) (g : risk_group) :
  g ∈ rank_aois_by_probability self d census_gdf top_n ->
  exists k, k ∈ group_keys (aoi_rows self d) /\
            g = make_group census_gdf (aoi_rows self d) k.
Proof.
  unfold rank_aois_by_probability, aoi_rows.
  destruct (collect_aoi_data self d (current_members self d)).1 as [|a rows] eqn:Hrows.
  - intros Hg. inversion Hg.
  - intros Hg. apply elem_of_head in Hg. rewrite elem_of_sort_by_count in Hg.
    unfold grouped in Hg. apply list_elem_of_In in Hg. apply in_map_iff in Hg.
    destruct Hg as (k & <- & Hk). exists k. split; [|reflexivity].
    apply list_elem_of_In. exact Hk.
Qed.

Lemma rows_of_group_nonempty (rows : list aoi_record) (k : group_key) :
  k ∈ group_keys rows -> rows_of_group rows k <> [].
Proof.
  intros Hk. apply elem_of_group_keys in Hk. destruct Hk as (a & Ha & Hka).
  assert (Hin : In a (rows_of_group rows k)).
  { unfold rows_of_group. apply filter_In. split; [apply list_elem_of_In; exact Ha|].
    apply bool_decide_eq_true. exact Hka. }
  intros Hnil. rewrite Hnil in Hin. exact Hin.
Qed.

(** C1 (amended). The ensemble_count of every group of the ranked
    table is the number of AOI rows grouped under its
    (rounded centroid, bin) key, that is the length of its list of
    methods, in which a method appears once for each of its AOIs; it
    is at least 1.  Two AOIs that make up the whole input and share a
    key form one group with ensemble_count 2. *)
Theorem ensemble_count_is_row_count (self : EnsembleProcessor) (d : disk G)
    (census_gdf : option census_layer) (top_n : Z) :
  (forall g, g ∈ rank_aois_by_probability self d census_gdf top_n ->
     let k := (centroid_lon g, centroid_lat g, bin g) in
     group_method g = map a_method (rows_of_group (aoi_rows self d) k) /\
     ensemble_count g = Z.of_nat (length (rows_of_group (aoi_rows self d) k)) /\
     1 <= ensemble_count g)
  /\ (forall a1 a2 k,
        aoi_rows self d = [a1; a2] ->
        key_of a1 = Some k -> key_of a2 = Some k -> 1 <= top_n ->
        exists g,
          rank_aois_by_probability self d census_gdf top_n = [g] /\
          (centroid_lon g, centroid_lat g, bin g) = k /\
          group_method g = [a_method a1; a_method a2] /\
          ensemble_count g = 2).
Proof.
  split.
  - intros g Hg. destruct (ranked_group_is_aggregate _ _ _ _ _ Hg) as (k & Hk & ->).
    destruct k as [[lon lat] b]. simpl. split; [reflexivity|].
    rewrite length_map. split; [reflexivity|].
    pose proof (rows_of_group_nonempty _ _ Hk) as Hne.
    destruct (rows_of_group (aoi_rows self d) (lon, lat, b)); [congruence | simpl; lia].
  - intros a1 a2 k Hrows Hk1 Hk2 Htop.
    unfold rank_aois_by_probability. unfold aoi_rows in Hrows. rewrite Hrows.
    unfold grouped. simpl. rewrite Hk1, Hk2. simpl.
    rewrite key_compare_refl. simpl.
    rewrite head_all by (simpl; lia).
    eexists. split; [reflexivity|]. simpl.
    unfold rows_of_group. simpl. rewrite Hk1, Hk2.
    rewrite !bool_decide_eq_true_2 by reflexivity. simpl.
    destruct k as [[lon lat] b]. repeat split.
Qed.

End RankingProperties.

(** ** Truncation *)

Lemma Qtruncate_nonneg (x : Q) : (0 <= x)%Q -> Qtruncate x = Qfloor x.
Proof.
  destruct x as [n d]. unfold Qtruncate, Qfloor, Qle; simpl. intros Hn.
  apply Z.quot_div_nonneg; lia.
Qed.

Lemma Qtruncate_nonpos (x : Q) : (x <= 0)%Q -> Qtruncate x = Qceiling x.
Proof.
  destruct x as [n d]. unfold Qtruncate, Qceiling, Qfloor, Qle; simpl. intros Hn.
  replace n with (- - n) at 1 by lia.
  rewrite Z.quot_opp_l by lia. f_equal.
  apply Z.quot_div_nonneg; lia.
Qed.

Lemma Qtruncate_comp (x y : Q) : (x == y)%Q -> Qtruncate x = Qtruncate y.
Proof.
  intros Hxy. destruct (Qlt_le_dec x 0) as [Hneg|Hpos].
  - rewrite !Qtruncate_nonpos.
    + apply Qceiling_comp. exact Hxy.
    + rewrite <- Hxy. apply Qlt_le_weak. exact Hneg.
    + apply Qlt_le_weak. exact Hneg.
  - rewrite !Qtruncate_nonneg.
    + apply Qfloor_comp. exact Hxy.
    + rewrite <- Hxy. exact Hpos.
    + exact Hpos.
Qed.

(** [int()] rounds toward zero: down for a non-negative number, up for
    a non-positive one. *)
Lemma Qtruncate_bounds (x : Q) :
  ((0 <= x)%Q -> (inject_Z (Qtruncate x) <= x)%Q /\ (x < inject_Z (Qtruncate x + 1))%Q) /\
  ((x <= 0)%Q -> (inject_Z (Qtruncate x - 1) < x)%Q /\ (x <= inject_Z (Qtruncate x))%Q).
Proof.
  split; intros Hx.
  - rewrite Qtruncate_nonneg by exact Hx. split; [apply Qfloor_le | apply Qlt_floor].
  - rewrite Qtruncate_nonpos by exact Hx. split; [apply Qceiling_lt | apply Qle_ceiling].
Qed.

Lemma fold_left_Qplus_nonneg (l : list Q) (a : Q) :
  (0 <= a)%Q -> Forall (fun x => (0 <= x)%Q) l -> (0 <= fold_left Qplus l a)%Q.
Proof.
  intros Ha Hl. revert a Ha. induction Hl as [|x l Hx Hl IH]; intros a Ha; simpl.
  - exact Ha.
  - apply IH. replace 0%Q with (0 + 0)%Q by reflexivity. apply Qplus_le_compat; assumption.
Qed.

Lemma fold_left_fadd_Fin (qs : list Q) (a : Q) :
  fold_left fadd (map Fin qs) (Fin a) = Fin (fold_left Qplus qs a).
Proof.
  revert a. induction qs as [|q qs IH]; intros a; simpl; [reflexivity | apply IH].
Qed.

Lemma nansum_Fin (qs : list Q) : nansum (map Fin qs) = Fin (fold_left Qplus qs 0%Q).
Proof.
  unfold nansum.
  replace (List.filter (fun a => negb (is_nan a)) (map Fin qs)) with (map Fin qs).
  - apply fold_left_fadd_Fin.
  - induction qs as [|q qs IH]; simpl; [reflexivity | rewrite <- IH; reflexivity].
Qed.

Lemma filterR_Ok {A} (f : A -> result bool) (l : list A) :
  (forall a, a ∈ l -> exists b, f a = Ok b) ->
  filterR f l = Ok (List.filter (fun a => match f a with Ok true => true | _ => false end) l).
Proof.
  induction l as [|a l IH]; intros Hok; simpl; [reflexivity|].
  destruct (Hok a) as [b Hb]; [by left|]. rewrite Hb. simpl.
  rewrite IH by (intros x Hx; apply Hok; by right). simpl.
  destruct b; reflexivity.
Qed.

Lemma mapR_Ok {A B} (f : A -> result B) (g : A -> B) (l : list A) :
  (forall a, a ∈ l -> f a = Ok (g a)) -> mapR f l = Ok (map g l).
Proof.
  induction l as [|a l IH]; intros Hok; simpl; [reflexivity|].
  rewrite (Hok a) by (by left). simpl.
  rewrite IH by (intros x Hx; apply Hok; by right). reflexivity.
Qed.

Lemma zip_map_r {A B} (g : A -> B) (l : list A) :
  zip l (map g l) = map (fun a => (a, g a)) l.
Proof. induction l as [|a l IH]; simpl; [reflexivity | rewrite IH; reflexivity]. Qed.

Section PopulationProperties.
Context {G : Type} `{Shapely G}.

(** The [try] block on a usable population layer with a population
    column: the truncated weighted sum. *)
Lemma population_try_computed (census : census_layer) (combined : G) (col : string) :
  census_usable census combined ->
  find_pop_col (census_columns census) = Some col ->
  population_try census combined
  = Ok (Qtruncate (weighted_population_sum census col combined)).
Proof.
  intros Huse Hcol. unfold population_try, weighted_population_sum.
  rewrite filterR_Ok by (intros u Hu; apply (Huse u Hu)). simpl.
  fold (unit_intersects combined).
  assert (Hsub : forall u, u ∈ List.filter (unit_intersects combined) (census_units census) ->
                           u ∈ census_units census).
  { intros u Hu. apply list_elem_of_In in Hu. apply filter_In in Hu.
    apply list_elem_of_In. tauto. }
  destruct (List.filter (unit_intersects combined) (census_units census))
    as [|u0 us] eqn:Hinter; [reflexivity|].
  rewrite (mapR_Ok (area_fraction combined)
             (fun u => Fin (intersection_area combined u / geom_area (u_geometry u)))).
  - simpl bind. rewrite Hcol. rewrite zip_map_r, map_map.
    unfold weighted_pop. cbn [fst snd fmul].
    rewrite <- (map_map (fun u => (u_value u col
                   * (intersection_area combined u / geom_area (u_geometry u)))%Q) Fin).
    transitivity (py_int (Fin (fold_left Qplus
             (map (fun u => (u_value u col
                * (intersection_area combined u / geom_area (u_geometry u)))%Q) (u0 :: us))
             0%Q))); [|reflexivity].
    apply (f_equal py_int).
    apply (nansum_Fin (map (fun u => (u_value u col
             * (intersection_area combined u / geom_area (u_geometry u)))%Q) (u0 :: us))).
  - intros u Hu. destruct (Huse u (Hsub u Hu)) as (_ & [ig Hig] & Harea).
    unfold area_fraction, intersection_area. rewrite Hig. simpl.
    unfold fdiv_fin. destruct (Qeq_bool (geom_area (u_geometry u)) 0) eqn:Hz;
      [apply Qeq_bool_iff in Hz; contradiction | reflexivity].
Qed.

Lemma matching_rows_nonempty (rows : list aoi_record) (k : group_key) :
  k ∈ group_keys rows -> matching_rows rows k.1.1 k.1.2 <> [].
Proof.
  intros Hk. apply elem_of_group_keys in Hk. destruct Hk as (a & Ha & Hka).
  assert (Hin : In a (matching_rows rows k.1.1 k.1.2)).
  { unfold matching_rows. apply filter_In. split; [apply list_elem_of_In; exact Ha|].
    apply bool_decide_eq_true. unfold key_of in Hka.
    destruct (centroid_key (a_geometry a)) as [[lon lat]|]; [|discriminate].
    injection Hka as <-. reflexivity. }
  intros Hnil. rewrite Hnil in Hin. exact Hin.
Qed.

(** The population of a group of the ranked table, on a usable
    population layer with a population column. *)
Lemma ranked_population_computed (self : EnsembleProcessor) (d : disk G)
    (census : census_layer) (top_n : Z) (col : string) (g : risk_group) :
  find_pop_col (census_columns census) = Some col ->
  g ∈ rank_aois_by_probability self d (Some census) top_n ->
  census_usable census
    (combined_geometry (aoi_rows self d) (centroid_lon g) (centroid_lat g)) ->
  population_affected g
  = Some (Qtruncate (weighted_population_sum census col
            (combined_geometry (aoi_rows self d) (centroid_lon g) (centroid_lat g)))).
Proof.
  intros Hcol Hg. destruct (ranked_group_is_aggregate _ _ _ _ _ Hg) as (k & Hk & ->).
  simpl. intros Huse. f_equal. unfold group_population.
  pose proof (matching_rows_nonempty _ _ Hk) as Hne.
  unfold combined_geometry in *.
  destruct (matching_rows (aoi_rows self d) k.1.1 k.1.2) as [|a rest] eqn:Hm;
    [congruence|].
  rewrite (population_try_computed census _ col Huse Hcol). reflexivity.
Qed.

End PopulationProperties.

Section PopulationClaims.
Context {G : Type} `{Shapely G}.

(** C8 (amended). With a population layer that has a population
    column and can be processed, the population_affected of every
    group of the ranked table is the integer part of the sum, over
    the population units intersecting the union of all AOI geometries
    at the group's rounded centroid (of whatever bin), of
    unit population x (intersection area / unit area).  A group that
    intersects no unit gets 0; a group that covers half of its only
    intersecting unit, of population 1000, gets 500. *)
Theorem population_affected_weighted_sum (self : EnsembleProcessor) (d : disk G)
    (census : census_layer) (top_n : Z) (col : string) (g : risk_group) :
  find_pop_col (census_columns census) = Some col ->
  g ∈ rank_aois_by_probability self d (Some census) top_n ->
  let combined :=
    combined_geometry (aoi_rows self d) (centroid_lon g) (centroid_lat g) in
  census_usable census combined ->
  population_affected g
    = Some (Qtruncate (weighted_population_sum census col combined))
  /\ (List.filter (unit_intersects combined) (census_units census) = [] ->
      population_affected g = Some 0)
  /\ (forall u,
        List.filter (unit_intersects combined) (census_units census) = [u] ->
        (u_value u col == 1000)%Q ->
        (intersection_area combined u == (1 # 2) * geom_area (u_geometry u))%Q ->
        population_affected g = Some 500).
Proof.
  intros Hcol Hg combined Huse.
  pose proof (ranked_population_computed self d census top_n col g Hcol Hg Huse) as Hpop.
  fold combined in Hpop. split; [exact Hpop|]. split.
  - intros Hnone. rewrite Hpop. unfold weighted_population_sum. rewrite Hnone.
    reflexivity.
  - intros u Hone Hvalue Harea. rewrite Hpop. f_equal.
    unfold weighted_population_sum. rewrite Hone. simpl.
    assert (Hu : u ∈ census_units census).
    { apply list_elem_of_In.
      apply (proj1 (filter_In (unit_intersects combined) u (census_units census))).
      rewrite Hone. by left. }
    destruct (Huse u Hu) as (_ & _ & Hnz).
    transitivity (Qtruncate 500); [|reflexivity].
    apply Qtruncate_comp. rewrite Hvalue, Harea. field. exact Hnz.
Qed.

(** C10. The stored population_affected is the weighted sum truncated
    toward zero: an integer p with p <= S < p + 1 when the sum S is
    not negative and p - 1 < S <= p when it is not positive.  When
    the populations and the areas are not negative, p is the floor of
    the sum and does not exceed it. *)
Theorem population_affected_truncated (self : EnsembleProcessor) (d : disk G)
    (census : census_layer) (top_n : Z) (col : string) (g : risk_group) :
  find_pop_col (census_columns census) = Some col ->
  g ∈ rank_aois_by_probability self d (Some census) top_n ->
  let combined :=
    combined_geometry (aoi_rows self d) (centroid_lon g) (centroid_lat g) in
  let S := weighted_population_sum census col combined in
  census_usable census combined ->
  exists p : Z,
    population_affected g = Some p /\
    p = Qtruncate S /\
    ((0 <= S)%Q -> (inject_Z p <= S)%Q /\ (S < inject_Z (p + 1))%Q) /\
    ((S <= 0)%Q -> (inject_Z (p - 1) < S)%Q /\ (S <= inject_Z p)%Q) /\
    ((forall u, u ∈ census_units census -> (0 <= u_value u col)%Q) ->
     (forall x : G, (0 <= geom_area x)%Q) ->
     p = Qfloor S /\ (inject_Z p <= S)%Q).
Proof.
  intros Hcol Hg combined S Huse.
  pose proof (ranked_population_computed self d census top_n col g Hcol Hg Huse) as Hpop.
  fold combined in Hpop. fold S in Hpop.
  exists (Qtruncate S). split; [exact Hpop|]. split; [reflexivity|].
  destruct (Qtruncate_bounds S) as [Hup Hdown].
  split; [exact Hup|]. split; [exact Hdown|].
  intros Hvalues Hareas.
  assert (HS : (0 <= S)%Q).
  { unfold S, weighted_population_sum. apply fold_left_Qplus_nonneg; [discriminate|].
    apply Forall_forall. intros x Hx. apply list_elem_of_In in Hx.
    apply in_map_iff in Hx.
    destruct Hx as (u & <- & Hu). apply filter_In in Hu. destruct Hu as [Hu _].
    apply list_elem_of_In in Hu.
    apply Qmult_le_0_compat; [apply Hvalues; exact Hu|].
    destruct (Huse u Hu) as (_ & _ & Hnz).
    apply Qle_shift_div_l.
    - destruct (Qle_lt_or_eq _ _ (Hareas (u_geometry u))) as [Hlt|Heq];
        [exact Hlt | symmetry in Heq; contradiction].
    - rewrite Qmult_0_l. unfold intersection_area.
      destruct (geom_intersection (u_geometry u) combined); [apply Hareas | discriminate]. }
  split; [apply Qtruncate_nonneg; exact HS | apply Hup; exact HS].
Qed.

End PopulationClaims.

(** ** The ranking pass on concrete inputs *)

Module RankingExamples.
Import Cells Examples.

(** The claim C1 fails on two Members of the same method with the
    same AOI: one group, one distinct method, ensemble_count 2. *)
Lemma same_method_counted_twice :
  exists g,
    rank_aois_by_probability (one_bin_processor []) same_method_disk None 50 = [g]
    /\ group_method g = ["hrrr"; "hrrr"]%string
    /\ length (remove_dups (group_method g)) = 1%nat
    /\ ensemble_count g = 2.
Proof. eexists. split; [vm_compute; reflexivity|]. repeat split. Qed.

Lemma ensemble_count_is_row_count_witness :
  exists g,
    rank_aois_by_probability (one_bin_processor []) two_methods_disk None 50 = [g]
    /\ (centroid_lon g, centroid_lat g, bin g) = (5, 5, "10-20"%string)
    /\ group_method g = ["hrrr"; "gfs"]%string
    /\ ensemble_count g = 2.
Proof.
  destruct (ensemble_count_is_row_count (one_bin_processor []) two_methods_disk None 50)
    as [_ Hscenario].
  destruct (aoi_rows (one_bin_processor []) two_methods_disk) as [|a1 [|a2 rest]] eqn:Hrows;
    try (vm_compute in Hrows; discriminate).
  destruct rest; [|vm_compute in Hrows; discriminate].
  destruct (Hscenario a1 a2 (5, 5, "10-20"%string) eq_refl) as (g & Hg & Hk & Hm & Hc).
  - vm_compute in Hrows. injection Hrows as <- <-. vm_compute. reflexivity.
  - vm_compute in Hrows. injection Hrows as <- <-. vm_compute. reflexivity.
  - lia.
  - exists g. repeat split; try assumption.
    rewrite Hm. vm_compute in Hrows. injection Hrows as <- <-. reflexivity.
Defined.

Lemma census_of_usable (units : list (geom * Q)) (combined : geom) :
  Forall (fun gp => gp.1 <> []) units -> census_usable (census_of units) combined.
Proof.
  intros Hunits u Hu. unfold census_of in Hu; simpl in Hu.
  apply list_elem_of_In, in_map_iff in Hu. destruct Hu as ([gm p] & <- & Hin).
  rewrite Forall_forall in Hunits. apply list_elem_of_In in Hin.
  specialize (Hunits _ Hin). simpl in *.
  split; [eauto|]. split; [eauto|].
  unfold area. destruct gm; [congruence|]. discriminate.
Qed.

(** The claim C8 fails on both counts.  A unit of population 1001
    half covered by the only AOI gives 500, not 1001/2.  And the
    group of the bin 0-5, whose only AOI is the cell (1, 1), gets the
    1000 inhabitants of a unit that this AOI does not touch, through
    the AOI of the bin 6-39 that has the same rounded centroid. *)
Lemma population_not_the_weighted_sum_of_the_group :
  (exists g,
      rank_aois_by_probability (one_bin_processor []) one_aoi_disk
        (Some (half_covered_unit 1001)) 50 = [g]
      /\ population_affected g = Some 500
      /\ (weighted_population_sum (half_covered_unit 1001) "POP" [(0, 0)%nat] == 1001 # 2)%Q)
  /\ (exists g g',
        rank_aois_by_probability (default_processor []) two_bins_disk (Some arm_unit) 50
          = [g; g']
        /\ bin g = "0-5"%string
        /\ map a_geometry (rows_of_group (aoi_rows (default_processor []) two_bins_disk)
                             (centroid_lon g, centroid_lat g, bin g)) = [[(1, 1)%nat]]
        /\ population_affected g = Some 1000
        /\ (weighted_population_sum arm_unit "POP" [(1, 1)%nat] == 0)%Q).
Proof.
  split.
  - eexists. split; [vm_compute; reflexivity|]. split; reflexivity.
  - eexists. eexists. split; [vm_compute; reflexivity|]. repeat split.
Qed.

Lemma population_affected_weighted_sum_witness :
  exists g,
    rank_aois_by_probability (one_bin_processor []) one_aoi_disk
      (Some (half_covered_unit 1000)) 50 = [g]
    /\ population_affected g = Some 500.
Proof.
  eexists. split; [vm_compute; reflexivity|].
  match goal with |- population_affected ?g = _ => set (grp := g) end.
  assert (Hg : grp ∈ rank_aois_by_probability (one_bin_processor []) one_aoi_disk
                 (Some (half_covered_unit 1000)) 50).
  { vm_compute. by left. }
  destruct (population_affected_weighted_sum (one_bin_processor []) one_aoi_disk
              (half_covered_unit 1000) 50 "POP"%string grp eq_refl Hg) as (_ & _ & Hhalf).
  - apply census_of_usable. repeat constructor. discriminate.
  - apply (Hhalf {| u_geometry := [(0, 0)%nat; (0, 1)%nat]; u_value := pop_value 1000 |});
      reflexivity.
Defined.

Lemma population_affected_truncated_witness :
  exists g p,
    rank_aois_by_probability (one_bin_processor []) one_aoi_disk
      (Some (half_covered_unit 1001)) 50 = [g]
    /\ population_affected g = Some p
    /\ p = Qfloor (1001 # 2)
    /\ (inject_Z p <= 1001 # 2)%Q.
Proof.
  eexists. 
  match goal with |- exists p, ?l = [?g] /\ _ => set (grp := g) end.
  assert (Hrank : rank_aois_by_probability (one_bin_processor []) one_aoi_disk
                    (Some (half_covered_unit 1001)) 50 = [grp]).
  { vm_compute. reflexivity. }
  assert (Hg : grp ∈ rank_aois_by_probability (one_bin_processor []) one_aoi_disk
                 (Some (half_covered_unit 1001)) 50).
  { rewrite Hrank. by left. }
  destruct (population_affected_truncated (one_bin_processor []) one_aoi_disk
              (half_covered_unit 1001) 50 "POP"%string grp eq_refl Hg)
    as (p & Hp & _ & _ & _ & Hfloor).
  - apply census_of_usable. repeat constructor. discriminate.
  - exists p. split; [exact Hrank|]. split; [exact Hp|].
    destruct Hfloor as [Hp1 Hp2].
    + intros u Hu. vm_compute in Hu.
      apply elem_of_cons in Hu. destruct Hu as [->|Hu]; [|inversion Hu].
      vm_compute. discriminate.
    + intros x. unfold geom_area; simpl. unfold area.
      change 0%Q with (inject_Z 0). rewrite <- Zle_Qle. lia.
    + split; [rewrite Hp1; reflexivity|].
      apply (Qle_trans _ _ _ Hp2). vm_compute. discriminate.
Defined.

End RankingExamples.

(** * Further properties *)

(** ** The classifier and the failure of the run *)

Lemma first_matching_label_range (pairs : list ((pyfloat * pyfloat) * string)) (t : pyfloat) :
  first_matching_label pairs t ∈ (snd <$> pairs) \/ first_matching_label pairs t = UNBINNED.
Proof.
  induction pairs as [|[[lo hi] l] rest IH]; simpl; [by right|].
  destruct (in_interval lo hi t).
  - left. by left.
  - destruct IH as [IH|IH]; [left; by right | by right].
Qed.

Lemma label_configured_or_sentinel
    (bins : list (pyfloat * pyfloat)) (bin_labels : list string) (t : pyfloat) :
  threshold_to_bin_label bins bin_labels t ∈ bin_labels \/
  threshold_to_bin_label bins bin_labels t = UNBINNED.
Proof.
  unfold threshold_to_bin_label.
  destruct (first_matching_label_range (zip bins bin_labels) t) as [Hin|Hun]; [|by right].
  left. apply list_elem_of_fmap in Hin. destruct Hin as ([b l] & -> & Hin).
  apply list_elem_of_lookup in Hin. destruct Hin as [i Hi].
  apply lookup_zip_Some in Hi. destruct Hi as [_ Hl].
  simpl. eapply list_elem_of_lookup_2. exact Hl.
Qed.

(** X1. Whatever the bins and the threshold, the classifier returns one
    of the configured labels or the sentinel UNBINNED. *)
Theorem threshold_to_bin_label_range
    (bins : list (pyfloat * pyfloat)) (bin_labels : list string) (t : pyfloat) :
  threshold_to_bin_label bins bin_labels t ∈ bin_labels \/
  threshold_to_bin_label bins bin_labels t = UNBINNED.
Proof. apply label_configured_or_sentinel. Qed.

Section FailureProperties.
Context {G : Type} `{Shapely G}.

Lemma init_denom_keys (self : EnsembleProcessor) (l : string) :
  is_Some (denom_by_bin (init_accumulators self) !! l) <-> l ∈ bin_labels self.
Proof.
  simpl. rewrite dict_of_labels_lookup.
  destruct (decide (l ∈ bin_labels self)) as [Hin|Hnin].
  - split; [auto | eauto].
  - split; [intros [? ?]; discriminate | contradiction].
Qed.





End FailureProperties.

(** ** What the count grids count *)

Lemma uint16_add_mod (v t k : Z) :
  (uint16_add v t + k) mod uint16_modulus = (v + (t + k)) mod uint16_modulus.
Proof.
  unfold uint16_add, uint16_modulus.
  rewrite Z.add_mod_idemp_l by lia. f_equal. lia.
Qed.

Section CountProperties.
Context {G : Type} `{Shapely G}.

Lemma member_grid_cell (self : EnsembleProcessor) (d : disk G) (mem : member)
    (tmp : list (list Z)) (r c : nat) :
  member_grid self d mem = Some tmp ->
  (r < height self)%nat -> (c < width self)%nat ->
  cell_at tmp r c = Some (if member_covers d mem r c then 1 else 0).
Proof.
  unfold member_grid, member_covers. intros Hgrid Hr Hc.
  destruct (read_file d (path mem)) as [|geometry]; [discriminate|].
  destruct (burnable_shapes geometry) as [|s shapes] eqn:Hs; [discriminate|].
  injection Hgrid as <-. apply cell_at_rasterize; assumption.
Qed.

Lemma member_grid_None (self : EnsembleProcessor) (d : disk G) (mem : member) (r c : nat) :
  member_grid self d mem = None -> member_covers d mem r c = false.
Proof.
  unfold member_grid, member_covers.
  destruct (read_file d (path mem)) as [|geometry]; [reflexivity|].
  destruct (burnable_shapes geometry) as [|s shapes]; [reflexivity | discriminate].
Qed.

(** Along the loop, a cell of the count grid of a bin grows, modulo
    2^16, by the number of Members of the bin that cover it. *)
Lemma accumulate_members_cell (self : EnsembleProcessor) (d : disk G)
    (ms : list member) (acc acc' : accumulators) (l : string)
    (g : list (list Z)) (r c : nat) (v : Z) :
  accumulate_members self d acc ms = Ok acc' ->
  counts_by_bin acc !! l = Some g ->
  cell_at g r c = Some v ->
  0 <= v < uint16_modulus ->
  (r < height self)%nat -> (c < width self)%nat ->
  exists g',
    counts_by_bin acc' !! l = Some g' /\
    cell_at g' r c =
      Some ((v + Z.of_nat (length (covering_members self d ms l r c))) mod uint16_modulus).
Proof.
  intros Hrun Hg Hv Hrange Hr Hc. revert acc g v Hrun Hg Hv Hrange.
  induction ms as [|mem ms IH]; intros acc g v Hrun Hg Hv Hrange; simpl in Hrun.
  - injection Hrun as <-. exists g. split; [exact Hg|].
    rewrite Hv. f_equal. simpl. rewrite Z.add_0_r, Z.mod_small; [reflexivity | exact Hrange].
  - destruct (denom_by_bin acc !! label_of self mem) as [n|] eqn:Hn.
    2:{ rewrite (accumulate_member_Raise self d acc mem Hn) in Hrun. discriminate. }
    destruct (accumulate_member_Ok self d acc mem n Hn) as (a1 & Hstep & _ & Hc1).
    rewrite Hstep in Hrun. simpl in Hrun.
    unfold covering_members, members_in_bin. simpl.
    destruct (decide (label_of self mem = l)) as [Heq|Hne].
    + rewrite bool_decide_eq_true_2 by assumption. simpl.
      destruct (member_grid self d mem) as [tmp|] eqn:Hgrid.
      * (* the Member adds its grid *)
        assert (Hg1 : counts_by_bin a1 !! l = Some (grid_add g tmp)).
        { rewrite Hc1, Heq. simpl. rewrite lookup_alter_eq, Hg. reflexivity. }
        pose proof (member_grid_cell self d mem tmp r c Hgrid Hr Hc) as Ht.
        pose proof (cell_at_grid_add g tmp r c v _ Hv Ht) as Hcell.
        destruct (IH a1 _ _ Hrun Hg1 Hcell) as (g' & Hg' & Hsum).
        { unfold uint16_add, uint16_modulus. apply Z.mod_pos_bound. lia. }
        exists g'. split; [exact Hg'|].
        fold (members_in_bin self ms l). fold (covering_members self d ms l r c).
        rewrite Hsum, uint16_add_mod. f_equal. f_equal.
        destruct (member_covers d mem r c); simpl length; lia.
      * (* the Member adds nothing *)
        assert (Hg1 : counts_by_bin a1 !! l = Some g) by (rewrite Hc1; exact Hg).
        rewrite (member_grid_None self d mem r c Hgrid).
        destruct (IH a1 _ _ Hrun Hg1 Hv Hrange) as (g' & Hg' & Hsum).
        exists g'. split; [exact Hg'|].
        fold (members_in_bin self ms l). fold (covering_members self d ms l r c).
        exact Hsum.
    + rewrite bool_decide_eq_false_2 by assumption.
      assert (Hg1 : counts_by_bin a1 !! l = Some g).
      { rewrite Hc1. destruct (member_grid self d mem); simpl; [|exact Hg].
        rewrite lookup_alter_ne by assumption. exact Hg. }
      destruct (IH a1 _ _ Hrun Hg1 Hv Hrange) as (g' & Hg' & Hsum).
      exists g'. split; [exact Hg'|].
      fold (members_in_bin self ms l). fold (covering_members self d ms l r c).
      exact Hsum.
Qed.

Lemma covering_le_members (self : EnsembleProcessor) (d : disk G)
    (ms : list member) (l : string) (r c : nat) :
  (length (covering_members self d ms l r c) <= length (members_in_bin self ms l))%nat.
Proof. unfold covering_members. apply filter_length_le. Qed.

Lemma clip01_id (x : Q) : (0 <= x)%Q -> (x <= 1)%Q -> (clip01 x == x)%Q.
Proof.
  intros H0 H1. unfold clip01.
  rewrite (Q.max_l x 0) by exact H0. apply Q.min_l. exact H1.
Qed.

(** X3. After a run that ends, each cell of the count grid of a bin
    holds the number of Members of the bin whose polygons cover the
    cell, modulo 2^16; and when the bin has between 1 and 65535
    Members, the probability of the cell is exactly that number
    divided by the number of Members of the bin (no wrap-around, and
    the clipping changes nothing). *)
Theorem probability_is_fraction_of_members (self : EnsembleProcessor) (d : disk G)
    (out : ensemble_output) (lbl : string) (r c : nat) :
  create_ensemble_probabilities self d = Ok out ->
  lbl ∈ bin_labels self ->
  (r < height self)%nat -> (c < width self)%nat ->
  let n := length (members_in_bin self (current_members self d) lbl) in
  let k := length (covering_members self d (current_members self d) lbl r c) in
  (exists counts,
      out_counts out !! lbl = Some counts /\
      cell_at counts r c = Some (Z.of_nat k mod uint16_modulus))
  /\ ((0 < n)%nat -> Z.of_nat n < uint16_modulus ->
        exists p,
          prob_grids out !! lbl = Some p /\
          exists q, cell_at p r c = Some q /\
                    (q == inject_Z (Z.of_nat k) / inject_Z (Z.of_nat n))%Q).
Proof.
  intros Hout Hlbl Hr Hc n k.
  unfold create_ensemble_probabilities in Hout.
  destruct (accumulate_members self d (init_accumulators self) (current_members self d))
    as [acc|] eqn:Hrun; simpl in Hout; [|discriminate].
  pose proof (denom_keys_are_labels self d _ _ _
                (fun l => proj1 (init_denom_keys self l)) Hrun) as Hms.
  destruct (accumulate_members_keys self d _ _ (init_labels_are_keys self) Hms)
    as (acc2 & Hrun2 & Hwf).
  rewrite Hrun in Hrun2. injection Hrun2 as <-.
  destruct (create_after_accumulation self d acc Hrun Hwf)
    as (out' & Hout' & Hoc & Hod & Hprob & _).
  unfold create_ensemble_probabilities in Hout'. rewrite Hrun in Hout'. simpl in Hout'.
  rewrite Hout in Hout'. injection Hout' as <-.
  assert (Hinit : counts_by_bin (init_accumulators self) !! lbl
                  = Some (zeros (height self) (width self))).
  { simpl. rewrite dict_of_labels_lookup, decide_True by assumption. reflexivity. }
  destruct (accumulate_members_cell self d _ _ acc lbl _ r c 0 Hrun Hinit
              (cell_at_zeros _ _ r c Hr Hc)) as (counts & Hcounts & Hcell);
    [unfold uint16_modulus; lia | exact Hr | exact Hc |].
  rewrite Z.add_0_l in Hcell. fold k in Hcell.
  split.
  - exists counts. rewrite Hoc. split; assumption.
  - intros Hn Hsmall.
    assert (Hden : denom_by_bin acc !! lbl = Some (Z.of_nat n)).
    { rewrite (accumulate_members_denoms self d _ _ acc lbl 0 Hrun); [reflexivity|].
      simpl. rewrite dict_of_labels_lookup, decide_True by assumption. reflexivity. }
    exists (probability_grid (Z.of_nat n) counts). split.
    + rewrite Hprob, decide_True by assumption. unfold emitted.
      rewrite Hden, Hcounts.
      destruct (Z.of_nat n =? 0) eqn:Hz; [apply Z.eqb_eq in Hz; lia | reflexivity].
    + rewrite cell_at_probability_grid, Hcell. simpl. eexists. split; [reflexivity|].
      assert (Hk : (k <= n)%nat) by apply covering_le_members.
      rewrite Z.mod_small by (unfold uint16_modulus in *; lia).
      unfold probability_cell. apply clip01_id.
      * apply Qle_shift_div_l.
        -- change 0%Q with (inject_Z 0). rewrite <- Zlt_Qlt. lia.
        -- rewrite Qmult_0_l. change 0%Q with (inject_Z 0). rewrite <- Zle_Qle. lia.
      * apply Qle_shift_div_r.
        -- change 0%Q with (inject_Z 0). rewrite <- Zlt_Qlt. lia.
        -- rewrite Qmult_1_l. rewrite <- Zle_Qle. lia.
Qed.

End CountProperties.

(** ** The shape of the grids *)

Lemma make_grid_shape {A} (h w : nat) (f : nat -> nat -> A) : has_shape (make_grid h w f) h w.
Proof.
  unfold has_shape, make_grid. split.
  - rewrite length_fmap, length_seq. reflexivity.
  - apply Forall_fmap, Forall_forall. intros r _. simpl.
    rewrite length_fmap, length_seq. reflexivity.
Qed.

Lemma grid_add_shape (g t : list (list Z)) (h w : nat) :
  has_shape g h w -> has_shape t h w -> has_shape (grid_add g t) h w.
Proof.
  unfold has_shape, grid_add. intros [Hg Hgr] [Ht Htr]. split.
  - rewrite length_zip_with. lia.
  - clear Hg Ht. revert t Htr. induction Hgr as [|row g Hrow Hgr IH]; intros t Htr.
    + constructor.
    + destruct Htr as [|row' t Hrow' Htr]; simpl; constructor.
      * rewrite length_zip_with. lia.
      * apply IH. exact Htr.
Qed.

Lemma probability_grid_shape (denom : Z) (g : list (list Z)) (h w : nat) :
  has_shape g h w -> has_shape (probability_grid denom g) h w.
Proof.
  unfold has_shape, probability_grid. intros [Hg Hgr]. split.
  - rewrite length_fmap. exact Hg.
  - apply Forall_fmap. eapply Forall_impl; [exact Hgr|].
    intros row Hrow. simpl. rewrite length_fmap. exact Hrow.
Qed.

Section ShapeProperties.
Context {G : Type} `{Shapely G}.

Lemma accumulate_members_shape (self : EnsembleProcessor) (d : disk G)
    (ms : list member) (acc acc' : accumulators) :
  (forall l g, counts_by_bin acc !! l = Some g -> has_shape g (height self) (width self)) ->
  accumulate_members self d acc ms = Ok acc' ->
  forall l g, counts_by_bin acc' !! l = Some g -> has_shape g (height self) (width self).
Proof.
  revert acc. induction ms as [|mem ms IH]; intros acc Hacc Hrun; simpl in Hrun.
  - injection Hrun as <-. exact Hacc.
  - destruct (denom_by_bin acc !! label_of self mem) as [n|] eqn:Hn.
    2:{ rewrite (accumulate_member_Raise self d acc mem Hn) in Hrun. discriminate. }
    destruct (accumulate_member_Ok self d acc mem n Hn) as (a1 & Hstep & _ & Hc1).
    rewrite Hstep in Hrun. simpl in Hrun.
    apply (IH a1); [|exact Hrun].
    intros l g. rewrite Hc1. unfold member_grid.
    destruct (read_file d (path mem)) as [|geometry]; simpl; [apply Hacc|].
    destruct (burnable_shapes geometry) as [|s shapes]; simpl; [apply Hacc|].
    destruct (decide (label_of self mem = l)) as [<-|Hne].
    + rewrite lookup_alter_eq.
      destruct (counts_by_bin acc !! label_of self mem) as [g0|] eqn:Hg0; simpl;
        [|discriminate].
      intros [= <-]. apply grid_add_shape; [eapply Hacc; exact Hg0|].
      apply make_grid_shape.
    + rewrite lookup_alter_ne by assumption. apply Hacc.
Qed.

(** X4. After a run that ends, every count grid and every probability
    grid has the shape of the shared output grid: [height] rows of
    [width] cells. *)
Theorem output_grids_have_grid_shape (self : EnsembleProcessor) (d : disk G)
    (out : ensemble_output) :
  create_ensemble_probabilities self d = Ok out ->
  (forall lbl g, out_counts out !! lbl = Some g -> has_shape g (height self) (width self))
  /\ (forall lbl p, prob_grids out !! lbl = Some p -> has_shape p (height self) (width self)).
Proof.
  intros Hout. unfold create_ensemble_probabilities in Hout.
  destruct (accumulate_members self d (init_accumulators self) (current_members self d))
    as [acc|] eqn:Hrun; simpl in Hout; [|discriminate].
  assert (Hshape : forall l g, counts_by_bin acc !! l = Some g ->
                               has_shape g (height self) (width self)).
  { eapply (accumulate_members_shape self d _ _ acc); [|exact Hrun].
    intros l g. simpl. rewrite dict_of_labels_lookup.
    destruct (decide (l ∈ bin_labels self)); [|discriminate].
    intros [= <-]. apply make_grid_shape. }
  pose proof (denom_keys_are_labels self d _ _ _
                (fun l => proj1 (init_denom_keys self l)) Hrun) as Hms.
  destruct (accumulate_members_keys self d _ _ (init_labels_are_keys self) Hms)
    as (acc2 & Hrun2 & Hwf).
  rewrite Hrun in Hrun2. injection Hrun2 as <-.
  destruct (create_after_accumulation self d acc Hrun Hwf)
    as (out' & Hout' & Hoc & _ & Hprob & _).
  unfold create_ensemble_probabilities in Hout'. rewrite Hrun in Hout'. simpl in Hout'.
  rewrite Hout in Hout'. injection Hout' as <-.
  split.
  - intros lbl g. rewrite Hoc. apply Hshape.
  - intros lbl p. rewrite Hprob. destruct (decide (lbl ∈ bin_labels self)); [|discriminate].
    unfold emitted.
    destruct (denom_by_bin acc !! lbl) as [n|]; [|discriminate].
    destruct (counts_by_bin acc !! lbl) as [g|] eqn:Hg; [|discriminate].
    destruct (n =? 0); [discriminate|].
    intros [= <-]. apply probability_grid_shape. eapply Hshape. exact Hg.
Qed.

(** The final loop over bins that are all empty: one warning per
    label, in the order of the labels, and no grid. *)
Lemma emit_bins_all_empty (acc : accumulators) (labels : list string)
    (st : gmap string (list (list Q)) * list warning) :
  (forall l, l ∈ labels -> denom_by_bin acc !! l = Some 0) ->
  emit_bins acc labels st = Ok (st.1, st.2 ++ (NoMembersForBin <$> labels)).
Proof.
  revert st. induction labels as [|x labels IH]; intros st Hzero; cbn [emit_bins].
  - simpl. rewrite app_nil_r. destruct st; reflexivity.
  - unfold emit_bin at 1. rewrite (Hzero x) by (by left). simpl.
    rewrite IH by (intros l Hl; apply Hzero; by right). simpl.
    rewrite <- app_assoc. reflexivity.
Qed.

Lemma no_members_collected (self : EnsembleProcessor) (d : disk G) :
  current_members self d = [] ->
  members self = [] /\ collection_warnings self d = (collect_members d).2.
Proof.
  unfold current_members, collection_warnings, ensure_members.
  destruct (members self) as [|m ms]; [auto | discriminate].
Qed.

(** X5. Without any Member (the processor has none and no member file
    under the root directory can be read) the run ends, writes no
    probability grid and leaves every denominator at 0; its warnings
    are those of the collection, for the member files that cannot be
    read, followed by one warning for each configured label, in their
    order. *)
Theorem no_member_no_grid (self : EnsembleProcessor) (d : disk G) :
  current_members self d = [] ->
  exists out,
    create_ensemble_probabilities self d = Ok out /\
    prob_grids out = ∅ /\
    out_warnings out = (collect_members d).2 ++ (NoMembersForBin <$> bin_labels self) /\
    forall lbl, lbl ∈ bin_labels self -> out_denoms out !! lbl = Some 0.
Proof.
  intros Hnone. destruct (no_members_collected self d Hnone) as [_ Hws].
  unfold create_ensemble_probabilities. rewrite Hnone, Hws. cbn [accumulate_members bind].
  rewrite emit_bins_all_empty.
  - cbn [bind fst snd]. eexists. split; [reflexivity|].
    cbn [prob_grids out_warnings out_denoms init_accumulators warnings denom_by_bin].
    rewrite app_nil_r. repeat split.
    intros lbl Hlbl. rewrite dict_of_labels_lookup, decide_True by assumption. reflexivity.
  - intros l Hl. simpl. rewrite dict_of_labels_lookup, decide_True by assumption.
    reflexivity.
Qed.

End ShapeProperties.

(** ** Collecting the Members *)

Section CollectProperties.
Context {G : Type}.

Lemma collect_members_iff (d : disk G) :
  (forall m,
      m ∈ (collect_members d).1 <->
      exists f fxx_ thr_ geometry,
        f ∈ d /\ p_method (f_path f) <> "ensemble_probability"%string /\
        f_match f = Some (fxx_, thr_) /\ f_content f = Frame geometry /\
        m = {| method := p_method (f_path f); date := p_date (f_path f);
               fxx := fxx_; thr := thr_; path := f_path f |})
  /\ (forall w,
        w ∈ (collect_members d).2 <->
        exists f fxx_thr,
          f ∈ d /\ p_method (f_path f) <> "ensemble_probability"%string /\
          f_match f = Some fxx_thr /\ f_content f = Unreadable /\
          w = FailedToRead (f_path f)).
Proof.
  assert (Hfile : forall f : disk_file G,
    (forall m, m ∈ (collect_file f).1 <->
       exists fxx_ thr_ geometry,
         p_method (f_path f) <> "ensemble_probability"%string /\
         f_match f = Some (fxx_, thr_) /\ f_content f = Frame geometry /\
         m = {| method := p_method (f_path f); date := p_date (f_path f);
                fxx := fxx_; thr := thr_; path := f_path f |})
    /\ (forall w, w ∈ (collect_file f).2 <->
          exists fxx_thr,
            p_method (f_path f) <> "ensemble_probability"%string /\
            f_match f = Some fxx_thr /\ f_content f = Unreadable /\
            w = FailedToRead (f_path f))).
  { intros f. unfold collect_file.
    destruct (String.eqb_spec (p_method (f_path f)) "ensemble_probability") as [Heq|Hne].
    { split; intros x; (split; [intros Hx; inversion Hx|]).
      - intros (? & ? & ? & Hm & _). contradiction.
      - intros (? & Hm & _). contradiction. }
    destruct (f_match f) as [[fxx_ thr_]|].
    2:{ split; intros x; (split; [intros Hx; inversion Hx|]).
        - intros (? & ? & ? & _ & Hm & _). discriminate.
        - intros (? & _ & Hm & _). discriminate. }
    destruct (f_content f) as [|geometry]; simpl.
    - split; intros x.
      + split; [intros Hx; inversion Hx|]. intros (? & ? & ? & _ & _ & Hc & _). discriminate.
      + rewrite list_elem_of_singleton. split.
        * intros ->. exists (fxx_, thr_). auto.
        * intros (? & _ & _ & _ & ->). reflexivity.
    - split; intros x.
      + rewrite list_elem_of_singleton. split.
        * intros ->. exists fxx_, thr_, geometry. auto.
        * intros (? & ? & ? & _ & [= <- <-] & _ & ->). reflexivity.
      + split; [intros Hx; inversion Hx|]. intros (? & _ & _ & Hc & _). discriminate. }
  induction d as [|f rest [IHm IHw]]; simpl.
  - split; intros x; (split; [intros Hx; inversion Hx|]).
    + intros (f & ? & ? & ? & Hf & _). inversion Hf.
    + intros (f & ? & Hf & _). inversion Hf.
  - destruct (Hfile f) as [Hfm Hfw].
    destruct (collect_file f) as [ms ws]. destruct (collect_members rest) as [ms' ws'].
    simpl in *. split; intros x; rewrite elem_of_app.
    + rewrite Hfm, IHm. split.
      * intros [(a & b & g & Hx)|(f' & a & b & g & Hin & Hx)].
        -- exists f, a, b, g. split; [by left | exact Hx].
        -- exists f', a, b, g. split; [by right | exact Hx].
      * intros (f' & a & b & g & Hin & Hx). apply elem_of_cons in Hin.
        destruct Hin as [->|Hin]; [left | right]; eauto 10.
    + rewrite Hfw, IHw. split.
      * intros [(a & Hx)|(f' & a & Hin & Hx)].
        -- exists f, a. split; [by left | exact Hx].
        -- exists f', a. split; [by right | exact Hx].
      * intros (f' & a & Hin & Hx). apply elem_of_cons in Hin.
        destruct Hin as [->|Hin]; [left | right]; eauto 10.
Qed.

(** X6. The Members collected from the root directory are exactly the
    files that lie outside the output directory ensemble_probability,
    carry a member name and can be read; each Member takes its method
    and date from the directories, its lead time and threshold from
    the name.  The warnings are exactly those of the named files
    outside the output directory that cannot be read. *)
Theorem collect_members_exact (d : disk G) :
  (forall m,
      m ∈ (collect_members d).1 <->
      exists f fxx_ thr_ geometry,
        f ∈ d /\ p_method (f_path f) <> "ensemble_probability"%string /\
        f_match f = Some (fxx_, thr_) /\ f_content f = Frame geometry /\
        m = {| method := p_method (f_path f); date := p_date (f_path f);
               fxx := fxx_; thr := thr_; path := f_path f |})
  /\ (forall w,
        w ∈ (collect_members d).2 <->
        exists f fxx_thr,
          f ∈ d /\ p_method (f_path f) <> "ensemble_probability"%string /\
          f_match f = Some fxx_thr /\ f_content f = Unreadable /\
          w = FailedToRead (f_path f)).
Proof. apply collect_members_iff. Qed.

End CollectProperties.

(** ** The warnings of a run *)

Section WarningProperties.
Context {G : Type} `{Shapely G}.

Lemma accumulate_member_warnings (self : EnsembleProcessor) (d : disk G)
    (acc : accumulators) (mem : member) :
  labels_are_keys self acc -> label_of self mem ∈ bin_labels self ->
  exists acc',
    accumulate_member self d acc mem = Ok acc' /\
    labels_are_keys self acc' /\
    warnings acc' =
      warnings acc ++ (if unreadable d mem then [FailedToProcessMember (path mem)] else []).
Proof.
  intros Hwf Hl.
  destruct (accumulate_member_keys self d acc mem Hwf Hl) as (acc' & Hrun & Hwf').
  exists acc'. split; [exact Hrun|]. split; [exact Hwf'|].
  destruct (Hwf _ Hl) as [(n & Hn & _) (g & Hg)].
  unfold accumulate_member in Hrun. rewrite Hn in Hrun. unfold unreadable.
  destruct (read_file d (path mem)) as [|geometry].
  - injection Hrun as <-. reflexivity.
  - destruct geometry as [|o geometry].
    + injection Hrun as <-. simpl. rewrite app_nil_r. reflexivity.
    + destruct (burnable_shapes (o :: geometry)).
      * injection Hrun as <-. simpl. rewrite app_nil_r. reflexivity.
      * rewrite Hg in Hrun. injection Hrun as <-. simpl. rewrite app_nil_r. reflexivity.
Qed.

Lemma accumulate_members_warnings (self : EnsembleProcessor) (d : disk G)
    (ms : list member) (acc : accumulators) :
  labels_are_keys self acc ->
  (forall m, m ∈ ms -> label_of self m ∈ bin_labels self) ->
  exists acc',
    accumulate_members self d acc ms = Ok acc' /\
    labels_are_keys self acc' /\
    warnings acc' =
      warnings acc ++ ((fun m => FailedToProcessMember (path m)) <$> List.filter (unreadable d) ms).
Proof.
  revert acc. induction ms as [|mem ms IH]; intros acc Hwf Hms; simpl.
  - exists acc. rewrite app_nil_r. auto.
  - destruct (accumulate_member_warnings self d acc mem Hwf) as (a1 & -> & Hwf1 & Hw1).
    { apply Hms. by left. }
    simpl. destruct (IH a1 Hwf1) as (acc' & Hrun & Hwf' & Hw').
    { intros m Hm. apply Hms. by right. }
    exists acc'. split; [exact Hrun|]. split; [exact Hwf'|].
    rewrite Hw', Hw1, <- app_assoc. f_equal.
    destruct (unreadable d mem); reflexivity.
Qed.

Lemma emit_bins_warnings (self : EnsembleProcessor) (acc : accumulators)
    (labels : list string) (st st' : gmap string (list (list Q)) * list warning) :
  labels_are_keys self acc ->
  (forall l, l ∈ labels -> l ∈ bin_labels self) ->
  emit_bins acc labels st = Ok st' ->
  st'.2 = st.2 ++ (NoMembersForBin <$> empty_bins labels (denom_by_bin acc)).
Proof.
  intros Hwf. revert st. induction labels as [|x labels IH]; intros st Hsub Hrun;
    cbn [emit_bins] in Hrun.
  - injection Hrun as <-. simpl. rewrite app_nil_r. reflexivity.
  - destruct (Hwf x) as [(n & Hn & _) (g & Hg)]; [apply Hsub; by left|].
    unfold emit_bin in Hrun at 1. rewrite Hn in Hrun.
    unfold empty_bins. simpl. fold (empty_bins labels (denom_by_bin acc)).
    destruct (n =? 0) eqn:Hz; simpl in Hrun.
    + apply Z.eqb_eq in Hz. subst n.
      rewrite bool_decide_eq_true_2 by exact Hn.
      rewrite (IH _ (fun l Hl => Hsub l (list_elem_of_further _ _ _ Hl)) Hrun). simpl.
      rewrite <- app_assoc. reflexivity.
    + apply Z.eqb_neq in Hz.
      rewrite bool_decide_eq_false_2 by (rewrite Hn; congruence).
      rewrite Hg in Hrun. simpl in Hrun.
      rewrite (IH _ (fun l Hl => Hsub l (list_elem_of_further _ _ _ Hl)) Hrun). reflexivity.
Qed.

Lemma create_warnings (self : EnsembleProcessor) (d : disk G) (out : ensemble_output) :
  create_ensemble_probabilities self d = Ok out ->
  out_warnings out =
    collection_warnings self d
    ++ ((fun m => FailedToProcessMember (path m))
          <$> List.filter (unreadable d) (current_members self d))
    ++ (NoMembersForBin <$> empty_bins (bin_labels self) (out_denoms out)).
Proof.
  intros Hout. unfold create_ensemble_probabilities in Hout.
  destruct (accumulate_members self d (init_accumulators self) (current_members self d))
    as [acc|] eqn:Hrun; simpl in Hout; [|discriminate].
  pose proof (denom_keys_are_labels self d _ _ _
                (fun l => proj1 (init_denom_keys self l)) Hrun) as Hms.
  destruct (accumulate_members_warnings self d _ _ (init_labels_are_keys self) Hms)
    as (acc2 & Hrun2 & Hwf & Hw).
  rewrite Hrun in Hrun2. injection Hrun2 as <-.
  destruct (emit_bins acc (bin_labels self) _) as [st|] eqn:Hemit;
    simpl in Hout; [|discriminate].
  injection Hout as <-. simpl.
  rewrite (emit_bins_warnings self acc _ _ st Hwf (fun l Hl => Hl) Hemit). simpl.
  rewrite Hw. simpl. rewrite <- app_assoc. reflexivity.
Qed.

(** X7. The warnings of a run that ends are, in this order: those of
    the collection of the Members, when the run collects them itself,
    one for each member file that cannot be read; then one failure
    warning for each Member whose file cannot be read by the
    accumulation loop, in the order of the Members; then one empty-bin
    warning for each configured label whose denominator is 0, in the
    order of the labels. *)
Theorem run_warnings_exact (self : EnsembleProcessor) (d : disk G) (out : ensemble_output) :
  create_ensemble_probabilities self d = Ok out ->
  out_warnings out =
    collection_warnings self d
    ++ ((fun m => FailedToProcessMember (path m))
          <$> List.filter (unreadable d) (current_members self d))
    ++ (NoMembersForBin <$> empty_bins (bin_labels self) (out_denoms out)).
Proof. apply create_warnings. Qed.

Lemma read_file_listed (d : disk G) (f : disk_file G) :
  NoDup (f_path <$> d) -> f ∈ d -> read_file d (f_path f) = f_content f.
Proof.
  unfold read_file. induction d as [|f0 rest IH]; intros Hnd Hin.
  - inversion Hin.
  - simpl in Hnd. apply NoDup_cons in Hnd. destruct Hnd as [Hfresh Hnd].
    simpl. destruct (decide (f_path f0 = f_path f)) as [Heq|Hne].
    + rewrite bool_decide_eq_true_2 by assumption.
      apply elem_of_cons in Hin. destruct Hin as [->|Hin]; [reflexivity|].
      exfalso. apply Hfresh. rewrite Heq. apply list_elem_of_fmap. eauto.
    + rewrite bool_decide_eq_false_2 by assumption.
      apply elem_of_cons in Hin. destruct Hin as [->|Hin]; [congruence|].
      apply IH; assumption.
Qed.

(** X8. When the Members are those collected from the root directory
    (the processor has none of its own) and no two files have the same
    path, every collected Member can be read again by the accumulation
    loop: a run that ends issues no Member failure warning.  Its
    warnings are those of the collection, for the member files that
    cannot be read, followed by the empty-bin warnings. *)
Theorem collected_members_are_readable (self : EnsembleProcessor) (d : disk G)
    (out : ensemble_output) :
  members self = [] ->
  NoDup (f_path <$> d) ->
  create_ensemble_probabilities self d = Ok out ->
  (forall m, m ∈ current_members self d -> unreadable d m = false)
  /\ out_warnings out =
       (collect_members d).2
       ++ (NoMembersForBin <$> empty_bins (bin_labels self) (out_denoms out)).
Proof.
  intros Hnone Hnd Hout.
  assert (Hread : forall m, m ∈ current_members self d -> unreadable d m = false).
  { intros m Hm. unfold current_members, ensure_members in Hm. rewrite Hnone in Hm.
    apply (proj1 (collect_members_iff d)) in Hm.
    destruct Hm as (f & a & b & g & Hin & _ & _ & Hc & ->).
    unfold unreadable. simpl. rewrite (read_file_listed d f Hnd Hin), Hc. reflexivity. }
  split; [exact Hread|].
  rewrite (create_warnings self d out Hout).
  replace (collection_warnings self d) with (collect_members d).2
    by (unfold collection_warnings, ensure_members; rewrite Hnone; reflexivity).
  replace (List.filter (unreadable d) (current_members self d)) with (@nil member);
    [reflexivity|].
  symmetry. induction (current_members self d) as [|m ms IH]; [reflexivity|].
  simpl. rewrite (Hread m) by (by left). apply IH.
  intros m' Hm'. apply Hread. by right.
Qed.

End WarningProperties.

(** ** The order of the group keys *)

Lemma ascii_compare_trans (a b c : Ascii.ascii) :
  Ascii.compare a b = Lt -> Ascii.compare b c = Lt -> Ascii.compare a c = Lt.
Proof.
  unfold Ascii.compare. rewrite !N.compare_lt_iff. lia.
Qed.

Lemma ascii_compare_eq (a b : Ascii.ascii) : Ascii.compare a b = Eq -> a = b.
Proof.
  unfold Ascii.compare. intros Hc. apply N.compare_eq in Hc.
  rewrite <- (Ascii.ascii_N_embedding a), <- (Ascii.ascii_N_embedding b), Hc. reflexivity.
Qed.

Lemma string_compare_trans (s1 s2 s3 : string) :
  String.compare s1 s2 = Lt -> String.compare s2 s3 = Lt -> String.compare s1 s3 = Lt.
Proof.
  revert s2 s3. induction s1 as [|a s1 IH]; intros [|b s2] [|c s3]; simpl;
    try discriminate; try reflexivity.
  destruct (Ascii.compare a b) eqn:Hab; try discriminate;
    destruct (Ascii.compare b c) eqn:Hbc; try discriminate; intros H12 H23.
  - apply ascii_compare_eq in Hab. apply ascii_compare_eq in Hbc. subst.
    assert (Hcc : Ascii.compare c c = Eq).
    { unfold Ascii.compare. apply N.compare_refl. }
    rewrite Hcc. eapply IH; eassumption.
  - apply ascii_compare_eq in Hab. subst. rewrite Hbc. reflexivity.
  - apply ascii_compare_eq in Hbc. subst. rewrite Hab. reflexivity.
  - rewrite (ascii_compare_trans a b c Hab Hbc). reflexivity.
Qed.

Lemma key_compare_trans (k1 k2 k3 : group_key) :
  key_compare k1 k2 = Lt -> key_compare k2 k3 = Lt -> key_compare k1 k3 = Lt.
Proof.
  destruct k1 as [[a1 b1] s1], k2 as [[a2 b2] s2], k3 as [[a3 b3] s3].
  unfold key_compare; simpl.
  destruct (a1 ?= a2) eqn:Ha12; try discriminate;
    destruct (a2 ?= a3) eqn:Ha23; try discriminate.
  - apply Z.compare_eq in Ha12, Ha23. subst. rewrite Z.compare_refl.
    destruct (b1 ?= b2) eqn:Hb12; try discriminate;
      destruct (b2 ?= b3) eqn:Hb23; try discriminate.
    + apply Z.compare_eq in Hb12, Hb23. subst. rewrite Z.compare_refl.
      apply string_compare_trans.
    + apply Z.compare_eq in Hb12. subst. rewrite Hb23. reflexivity.
    + apply Z.compare_eq in Hb23. subst. rewrite Hb12. reflexivity.
    + intros _ _. rewrite Z.compare_lt_iff in Hb12, Hb23.
      destruct (b1 ?= b3) eqn:Hb13; try reflexivity.
      * apply Z.compare_eq in Hb13. lia.
      * rewrite Z.compare_gt_iff in Hb13. lia.
  - apply Z.compare_eq in Ha12. subst. rewrite Ha23. reflexivity.
  - apply Z.compare_eq in Ha23. subst. rewrite Ha12. reflexivity.
  - intros _ _. rewrite Z.compare_lt_iff in Ha12, Ha23.
    destruct (a1 ?= a3) eqn:Ha13; try reflexivity.
    + apply Z.compare_eq in Ha13. lia.
    + rewrite Z.compare_gt_iff in Ha13. lia.
Qed.

Lemma key_compare_antisym (k1 k2 : group_key) :
  key_compare k1 k2 = CompOpp (key_compare k2 k1).
Proof.
  destruct k1 as [[a1 b1] s1], k2 as [[a2 b2] s2]. unfold key_compare; simpl.
  rewrite (Z.compare_antisym a2 a1), (Z.compare_antisym b2 b1),
    (String.compare_antisym s1 s2).
  destruct (a2 ?= a1); simpl; try reflexivity.
  destruct (b2 ?= b1); simpl; reflexivity.
Qed.

(** The keys kept by [insert_key] stay in strictly increasing order. *)
Lemma insert_key_sorted (k : group_key) (ks : list group_key) :
  StronglySorted (fun a b => key_compare a b = Lt) ks ->
  StronglySorted (fun a b => key_compare a b = Lt) (insert_key k ks).
Proof.
  induction 1 as [|k' ks Hs IH Hall]; simpl.
  - repeat constructor.
  - destruct (key_compare k k') eqn:Hc.
    + constructor; assumption.
    + constructor; [constructor; assumption|].
      constructor; [exact Hc|].
      eapply Forall_impl; [exact Hall|]. intros x Hx. simpl in Hx.
      eapply key_compare_trans; eassumption.
    + constructor; [exact IH|].
      apply Forall_forall. intros x Hx. apply elem_of_insert_key in Hx.
      destruct Hx as [->|Hx].
      * rewrite key_compare_antisym, Hc. reflexivity.
      * rewrite Forall_forall in Hall. apply Hall. exact Hx.
Qed.

Lemma sorted_keys_NoDup (ks : list group_key) :
  StronglySorted (fun a b => key_compare a b = Lt) ks -> NoDup ks.
Proof.
  induction 1 as [|k ks Hs IH Hall]; constructor; [|exact IH].
  intros Hin. rewrite Forall_forall in Hall. specialize (Hall _ Hin).
  rewrite key_compare_refl in Hall. discriminate.
Qed.

(** ** The ranked table *)

Lemma non_increasing_cons (x : Z) (l : list Z) :
  non_increasing (x :: l) <-> (forall y, y ∈ l -> y <= x) /\ non_increasing l.
Proof.
  unfold non_increasing. split.
  - intros Hni. split.
    + intros y Hy. apply list_elem_of_lookup in Hy. destruct Hy as [j Hj].
      apply (Hni 0%nat (S j) x y); [lia | reflexivity | exact Hj].
    + intros i j a b Hij Hi Hj. apply (Hni (S i) (S j) a b); [lia | exact Hi | exact Hj].
  - intros [Hhead Htail] i j a b Hij Hi Hj.
    destruct j as [|j]; [lia|]. simpl in Hj. destruct i as [|i]; simpl in Hi.
    + injection Hi as <-. apply Hhead. eapply list_elem_of_lookup_2. exact Hj.
    + apply (Htail i j a b); [lia | exact Hi | exact Hj].
Qed.

Lemma non_increasing_take (n : nat) (l : list Z) :
  non_increasing l -> non_increasing (take n l).
Proof.
  unfold non_increasing. intros Hni i j a b Hij Hi Hj.
  apply lookup_take_Some in Hi, Hj. destruct Hi as [Hi _], Hj as [Hj _].
  apply (Hni i j a b Hij Hi Hj).
Qed.

Lemma head_take {A} (n : Z) (l : list A) : exists m, head n l = take m l.
Proof. unfold head. destruct (n <? 0); eauto. Qed.

Section TableProperties.
Context {G : Type} `{Shapely G}.

Lemma insert_by_count_perm (g : risk_group) (gs : list risk_group) :
  Permutation (insert_by_count g gs) (g :: gs).
Proof.
  induction gs as [|g' gs IH]; simpl; [reflexivity|].
  destruct (ensemble_count g' <=? ensemble_count g); [reflexivity|].
  rewrite IH. apply perm_swap.
Qed.

Lemma sort_by_count_perm (gs : list risk_group) : Permutation (sort_by_count gs) gs.
Proof.
  induction gs as [|g gs IH]; simpl; [reflexivity|].
  rewrite insert_by_count_perm, IH. reflexivity.
Qed.

Lemma insert_by_count_sorted (g : risk_group) (gs : list risk_group) :
  non_increasing (ensemble_count <$> gs) ->
  non_increasing (ensemble_count <$> insert_by_count g gs).
Proof.
  induction gs as [|g' gs IH]; simpl; intros Hs.
  - apply non_increasing_cons. split; [intros y Hy; inversion Hy | exact Hs].
  - apply non_increasing_cons in Hs. destruct Hs as [Hhead Htail].
    destruct (ensemble_count g' <=? ensemble_count g) eqn:Hle.
    + apply Z.leb_le in Hle. simpl. apply non_increasing_cons. split.
      * intros y Hy. apply elem_of_cons in Hy. destruct Hy as [->|Hy]; [exact Hle|].
        specialize (Hhead y Hy). lia.
      * apply non_increasing_cons. auto.
    + apply Z.leb_gt in Hle. simpl. apply non_increasing_cons. split; [|apply IH; exact Htail].
      intros y Hy. apply list_elem_of_fmap in Hy. destruct Hy as (x & -> & Hx).
      apply elem_of_insert_by_count in Hx. destruct Hx as [->|Hx]; [lia|].
      apply Hhead. apply list_elem_of_fmap. eauto.
Qed.

Lemma sort_by_count_sorted (gs : list risk_group) :
  non_increasing (ensemble_count <$> sort_by_count gs).
Proof.
  induction gs as [|g gs IH]; simpl.
  - intros i j a b _ Hi. destruct i; discriminate.
  - apply insert_by_count_sorted. exact IH.
Qed.

(** X9. The ranked table is in non-increasing order of ensemble_count:
    no row has a larger count than a row above it. *)
Theorem ranked_table_sorted (self : EnsembleProcessor) (d : disk G)
    (census_gdf : option census_layer) (top_n : Z) :
  non_increasing (ensemble_count <$> rank_aois_by_probability self d census_gdf top_n).
Proof.
  unfold rank_aois_by_probability.
  destruct (collect_aoi_data self d (current_members self d)).1 as [|a rows].
  - intros i j x y _ Hi. destruct i; discriminate.
  - destruct (head_take top_n (sort_by_count (grouped census_gdf (a :: rows)))) as [m ->].
    rewrite fmap_take. apply non_increasing_take. apply sort_by_count_sorted.
Qed.

Lemma group_keys_sorted (rows : list aoi_record) :
  StronglySorted (fun a b => key_compare a b = Lt) (group_keys rows).
Proof.
  induction rows as [|a rows IH]; simpl; [constructor|].
  destruct (key_of a); [apply insert_key_sorted; exact IH | exact IH].
Qed.

Lemma key_of_make_group (census_gdf : option census_layer) (rows : list aoi_record)
    (k : group_key) :
  key_of_group (make_group census_gdf rows k) = k.
Proof. destruct k as [[lon lat] b]. reflexivity. Qed.

Lemma grouped_keys (census_gdf : option census_layer) (rows : list aoi_record) :
  key_of_group <$> grouped census_gdf rows = group_keys rows.
Proof.
  unfold grouped. induction (group_keys rows) as [|k ks IH]; simpl; [reflexivity|].
  rewrite key_of_make_group. f_equal. exact IH.
Qed.

Lemma length_sort_by_count (gs : list risk_group) : length (sort_by_count gs) = length gs.
Proof. apply Permutation_length. apply sort_by_count_perm. Qed.

(** X10. The ranked table has one row for each distinct
    (rounded centroid, bin) key found among the AOIs, cut to the first
    top_n rows: min(top_n, number of keys) rows for a top_n that is
    not negative, and all but the last -top_n rows for a negative
    one.  No two rows have the same key. *)
Theorem ranked_table_rows (self : EnsembleProcessor) (d : disk G)
    (census_gdf : option census_layer) (top_n : Z) :
  let table := rank_aois_by_probability self d census_gdf top_n in
  let keys := group_keys (aoi_rows self d) in
  NoDup keys
  /\ (forall k, k ∈ keys <-> exists a, a ∈ aoi_rows self d /\ key_of a = Some k)
  /\ NoDup (key_of_group <$> table)
  /\ (forall g, g ∈ table -> key_of_group g ∈ keys)
  /\ (0 <= top_n -> length table = Nat.min (Z.to_nat top_n) (length keys))
  /\ (top_n < 0 -> length table = (length keys - Z.to_nat (- top_n))%nat).
Proof.
  intros table keys. subst table keys.
  assert (Hnodup : forall rows : list aoi_record, NoDup (group_keys rows)).
  { intros rows. apply sorted_keys_NoDup, group_keys_sorted. }
  split; [apply Hnodup|]. split; [intros k; apply elem_of_group_keys|].
  unfold rank_aois_by_probability, aoi_rows.
  destruct (collect_aoi_data self d (current_members self d)).1 as [|a rows] eqn:Hrows.
  - simpl. repeat split.
    + constructor.
    + intros g Hg. inversion Hg.
    + intros _. rewrite Nat.min_0_r. reflexivity.
  - set (all := grouped census_gdf (a :: rows)).
    assert (Hperm : Permutation (key_of_group <$> sort_by_count all) (group_keys (a :: rows))).
    { rewrite sort_by_count_perm. unfold all. rewrite grouped_keys. reflexivity. }
    assert (Hlen : length (sort_by_count all) = length (group_keys (a :: rows))).
    { rewrite <- (Permutation_length Hperm), length_fmap. reflexivity. }
    split; [|split; [|split]].
    + destruct (head_take top_n (sort_by_count all)) as [m ->].
      rewrite fmap_take. eapply sublist_NoDup; [|apply sublist_take].
      rewrite Hperm. apply Hnodup.
    + intros g Hg. apply elem_of_head in Hg.
      rewrite <- Hperm. apply list_elem_of_fmap. eauto.
    + intros Hpos. unfold head. destruct (top_n <? 0) eqn:Hneg;
        [apply Z.ltb_lt in Hneg; lia|].
      rewrite length_take, Hlen. reflexivity.
    + intros Hneg. unfold head. apply Z.ltb_lt in Hneg. rewrite Hneg.
      rewrite length_take, Hlen. lia.
Qed.

End TableProperties.

(** ** Groups and AOI rows *)

Lemma sum_Z_perm (l l' : list Z) : Permutation l l' -> sum_Z l = sum_Z l'.
Proof.
  unfold sum_Z. induction 1; simpl; lia.
Qed.

Lemma sum_indicator {A} `{EqDecision A} (k0 : A) (ks : list A) :
  NoDup ks ->
  sum_Z ((fun k => if decide (k = k0) then 1 else 0) <$> ks) = if decide (k0 ∈ ks) then 1 else 0.
Proof.
  unfold sum_Z. induction 1 as [|k ks Hk Hnd IH].
  - destruct (decide (k0 ∈ [])) as [Hin|]; [inversion Hin | reflexivity].
  - rewrite fmap_cons. cbn [fold_right].
    rewrite IH. destruct (decide (k = k0)) as [->|Hne].
    + rewrite (decide_False (P := k0 ∈ ks)) by assumption.
      rewrite decide_True by (by left). reflexivity.
    + destruct (decide (k0 ∈ ks)) as [Hin|Hnin].
      * rewrite decide_True by (by right). reflexivity.
      * rewrite decide_False; [reflexivity|].
        intros [?|?]%elem_of_cons; [congruence | contradiction].
Qed.

Lemma sum_Z_add {A} (f g : A -> Z) (l : list A) :
  sum_Z ((fun k => f k + g k) <$> l) = sum_Z (f <$> l) + sum_Z (g <$> l).
Proof.
  unfold sum_Z. induction l as [|k l IH]; [reflexivity|].
  rewrite !fmap_cons. cbn [fold_right]. lia.
Qed.

Lemma sum_Z_ext {A} (f g : A -> Z) (l : list A) :
  (forall k, k ∈ l -> f k = g k) -> sum_Z (f <$> l) = sum_Z (g <$> l).
Proof.
  unfold sum_Z. induction l as [|k l IH]; intros Hfg; [reflexivity|].
  rewrite !fmap_cons. cbn [fold_right].
  rewrite (Hfg k) by (by left). rewrite IH; [reflexivity|].
  intros x Hx. apply Hfg. by right.
Qed.

Lemma sum_Z_zero {A} (l : list A) : sum_Z ((fun _ => 0) <$> l) = 0.
Proof.
  unfold sum_Z. induction l as [|k l IH]; [reflexivity|].
  rewrite fmap_cons. cbn [fold_right]. lia.
Qed.

Section GroupProperties.
Context {G : Type} `{Shapely G}.

(** Over a duplicate-free list of keys that holds the key of every row,
    the sizes of the groups add up to the number of rows with a key. *)
Lemma group_sizes_sum (ks : list group_key) (rows : list aoi_record) :
  NoDup ks ->
  (forall a k, a ∈ rows -> key_of a = Some k -> k ∈ ks) ->
  sum_Z ((fun k => Z.of_nat (length (rows_of_group rows k))) <$> ks)
  = Z.of_nat (length (keyed_rows rows)).
Proof.
  intros Hnd. induction rows as [|a rows IH]; intros Hkeys.
  - rewrite (sum_Z_ext _ (fun _ => 0)) by reflexivity. apply sum_Z_zero.
  - assert (IH' := IH (fun b k Hb => Hkeys b k (list_elem_of_further _ _ _ Hb))).
    unfold keyed_rows, rows_of_group in *. simpl.
    destruct (key_of a) as [k0|] eqn:Hka.
    + rewrite bool_decide_eq_true_2 by eauto.
      rewrite (sum_Z_ext _ (fun k => Z.of_nat (length (List.filter
                  (fun a0 => bool_decide (key_of a0 = Some k)) rows))
                + (if decide (k = k0) then 1 else 0))).
      * rewrite sum_Z_add, IH', (sum_indicator k0 ks Hnd).
        rewrite decide_True by (apply (Hkeys a k0); [by left | exact Hka]).
        simpl length. lia.
      * intros k _. destruct (decide (k = k0)) as [->|Hne].
        -- rewrite bool_decide_eq_true_2 by reflexivity. simpl length. lia.
        -- rewrite bool_decide_eq_false_2 by congruence. lia.
    + rewrite bool_decide_eq_false_2 by (intros [? ?]; discriminate).
      rewrite <- IH'. apply sum_Z_ext. intros k _.
      rewrite bool_decide_eq_false_2 by discriminate. reflexivity.
Qed.

(** X11. In a ranked table that is not cut (top_n at least the number
    of keys), the ensemble counts add up to the number of AOIs that
    have a centroid: every such AOI is counted in exactly one group. *)
Theorem groups_partition_aois (self : EnsembleProcessor) (d : disk G)
    (census_gdf : option census_layer) (top_n : Z) :
  Z.of_nat (length (group_keys (aoi_rows self d))) <= top_n ->
  sum_Z (ensemble_count <$> rank_aois_by_probability self d census_gdf top_n)
  = Z.of_nat (length (keyed_rows (aoi_rows self d))).
Proof.
  intros Htop. unfold rank_aois_by_probability, aoi_rows in *.
  destruct (collect_aoi_data self d (current_members self d)).1 as [|a rows]; [reflexivity|].
  set (all := a :: rows) in *.
  rewrite head_all.
  2:{ rewrite length_sort_by_count. unfold grouped. rewrite length_map. exact Htop. }
  rewrite (sum_Z_perm _ (ensemble_count <$> grouped census_gdf all)).
  2:{ apply fmap_Permutation. apply sort_by_count_perm. }
  rewrite <- (group_sizes_sum (group_keys all) all).
  - unfold grouped. rewrite <- list_fmap_compose.
    f_equal. apply list_fmap_ext. intros i k _. simpl.
    rewrite length_map. reflexivity.
  - apply sorted_keys_NoDup, group_keys_sorted.
  - intros b k Hb Hk. apply elem_of_group_keys. eauto.
Qed.

Lemma filterR_Raise {A} (f : A -> result bool) (l : list A) (a : A) (e : exception) :
  a ∈ l -> f a = Raise e -> exists e', filterR f l = Raise e'.
Proof.
  induction l as [|x l IH]; intros Hin Hfa; [inversion Hin|]. simpl.
  destruct (f x) as [b|e0] eqn:Hfx; simpl; [|eauto].
  apply elem_of_cons in Hin. destruct Hin as [->|Hin]; [congruence|].
  destruct (IH Hin Hfa) as [e' ->]. simpl. eauto.
Qed.

Lemma mapR_Raise {A B} (f : A -> result B) (l : list A) (a : A) (e : exception) :
  a ∈ l -> f a = Raise e -> exists e', mapR f l = Raise e'.
Proof.
  induction l as [|x l IH]; intros Hin Hfa; [inversion Hin|]. simpl.
  destruct (f x) as [b|e0] eqn:Hfx; simpl; [|eauto].
  apply elem_of_cons in Hin. destruct Hin as [->|Hin]; [congruence|].
  destruct (IH Hin Hfa) as [e' ->]. simpl. eauto.
Qed.

Lemma filterR_result {A} (f : A -> result bool) (l : list A) :
  (exists e, filterR f l = Raise e) \/
  filterR f l = Ok (List.filter (fun a => match f a with Ok true => true | _ => false end) l).
Proof.
  induction l as [|x l IH]; simpl; [by right|].
  destruct (f x) as [b|e0]; simpl; [|left; eauto].
  destruct IH as [[e ->] | ->]; simpl; [left; eauto|]. right. destruct b; reflexivity.
Qed.

(** The [try] block gives 0, or raises, as soon as the layer has no
    population column or a geometry operation on a unit fails. *)
Lemma population_try_degraded (census : census_layer) (combined : G) :
  find_pop_col (census_columns census) = None
  \/ (exists u e, u ∈ census_units census /\
                  geom_intersects (u_geometry u) combined = Raise e)
  \/ (exists u e, u ∈ census_units census /\
                  geom_intersects (u_geometry u) combined = Ok true /\
                  geom_intersection (u_geometry u) combined = Raise e) ->
  population_try census combined = Ok 0 \/ exists e, population_try census combined = Raise e.
Proof.
  intros Hcase. unfold population_try.
  destruct (filterR_result (fun u => geom_intersects (u_geometry u) combined)
              (census_units census)) as [[e ->]|Hfilter]; [right; simpl; eauto|].
  rewrite Hfilter. simpl.
  set (inter := List.filter _ (census_units census)) in *.
  destruct Hcase as [Hcol|[(u & e & Hu & Hraise)|(u & e & Hu & Htrue & Hraise)]].
  - destruct inter as [|u0 us]; [by left|].
    destruct (mapR (area_fraction combined) (u0 :: us)); simpl; [|right; eauto].
    rewrite Hcol. by left.
  - destruct (filterR_Raise (fun u => geom_intersects (u_geometry u) combined)
                _ u e Hu Hraise) as [e' He'].
    congruence.
  - assert (Hin : u ∈ inter).
    { apply list_elem_of_In. apply filter_In. split; [apply list_elem_of_In; exact Hu|].
      rewrite Htrue. reflexivity. }
    destruct inter as [|u0 us]; [inversion Hin|].
    destruct (mapR_Raise (area_fraction combined) (u0 :: us) u e Hin) as [e' He'].
    + unfold area_fraction. rewrite Hraise. reflexivity.
    + rewrite He'. right. simpl. eauto.
Qed.

(** X12. Missing or failing auxiliary data degrade the population
    estimate to 0 and never stop the ranking: a group gets
    population_affected = 0 when the population layer has none of the
    recognised population columns, when the intersection test raises
    on some unit, or when the intersection with an intersecting unit
    raises. *)
Theorem population_degrades_to_zero (self : EnsembleProcessor) (d : disk G)
    (census : census_layer) (top_n : Z) (g : risk_group) :
  g ∈ rank_aois_by_probability self d (Some census) top_n ->
  let combined :=
    combined_geometry (aoi_rows self d) (centroid_lon g) (centroid_lat g) in
  find_pop_col (census_columns census) = None
  \/ (exists u e, u ∈ census_units census /\
                  geom_intersects (u_geometry u) combined = Raise e)
  \/ (exists u e, u ∈ census_units census /\
                  geom_intersects (u_geometry u) combined = Ok true /\
                  geom_intersection (u_geometry u) combined = Raise e) ->
  population_affected g = Some 0.
Proof.
  intros Hg. destruct (ranked_group_is_aggregate _ _ _ _ _ Hg) as (k & Hk & ->).
  simpl. intros Hcase. f_equal. unfold group_population.
  destruct (matching_rows (aoi_rows self d) k.1.1 k.1.2) as [|a rest] eqn:Hm; [reflexivity|].
  unfold combined_geometry in Hcase. rewrite Hm in Hcase.
  destruct (population_try_degraded census _ Hcase) as [-> | [e ->]]; reflexivity.
Qed.

Lemma member_rows_all (self : EnsembleProcessor) (mem : member) (gs : list G) :
  a_geometry <$> (member_rows self mem (Some <$> gs)).1 = gs /\
  (member_rows self mem (Some <$> gs)).2 = false.
Proof.
  induction gs as [|g gs [IH1 IH2]]; [split; reflexivity|].
  rewrite fmap_cons. cbn [member_rows].
  destruct (member_rows self mem (Some <$> gs)) as [rows raised]. simpl in *.
  split; [f_equal; exact IH1 | exact IH2].
Qed.

Lemma member_rows_cut (self : EnsembleProcessor) (mem : member) (pre : list G)
    (post : list (option G)) :
  a_geometry <$> (member_rows self mem ((Some <$> pre) ++ None :: post)).1 = pre /\
  (member_rows self mem ((Some <$> pre) ++ None :: post)).2 = true.
Proof.
  induction pre as [|g pre [IH1 IH2]]; [split; reflexivity|].
  rewrite fmap_cons. cbn [app member_rows].
  destruct (member_rows self mem ((Some <$> pre) ++ None :: post)) as [rows raised].
  simpl in *. split; [f_equal; exact IH1 | exact IH2].
Qed.

(** X14. The AOI rows taken from one Member: none, with a warning, when
    its file cannot be read; all its polygons, in order and without
    warning, when every feature has a geometry; and when a feature has
    no geometry, only the polygons before it, with a warning: the
    features after it are lost.  Every row carries the method, date,
    lead time, threshold and bin label of its Member. *)
Theorem member_aois_rows (self : EnsembleProcessor) (d : disk G) (mem : member) :
  (read_file d (path mem) = Unreadable ->
   member_aois self d mem = ([], [FailedToProcess (path mem)]))
  /\ (forall gs,
        read_file d (path mem) = Frame (Some <$> gs) ->
        a_geometry <$> (member_aois self d mem).1 = gs /\
        (member_aois self d mem).2 = [])
  /\ (forall pre post,
        read_file d (path mem) = Frame ((Some <$> pre) ++ None :: post) ->
        a_geometry <$> (member_aois self d mem).1 = pre /\
        (member_aois self d mem).2 = [FailedToProcess (path mem)])
  /\ (forall a, a ∈ (member_aois self d mem).1 ->
        a_method a = method mem /\ a_date a = date mem /\ a_fxx a = fxx mem /\
        a_threshold a = thr mem /\ a_bin a = label_of self mem).
Proof.
  unfold member_aois. split; [|split; [|split]].
  - intros ->. reflexivity.
  - intros gs ->. destruct (member_rows_all self mem gs) as [Hrows Hraised].
    destruct (member_rows self mem (Some <$> gs)) as [rows raised]. simpl in *.
    subst raised. auto.
  - intros pre post ->. destruct (member_rows_cut self mem pre post) as [Hrows Hraised].
    destruct (member_rows self mem ((Some <$> pre) ++ None :: post)) as [rows raised].
    simpl in *. subst raised. auto.
  - destruct (read_file d (path mem)) as [|geometry]; [intros a Ha; inversion Ha|].
    induction geometry as [|o geometry IH]; simpl.
    + intros a Ha. inversion Ha.
    + destruct o as [g|]; [|intros a Ha; inversion Ha].
      destruct (member_rows self mem geometry) as [rows raised]. simpl in *.
      intros a Ha. apply elem_of_cons in Ha. destruct Ha as [->|Ha]; [simpl; auto|].
      apply IH. exact Ha.
Qed.

End GroupProperties.

(** ** Labelling *)

Lemma cell_at_set_cell {A} (g : list (list A)) (r c r' c' : nat) (v : A) :
  cell_at (set_cell g r c v) r' c' =
  if decide (r = r' /\ c = c') then
    match cell_at g r c with Some _ => Some v | None => None end
  else cell_at g r' c'.
Proof.
  unfold set_cell, cell_at.
  destruct (g !! r) as [row|] eqn:Hrow.
  - destruct (decide (r = r')) as [<-|Hr].
    + rewrite list_lookup_insert_eq by (eapply lookup_lt_Some; exact Hrow).
      rewrite Hrow.
      destruct (decide (c = c')) as [<-|Hc].
      * rewrite decide_True by auto.
        destruct (row !! c) as [x|] eqn:Hx.
        -- apply list_lookup_insert_eq. eapply lookup_lt_Some. exact Hx.
        -- apply lookup_ge_None. rewrite length_insert. apply lookup_ge_None. exact Hx.
      * rewrite decide_False by tauto. apply list_lookup_insert_ne. exact Hc.
    + rewrite decide_False by tauto. rewrite list_lookup_insert_ne by exact Hr. reflexivity.
  - destruct (decide (r = r' /\ c = c')) as [[<- <-]|Hne]; [|reflexivity].
    rewrite Hrow. reflexivity.
Qed.

Lemma label_at_set_cell_other (g : list (list Z)) (r c r' c' : nat) (v : Z) :
  ~ (r = r' /\ c = c') -> label_at (set_cell g r c v) r' c' = label_at g r' c'.
Proof.
  intros Hne. unfold label_at. rewrite cell_at_set_cell, decide_False by exact Hne.
  reflexivity.
Qed.

Lemma label_at_set_cell_same (g : list (list Z)) (r c : nat) (v : Z) :
  is_Some (cell_at g r c) -> label_at (set_cell g r c v) r c = v.
Proof.
  intros [x Hx]. unfold label_at. rewrite cell_at_set_cell, decide_True by auto.
  rewrite Hx. reflexivity.
Qed.

Lemma set_cell_is_Some {A} (g : list (list A)) (r c r' c' : nat) (v : A) :
  is_Some (cell_at (set_cell g r c v) r' c') <-> is_Some (cell_at g r' c').
Proof.
  rewrite cell_at_set_cell. destruct (decide (r = r' /\ c = c')) as [[<- <-]|Hne];
    [|reflexivity].
  destruct (cell_at g r c); split; intros [? ?]; eauto; discriminate.
Qed.

(** What a flood does to the labels: the shape stays, a label once
    given stays, and a new label is the flood's own, on a mask cell. *)
Lemma flood_spec (fuel : nat) (mask : list (list bool)) (work : list (nat * nat))
    (lab : Z) (labeled : list (list Z)) :
  lab <> 0 ->
  (forall r c, is_Some (cell_at (flood fuel mask work lab labeled) r c)
               <-> is_Some (cell_at labeled r c))
  /\ (forall r c, label_at labeled r c <> 0 ->
                  label_at (flood fuel mask work lab labeled) r c = label_at labeled r c)
  /\ (forall r c, label_at (flood fuel mask work lab labeled) r c = label_at labeled r c
                  \/ (label_at (flood fuel mask work lab labeled) r c = lab /\
                      mask_at mask r c = true)).
Proof.
  intros Hlab. revert work labeled.
  induction fuel as [|fuel IH]; intros work labeled; simpl.
  - repeat split; auto.
  - destruct work as [|[r0 c0] rest]; [repeat split; auto|].
    destruct (mask_at mask r0 c0 && (label_at labeled r0 c0 =? 0)) eqn:Hcond.
    + apply andb_true_iff in Hcond. destruct Hcond as [Hmask Hzero].
      apply Z.eqb_eq in Hzero.
      destruct (IH (neighbours r0 c0 ++ rest) (set_cell labeled r0 c0 lab))
        as (Hshape & Hkeep & Hnew).
      split; [|split].
      * intros r c. rewrite Hshape. apply set_cell_is_Some.
      * intros r c Hnz.
        assert (Hne : ~ (r0 = r /\ c0 = c)) by (intros [-> ->]; congruence).
        rewrite Hkeep; rewrite label_at_set_cell_other by exact Hne; auto.
      * intros r c. destruct (decide (r0 = r /\ c0 = c)) as [[<- <-]|Hne].
        -- destruct (Hnew r0 c0) as [Hsame|[Hl Hm]]; [|right; auto].
           unfold label_at in Hsame at 2. rewrite cell_at_set_cell, decide_True in Hsame by auto.
           destruct (cell_at labeled r0 c0) as [x|] eqn:Hx.
           ++ right. split; [exact Hsame | exact Hmask].
           ++ left. rewrite Hsame. unfold label_at. rewrite Hx. reflexivity.
        -- destruct (Hnew r c) as [Hsame|Hl]; [|right; exact Hl].
           left. rewrite Hsame. apply label_at_set_cell_other. exact Hne.
    + apply IH.
Qed.

(** A flood with fuel labels its seed when the seed is an unlabelled
    mask cell of the grid. *)
Lemma flood_seed (fuel : nat) (mask : list (list bool)) (r c : nat)
    (lab : Z) (labeled : list (list Z)) :
  lab <> 0 -> mask_at mask r c = true -> label_at labeled r c = 0 ->
  is_Some (cell_at labeled r c) ->
  label_at (flood (S fuel) mask [(r, c)] lab labeled) r c = lab.
Proof.
  intros Hlab Hmask Hzero Hin. simpl. rewrite Hmask, Hzero. simpl.
  destruct (flood_spec fuel mask (neighbours r c ++ []) lab (set_cell labeled r c lab) Hlab)
    as (_ & Hkeep & _).
  rewrite Hkeep; rewrite label_at_set_cell_same by exact Hin; auto.
Qed.

Lemma elem_of_cells_of {A} (g : list (list A)) (r c : nat) :
  (r, c) ∈ cells_of g <-> is_Some (cell_at g r c).
Proof.
  unfold cells_of, cell_at. rewrite list_elem_of_In, in_flat_map. split.
  - intros (r' & Hr' & Hin). apply in_map_iff in Hin. destruct Hin as (c' & [= <- <-] & Hc').
    apply in_seq in Hr', Hc'.
    destruct (lookup_lt_is_Some_2 g r') as [row Hrow]; [lia|].
    rewrite Hrow. rewrite (list_lookup_total_correct _ _ _ Hrow) in Hc'.
    apply lookup_lt_is_Some_2. lia.
  - destruct (g !! r) as [row|] eqn:Hrow; [|intros [? ?]; discriminate].
    intros Hc. exists r. split.
    + apply in_seq. apply lookup_lt_Some in Hrow. lia.
    + apply in_map_iff. exists c. split; [reflexivity|].
      apply in_seq. rewrite (list_lookup_total_correct _ _ _ Hrow).
      apply lookup_lt_is_Some_1 in Hc. lia.
Qed.

Lemma mask_at_in_grid (mask : list (list bool)) (r c : nat) :
  mask_at mask r c = true -> is_Some (cell_at mask r c).
Proof.
  unfold mask_at. destruct (cell_at mask r c); [eauto | discriminate].
Qed.


Lemma label_step_invariant (mask : list (list bool)) (fuel : nat)
    (done : list (nat * nat)) (st : list (list Z) * Z) (rc : nat * nat) :
  labelling_invariant mask done st ->
  labelling_invariant mask (done ++ [rc]) (label_step mask (S fuel) st rc).
Proof.
  destruct st as [labeled n]. destruct rc as [r0 c0].
  intros (Hshape & Hn & Hbound & Hmask & Hused & Hdone). unfold label_step.
  cbn [fst snd] in *.
  destruct (mask_at mask r0 c0 && (label_at labeled r0 c0 =? 0)) eqn:Hcond.
  - apply andb_true_iff in Hcond. destruct Hcond as [Hm0 Hz0]. apply Z.eqb_eq in Hz0.
    assert (Hlab : n + 1 <> 0) by lia.
    destruct (flood_spec (S fuel) mask [(r0, c0)] (n + 1) labeled Hlab)
      as (Hfshape & Hkeep & Hnew).
    assert (Hseed : label_at (flood (S fuel) mask [(r0, c0)] (n + 1) labeled) r0 c0 = n + 1).
    { apply flood_seed; auto. apply Hshape. apply mask_at_in_grid. exact Hm0. }
    unfold labelling_invariant. cbn [fst snd]. repeat split.
    + intros Hs. apply Hshape, Hfshape. exact Hs.
    + intros Hs. apply Hfshape, Hshape. exact Hs.
    + lia.
    + destruct (Hnew r c) as [->|[-> _]]; [apply Hbound | lia].
    + destruct (Hnew r c) as [->|[-> _]]; [specialize (Hbound r c); lia | lia].
    + intros r c Hnz. destruct (Hnew r c) as [Hsame|[_ Hm]]; [|exact Hm].
      apply Hmask. rewrite <- Hsame. exact Hnz.
    + intros k Hk. destruct (decide (k = n + 1)) as [->|Hne].
      * exists r0, c0. exact Hseed.
      * destruct (Hused k) as (r & c & Hrc); [lia|].
        exists r, c. rewrite Hkeep; [exact Hrc | lia].
    + intros r c Hin Hm. apply elem_of_app in Hin. destruct Hin as [Hin|Hin].
      * rewrite Hkeep; apply Hdone; assumption.
      * apply list_elem_of_singleton in Hin. injection Hin as -> ->. lia.
  - unfold labelling_invariant. cbn [fst snd]. repeat split; auto.
    + apply Hshape. + apply Hshape. + apply Hbound. + apply Hbound.
    + intros r c Hin Hm. apply elem_of_app in Hin. destruct Hin as [Hin|Hin].
      * apply Hdone; assumption.
      * apply list_elem_of_singleton in Hin. injection Hin as -> ->.
        rewrite Hm in Hcond. simpl in Hcond. apply Z.eqb_neq in Hcond. exact Hcond.
Qed.

Lemma label_fold_invariant (mask : list (list bool)) (fuel : nat)
    (cells done : list (nat * nat)) (st : list (list Z) * Z) :
  labelling_invariant mask done st ->
  labelling_invariant mask (done ++ cells) (fold_left (label_step mask (S fuel)) cells st).
Proof.
  revert done st. induction cells as [|rc cells IH]; intros done st Hinv; simpl.
  - rewrite app_nil_r. exact Hinv.
  - replace (done ++ rc :: cells) with ((done ++ [rc]) ++ cells)
      by (rewrite <- app_assoc; reflexivity).
    apply IH. apply label_step_invariant. exact Hinv.
Qed.

(** The labelled array: a cell has a label exactly when it is a mask
    cell, the labels are 1 .. num_features, and each of them is the
    label of some cell. *)
Lemma label_spec (mask : list (list bool)) :
  let labeled := (label mask).1 in
  let num_features := (label mask).2 in
  0 <= num_features
  /\ (forall r c, is_Some (cell_at labeled r c) <-> is_Some (cell_at mask r c))
  /\ (forall r c, 0 <= label_at labeled r c <= num_features)
  /\ (forall r c, label_at labeled r c <> 0 <-> mask_at mask r c = true)
  /\ (forall k, 1 <= k <= num_features -> exists r c, label_at labeled r c = k).
Proof.
  unfold label.
  replace (5 * length (cells_of mask) + 1)%nat with (S (5 * length (cells_of mask))) by lia.
  pose proof (label_fold_invariant mask (5 * length (cells_of mask)) (cells_of mask) []
    ((fun row : list bool => (fun _ => 0) <$> row) <$> mask, 0)) as Hinv.
  destruct Hinv as (Hshape & Hn & Hbound & Hmask & Hused & Hdone).
  { unfold labelling_invariant. cbn [fst snd].
    assert (Hzero : forall r c,
      cell_at ((fun row : list bool => (fun _ => 0) <$> row) <$> mask) r c
      = (fun _ => 0) <$> cell_at mask r c).
    { intros r c. unfold cell_at. rewrite list_lookup_fmap.
      destruct (mask !! r) as [row|]; simpl; [|reflexivity].
      rewrite list_lookup_fmap. reflexivity. }
    assert (Hlabel0 : forall r c,
      label_at ((fun row : list bool => (fun _ => 0) <$> row) <$> mask) r c = 0).
    { intros r c. unfold label_at. rewrite Hzero. destruct (cell_at mask r c); reflexivity. }
    repeat split.
    - rewrite Hzero. destruct (cell_at mask r c); intros [? ?]; eauto; discriminate.
    - rewrite Hzero. destruct (cell_at mask r c); intros [? ?]; eauto; discriminate.
    - lia.
    - rewrite Hlabel0. lia.
    - rewrite Hlabel0. lia.
    - intros r c Hnz. rewrite Hlabel0 in Hnz. congruence.
    - intros k Hk. lia.
    - intros r c Hin. inversion Hin. }
  simpl in Hdone. cbn zeta.
  split; [exact Hn|]. split; [exact Hshape|]. split; [exact Hbound|]. split; [|exact Hused].
  intros r c. split; [apply Hmask|].
  intros Hm. apply Hdone; [|exact Hm].
  apply elem_of_cells_of. apply mask_at_in_grid. exact Hm.
Qed.

(** ** What [generate_aois] returns *)

Lemma wrap_int16_small (k : Z) : -32768 <= k <= 32767 -> wrap_int16 k = k.
Proof. intros Hk. unfold wrap_int16. rewrite Z.mod_small by lia. lia. Qed.

Lemma fgt_not_nan (v t : pyfloat) : fgt v t = true -> v <> NaN /\ v <> NInf /\ t <> NaN /\ t <> PInf.
Proof. destruct v, t; simpl; intros Hv; repeat split; congruence. Qed.

Lemma fmax_above (a b t : pyfloat) :
  fgt a t = true -> fgt b t = true -> fgt (fmax a b) t = true.
Proof.
  intros Ha Hb. unfold fmax.
  destruct a, b; simpl in *; try discriminate; try assumption;
    match goal with |- context [if ?x then _ else _] => destruct x end; assumption.
Qed.

Lemma fold_fmax_above (vs : list pyfloat) (v t : pyfloat) :
  fgt v t = true -> Forall (fun x => fgt x t = true) vs ->
  fgt (fold_left fmax vs v) t = true.
Proof.
  intros Hv Hvs. revert v Hv. induction Hvs as [|x vs Hx Hvs IH]; intros v Hv; simpl.
  - exact Hv.
  - apply IH. apply fmax_above; assumption.
Qed.

(** The sum of values above a finite threshold [t]: it is +inf, or a
    finite sum larger than the number of terms times [t]. *)
Lemma fold_fadd_above (vs : list pyfloat) (v : pyfloat) (t : Q) (n : nat) :
  (v = PInf \/ exists x, v = Fin x /\ (inject_Z (Z.of_nat (S n)) * t < x)%Q) ->
  Forall (fun x => fgt x (Fin t) = true) vs ->
  fold_left fadd vs v = PInf \/
  exists x, fold_left fadd vs v = Fin x /\
            (inject_Z (Z.of_nat (S n + length vs)) * t < x)%Q.
Proof.
  intros Hv Hvs. revert v n Hv. induction Hvs as [|y vs Hy Hvs IH]; intros v n Hv; simpl.
  - rewrite Nat.add_0_r. exact Hv.
  - replace (S (n + S (length vs))) with (S (S n) + length vs)%nat by lia.
    apply IH. destruct Hv as [->|(x & -> & Hx)].
    + left. destruct y; simpl in *; try discriminate; reflexivity.
    + destruct y as [|q| |]; simpl in Hy; try discriminate.
      * right. exists (x + q)%Q. split; [reflexivity|].
        apply negb_true_iff in Hy.
        assert (Hq : (t < q)%Q).
        { apply Qnot_le_lt. intros Hle. apply Qle_bool_iff in Hle. congruence. }
        replace (Z.of_nat (S (S n))) with (Z.of_nat (S n) + 1) by lia.
        rewrite inject_Z_plus. 
        assert (Heq : ((inject_Z (Z.of_nat (S n)) + inject_Z 1) * t
                       == inject_Z (Z.of_nat (S n)) * t + t)%Q) by ring.
        rewrite Heq.
        apply Qplus_lt_le_compat; [exact Hx | apply Qlt_le_weak; exact Hq].
      * left. reflexivity.
Qed.

Lemma mean_above (vs : list pyfloat) (v t : pyfloat) :
  fgt v t = true -> Forall (fun x => fgt x t = true) vs ->
  fgt (fdiv_count (fold_left fadd vs v) (S (length vs))) t = true.
Proof.
  intros Hv Hvs. destruct (fgt_not_nan v t Hv) as (_ & _ & Htn & Htp).
  destruct t as [|t| |]; try congruence.
  - (* threshold -inf: the sum is finite or +inf *)
    assert (Hsum : fold_left fadd vs v <> NaN /\ fold_left fadd vs v <> NInf).
    { revert v Hv. induction Hvs as [|y vs Hy Hvs IH]; intros v Hv; simpl.
      - destruct v; simpl in Hv; try discriminate; split; congruence.
      - apply IH. destruct v, y; simpl in *; try discriminate; reflexivity. }
    destruct (fold_left fadd vs v); simpl; try reflexivity; destruct Hsum; congruence.
  - destruct (fold_fadd_above vs v t 0) as [->|(x & -> & Hx)]; [|exact Hvs|reflexivity|].
    + destruct v as [|x| |]; simpl in Hv; try discriminate; [|by left].
      right. exists x. split; [reflexivity|].
      apply negb_true_iff in Hv. simpl. rewrite Qmult_1_l.
      apply Qnot_le_lt. intros Hle. apply Qle_bool_iff in Hle. congruence.
    + simpl. apply negb_true_iff. destruct (Qle_bool _ t) eqn:Hle; [|reflexivity].
      exfalso. apply Qle_bool_iff in Hle.
      assert (Hpos : (0 < inject_Z (Z.of_nat (S (length vs))))%Q).
      { change 0%Q with (inject_Z 0). rewrite <- Zlt_Qlt. lia. }
      apply (Qlt_irrefl x).
      apply (Qle_lt_trans _ (inject_Z (Z.of_nat (S (length vs))) * t)); [|exact Hx].
      apply (Qmult_le_compat_r _ _ (inject_Z (Z.of_nat (S (length vs))))) in Hle;
        [|apply Qlt_le_weak; exact Hpos].
      rewrite (Qmult_comm (x / _)), Qmult_div_r in Hle.
      * rewrite Qmult_comm. exact Hle.
      * intros H0. rewrite H0 in Hpos. exact (Qlt_irrefl 0 Hpos).
Qed.

Section ExtractionProperties.
Context {G : Type} `{Shapely G}.

Lemma elem_of_cells_with_label (labeled : list (list Z)) (v : Z) (rc : nat * nat) :
  rc ∈ cells_with_label labeled v <->
  is_Some (cell_at labeled rc.1 rc.2) /\ label_at labeled rc.1 rc.2 = v.
Proof.
  unfold cells_with_label. rewrite list_elem_of_In, filter_In, <- list_elem_of_In.
  destruct rc as [r c]. rewrite elem_of_cells_of, Z.eqb_eq. reflexivity.
Qed.

(** Every cell that carries a label other than 0 holds a value above
    the threshold. *)
Lemma labelled_cells_exceed (precip_data : list (list pyfloat)) (threshold : pyfloat)
    (v : Z) :
  v <> 0 ->
  Forall (fun x => fgt x threshold = true)
    (map (value_at precip_data)
         (cells_with_label (labelled_regions precip_data threshold) v)).
Proof.
  intros Hv. apply Forall_forall. intros x Hx.
  apply list_elem_of_In, in_map_iff in Hx. destruct Hx as ([r c] & <- & Hrc).
  apply list_elem_of_In, elem_of_cells_with_label in Hrc. destruct Hrc as [_ Hlab].
  destruct (label_spec (exceedance_mask precip_data threshold)) as (_ & _ & _ & Hmask & _).
  assert (Hm : mask_at (exceedance_mask precip_data threshold) r c = true).
  { apply Hmask. unfold labelled_regions in Hlab. simpl in Hlab. rewrite Hlab. exact Hv. }
  unfold exceedance_mask in Hm. rewrite mask_at_threshold in Hm.
  unfold value_at. simpl. destruct (cell_at precip_data r c); [exact Hm | discriminate].
Qed.

Lemma region_nonempty (precip_data : list (list pyfloat)) (threshold : pyfloat) (k : Z) :
  1 <= k <= num_regions precip_data threshold ->
  cells_with_label (labelled_regions precip_data threshold) k <> [].
Proof.
  intros Hk.
  destruct (label_spec (exceedance_mask precip_data threshold)) as (_ & _ & _ & _ & Hused).
  destruct (Hused k Hk) as (r & c & Hrc). intros Hnil.
  assert (Hin : (r, c) ∈ cells_with_label (labelled_regions precip_data threshold) k).
  { apply elem_of_cells_with_label. split; [|exact Hrc].
    simpl. unfold labelled_regions. unfold label_at in Hrc.
    destruct (cell_at _ r c); [eauto|]. simpl in Hrc. lia. }
  rewrite Hnil in Hin. inversion Hin.
Qed.

(** What the loop body appends for a shape. *)
Lemma shape_to_aoi_row (precip_data : list (list pyfloat)) (threshold : pyfloat)
    (tr : transform) (min_area : pyfloat) (k : Z) (a : aoi) :
  shape_to_aoi precip_data (labelled_regions precip_data threshold) tr min_area k
    = Ok (Some a) ->
  aoi_id a = wrap_int16 k /\ aoi_id a <> 0
  /\ aoi_geometry a
     = polygonize tr (cells_with_label (labelled_regions precip_data threshold) k)
  /\ area_deg2 a = geom_area (aoi_geometry a)
  /\ flt (Fin (area_deg2 a)) min_area = false
  /\ fgt (max_precip_mm a) threshold = true
  /\ fgt (mean_precip_mm a) threshold = true.
Proof.
  unfold shape_to_aoi. destruct (wrap_int16 k =? 0) eqn:Hz; [discriminate|].
  apply Z.eqb_neq in Hz.
  destruct (flt _ min_area) eqn:Harea; [discriminate|].
  pose proof (labelled_cells_exceed precip_data threshold (wrap_int16 k) Hz) as Hall.
  destruct (map _ _) as [|v vs]; [discriminate|].
  intros [= <-]. cbn [aoi_id aoi_geometry area_deg2 max_precip_mm mean_precip_mm].
  apply Forall_cons in Hall. destruct Hall as [Hv Hvs].
  split; [reflexivity|]. split; [exact Hz|]. split; [reflexivity|].
  split; [reflexivity|]. split; [exact Harea|]. split.
  - apply fold_fmax_above; assumption.
  - apply mean_above; assumption.
Qed.

Lemma shape_to_aoi_Raise (precip_data : list (list pyfloat)) (labeled : list (list Z))
    (tr : transform) (min_area : pyfloat) (k : Z) (e : exception) :
  shape_to_aoi precip_data labeled tr min_area k = Raise e -> e = ValueError.
Proof.
  unfold shape_to_aoi. destruct (_ =? 0); [discriminate|].
  destruct (flt _ _); [discriminate|]. destruct (map _ _); [|discriminate].
  intros [= <-]. reflexivity.
Qed.

Lemma shapes_to_aois_rows (precip_data : list (list pyfloat)) (labeled : list (list Z))
    (tr : transform) (min_area : pyfloat) (ks : list Z) (rows : list aoi) :
  shapes_to_aois precip_data labeled tr min_area ks = Ok rows ->
  Forall (fun a => exists k, k ∈ ks /\
            shape_to_aoi precip_data labeled tr min_area k = Ok (Some a)) rows.
Proof.
  revert rows. induction ks as [|k ks IH]; intros rows; cbn [shapes_to_aois].
  - intros [= <-]. constructor.
  - destruct (shape_to_aoi precip_data labeled tr min_area k) as [o|e] eqn:Hk;
      cbn [bind]; [|discriminate].
    destruct (shapes_to_aois precip_data labeled tr min_area ks) as [rest|e] eqn:Hks;
      cbn [bind]; [|discriminate].
    intros [= <-]. specialize (IH rest eq_refl).
    assert (Hrest : Forall (fun a => exists k0, k0 ∈ k :: ks /\
              shape_to_aoi precip_data labeled tr min_area k0 = Ok (Some a)) rest).
    { eapply Forall_impl; [exact IH|]. intros a (k0 & Hin & Hk0).
      exists k0. split; [right; exact Hin | exact Hk0]. }
    destruct o as [a|]; [|exact Hrest].
    constructor; [|exact Hrest]. exists k. split; [left | exact Hk].
Qed.

Lemma shapes_to_aois_Raise (precip_data : list (list pyfloat)) (labeled : list (list Z))
    (tr : transform) (min_area : pyfloat) (ks : list Z) (k : Z) :
  k ∈ ks ->
  shape_to_aoi precip_data labeled tr min_area k = Raise ValueError ->
  shapes_to_aois precip_data labeled tr min_area ks = Raise ValueError.
Proof.
  intros Hin Hk. induction ks as [|k0 ks IH]; [inversion Hin|].
  cbn [shapes_to_aois].
  destruct (shape_to_aoi precip_data labeled tr min_area k0) as [o|e] eqn:Hk0; cbn [bind].
  - assert (Hin' : k ∈ ks).
    { apply elem_of_cons in Hin. destruct Hin as [->|Hin]; [congruence | exact Hin]. }
    rewrite (IH Hin'). reflexivity.
  - apply shape_to_aoi_Raise in Hk0. rewrite Hk0. reflexivity.
Qed.

(** The shape of a region whose label fits into 16 bits. *)
Lemma shape_to_aoi_small (precip_data : list (list pyfloat)) (threshold : pyfloat)
    (ds : dataset) (min_area : pyfloat) (k : Z) :
  1 <= k <= num_regions precip_data threshold -> k <= 32767 ->
  exists o, shape_to_aoi precip_data (labelled_regions precip_data threshold)
              (dataset_transform ds) min_area k = Ok o
    /\ match o with
       | None => below_min_area precip_data ds threshold min_area k = true
       | Some a => below_min_area precip_data ds threshold min_area k = false
                   /\ aoi_id a = k
                   /\ aoi_geometry a = region_polygon precip_data ds threshold k
       end.
Proof.
  intros Hk Hsmall. unfold shape_to_aoi.
  rewrite wrap_int16_small by lia.
  destruct (k =? 0) eqn:Hz; [apply Z.eqb_eq in Hz; lia|].
  unfold below_min_area, region_polygon.
  destruct (flt _ min_area) eqn:Harea.
  - exists None. split; reflexivity.
  - pose proof (region_nonempty precip_data threshold k Hk) as Hne.
    destruct (map _ _) as [|v vs] eqn:Hmap.
    { apply map_eq_nil in Hmap. congruence. }
    eexists. split; [reflexivity|]. cbn [aoi_id aoi_geometry].
    split; [reflexivity|]. split; reflexivity.
Qed.

Lemma shapes_to_aois_small (precip_data : list (list pyfloat)) (threshold : pyfloat)
    (ds : dataset) (min_area : pyfloat) (ks : list Z) :
  Forall (fun k => 1 <= k <= num_regions precip_data threshold /\ k <= 32767) ks ->
  exists rows, shapes_to_aois precip_data (labelled_regions precip_data threshold)
                 (dataset_transform ds) min_area ks = Ok rows
    /\ aoi_id <$> rows
       = List.filter (fun k => negb (below_min_area precip_data ds threshold min_area k)) ks
    /\ Forall (fun a => aoi_geometry a = region_polygon precip_data ds threshold (aoi_id a))
              rows.
Proof.
  induction 1 as [|k ks [Hk Hsmall] Hks (rest & Hrest & Hids & Hgeo)];
    cbn [shapes_to_aois].
  - exists []. split; [reflexivity|]. split; [reflexivity | constructor].
  - destruct (shape_to_aoi_small precip_data threshold ds min_area k Hk Hsmall)
      as (o & -> & Ho).
    rewrite Hrest. cbn [bind List.filter]. eexists. split; [reflexivity|].
    destruct o as [a|].
    + destruct Ho as (-> & Hid & Hg). cbn [negb]. rewrite fmap_cons, Hids, Hid.
      split; [reflexivity|]. constructor; [rewrite Hid; exact Hg | exact Hgeo].
    + rewrite Ho. cbn [negb]. split; [exact Hids | exact Hgeo].
Qed.

Lemma generate_aois_unfold (config_min_aoi_area : pyfloat)
    (precip_data : list (list pyfloat)) (ds : dataset) (threshold : pyfloat)
    (min_area : option pyfloat) :
  generate_aois config_min_aoi_area precip_data ds threshold min_area
  = if num_regions precip_data threshold =? 0 then Ok empty_frame
    else bind (shapes_to_aois precip_data (labelled_regions precip_data threshold)
                 (dataset_transform ds) (default config_min_aoi_area min_area)
                 (region_labels precip_data threshold))
           (fun rows => Ok {| frame_columns := aoi_columns ++ ["geometry"%string];
                              frame_rows := rows |}).
Proof.
  unfold generate_aois, num_regions, labelled_regions, region_labels, num_regions,
    exceedance_mask.
  destruct (label _) as [labeled num_features]. reflexivity.
Qed.

Lemma elem_of_region_labels (precip_data : list (list pyfloat)) (threshold : pyfloat)
    (k : Z) :
  k ∈ region_labels precip_data threshold <-> 1 <= k <= num_regions precip_data threshold.
Proof.
  unfold region_labels. rewrite list_elem_of_In, in_map_iff. split.
  - intros (i & <- & Hi). apply in_seq in Hi. lia.
  - intros Hk. exists (Z.to_nat (k - 1)). split; [lia|]. apply in_seq. lia.
Qed.

(** The facts about a row of the frame that [generate_aois] returns. *)
Lemma generate_aois_row (config_min_aoi_area : pyfloat)
    (precip_data : list (list pyfloat)) (ds : dataset) (threshold : pyfloat)
    (min_area : option pyfloat) (frame : aoi_frame) (a : aoi) :
  generate_aois config_min_aoi_area precip_data ds threshold min_area = Ok frame ->
  a ∈ frame_rows frame ->
  aoi_id a <> 0
  /\ area_deg2 a = geom_area (aoi_geometry a)
  /\ flt (Fin (area_deg2 a)) (default config_min_aoi_area min_area) = false
  /\ fgt (max_precip_mm a) threshold = true
  /\ fgt (mean_precip_mm a) threshold = true.
Proof.
  rewrite generate_aois_unfold.
  destruct (num_regions precip_data threshold =? 0).
  { intros [= <-] Hin. inversion Hin. }
  destruct (shapes_to_aois _ _ _ _ _) as [rows|e] eqn:Hrows; cbn [bind]; [|discriminate].
  intros [= <-] Hin. cbn [frame_rows] in Hin.
  apply shapes_to_aois_rows in Hrows.
  rewrite Forall_forall in Hrows. destruct (Hrows a Hin) as (k & _ & Hk).
  apply shape_to_aoi_row in Hk. tauto.
Qed.

End ExtractionProperties.

Section ExtractionResults.
Context {G : Type} `{Shapely G}.

Lemma wrap_int16_high (k : Z) : 32768 <= k <= 65535 -> wrap_int16 k = k - 65536.
Proof.
  intros Hk. unfold wrap_int16.
  replace (k + 32768) with ((k - 32768) + 1 * 65536) by lia.
  rewrite Z.mod_add by lia. rewrite Z.mod_small by lia. lia.
Qed.

Lemma no_negative_label (precip_data : list (list pyfloat)) (threshold : pyfloat) (v : Z) :
  v < 0 -> cells_with_label (labelled_regions precip_data threshold) v = [].
Proof.
  intros Hv. destruct (cells_with_label _ v) as [|rc rcs] eqn:Hcells; [reflexivity|].
  assert (Hin : rc ∈ cells_with_label (labelled_regions precip_data threshold) v)
    by (rewrite Hcells; left).
  apply elem_of_cells_with_label in Hin. destruct Hin as [_ Hlab].
  destruct (label_spec (exceedance_mask precip_data threshold)) as (_ & _ & Hbound & _).
  specialize (Hbound rc.1 rc.2). unfold labelled_regions in Hlab. simpl in Hbound. lia.
Qed.

(** X15. When the field has at most 32767 regions above the threshold,
    [generate_aois] returns a frame with exactly one row for each
    region whose polygon is not smaller than the minimum area (the
    configured one when none is passed) and no other row: each row
    carries the label of its region as id and the polygon of that
    region as geometry. *)
Theorem generate_aois_regions (config_min_aoi_area : pyfloat)
    (precip_data : list (list pyfloat)) (ds : dataset) (threshold : pyfloat)
    (min_area : option pyfloat) :
  num_regions precip_data threshold <= 32767 ->
  exists frame : aoi_frame,
    generate_aois config_min_aoi_area precip_data ds threshold min_area = Ok frame
    /\ frame_columns frame
       = ["id"; "mean_precip_mm"; "max_precip_mm"; "area_deg2"; "geometry"]%string
    /\ aoi_id <$> frame_rows frame
       ≡ₚ kept_regions precip_data ds threshold (default config_min_aoi_area min_area)
    /\ Forall (fun a => aoi_geometry a = region_polygon precip_data ds threshold (aoi_id a))
              (frame_rows frame).
Proof.
  intros Hn. rewrite generate_aois_unfold. unfold kept_regions.
  destruct (num_regions precip_data threshold =? 0) eqn:Hz.
  - apply Z.eqb_eq in Hz. exists empty_frame. split; [reflexivity|]. split; [reflexivity|].
    unfold region_labels. rewrite Hz. split; [reflexivity | constructor].
  - destruct (shapes_to_aois_small precip_data threshold ds
                (default config_min_aoi_area min_area) (region_labels precip_data threshold))
      as (rows & -> & Hids & Hgeo).
    { apply Forall_forall. intros k Hk. apply elem_of_region_labels in Hk. lia. }
    cbn [bind]. eexists. split; [reflexivity|]. cbn [frame_columns frame_rows].
    split; [reflexivity|]. split; [rewrite Hids; reflexivity | exact Hgeo].
Qed.

(** X16. In every frame that [generate_aois] returns, the maximum
    precipitation of each AOI is strictly above the threshold. *)
Theorem aoi_maximum_exceeds_threshold (config_min_aoi_area : pyfloat)
    (precip_data : list (list pyfloat)) (ds : dataset) (threshold : pyfloat)
    (min_area : option pyfloat) (frame : aoi_frame) (a : aoi) :
  generate_aois config_min_aoi_area precip_data ds threshold min_area = Ok frame ->
  a ∈ frame_rows frame ->
  fgt (max_precip_mm a) threshold = true.
Proof. intros Hrun Hin. apply (generate_aois_row _ _ _ _ _ _ _ Hrun Hin). Qed.

(** X17. In every frame that [generate_aois] returns, the mean
    precipitation of each AOI, computed exactly, is strictly above the
    threshold. *)
Theorem aoi_mean_exceeds_threshold (config_min_aoi_area : pyfloat)
    (precip_data : list (list pyfloat)) (ds : dataset) (threshold : pyfloat)
    (min_area : option pyfloat) (frame : aoi_frame) (a : aoi) :
  generate_aois config_min_aoi_area precip_data ds threshold min_area = Ok frame ->
  a ∈ frame_rows frame ->
  fgt (mean_precip_mm a) threshold = true.
Proof. intros Hrun Hin. apply (generate_aois_row _ _ _ _ _ _ _ Hrun Hin). Qed.

(** X18. No row of a frame returned by [generate_aois] has id 0, and
    the area of each row is the area of its polygon and is not below
    the minimum area in force: the one passed, or the configured one
    when none is passed. *)
Theorem aoi_area_not_below_minimum (config_min_aoi_area : pyfloat)
    (precip_data : list (list pyfloat)) (ds : dataset) (threshold : pyfloat)
    (min_area : option pyfloat) (frame : aoi_frame) (a : aoi) :
  generate_aois config_min_aoi_area precip_data ds threshold min_area = Ok frame ->
  a ∈ frame_rows frame ->
  aoi_id a <> 0
  /\ area_deg2 a = geom_area (aoi_geometry a)
  /\ flt (Fin (area_deg2 a))
         (match min_area with Some m => m | None => config_min_aoi_area end) = false.
Proof.
  intros Hrun Hin.
  destruct (generate_aois_row _ _ _ _ _ _ _ Hrun Hin) as (Hid & Harea & Hmin & _).
  split; [exact Hid|]. split; [exact Harea|]. destruct min_area; exact Hmin.
Qed.

(** X19. The labels are cast to 16-bit integers before the shapes are
    read: a region whose label lies in 32768 .. 65535 gets a negative
    label, which no cell of the labelled array carries.  When its
    polygon passes the area filter, the maximum of an empty selection
    is taken and [generate_aois] raises ValueError. *)
Theorem generate_aois_int16_overflow (config_min_aoi_area : pyfloat)
    (precip_data : list (list pyfloat)) (ds : dataset) (threshold : pyfloat)
    (min_area : option pyfloat) (k : Z) :
  32768 <= k <= 65535 ->
  k <= num_regions precip_data threshold ->
  below_min_area precip_data ds threshold (default config_min_aoi_area min_area) k
    = false ->
  generate_aois config_min_aoi_area precip_data ds threshold min_area = Raise ValueError.
Proof.
  intros Hk Hn Harea. rewrite generate_aois_unfold.
  destruct (num_regions precip_data threshold =? 0) eqn:Hz;
    [apply Z.eqb_eq in Hz; lia|].
  rewrite (shapes_to_aois_Raise _ _ _ _ _ k); [reflexivity| |].
  - apply elem_of_region_labels. lia.
  - unfold shape_to_aoi. rewrite wrap_int16_high by exact Hk.
    destruct (k - 65536 =? 0) eqn:Hw; [apply Z.eqb_eq in Hw; lia|].
    unfold below_min_area, region_polygon in Harea. rewrite Harea.
    rewrite no_negative_label by lia. reflexivity.
Qed.

End ExtractionResults.

(** ** The transform of the forecast grid *)

(** X20. The longitudes of the dataset are shifted by -360 one by one
    when above 180.  For a dataset whose longitudes span less than 360
    degrees, the east edge of the transform lies west of its west edge
    exactly when the dataset straddles 180: its least longitude is at
    most 180 and its greatest above 180. *)
Theorem dataset_transform_straddling (ds : dataset) :
  (longitude_min ds <= longitude_max ds)%Q ->
  (longitude_max ds - longitude_min ds < 360)%Q ->
  (t_east (dataset_transform ds) < t_west (dataset_transform ds))%Q
  <-> (longitude_min ds <= 180)%Q /\ (180 < longitude_max ds)%Q.
Proof.
  intros Hle Hspan. unfold dataset_transform. cbn [t_east t_west].
  destruct (Qle_bool (longitude_min ds) 180) eqn:Hmin;
    destruct (Qle_bool (longitude_max ds) 180) eqn:Hmax;
    try (apply Qle_bool_iff in Hmin); try (apply Qle_bool_iff in Hmax);
    repeat match goal with
           | Hb : Qle_bool ?x 180 = false |- _ =>
               assert (180 < x)%Q
                 by (apply Qnot_le_lt; intros H0; apply Qle_bool_iff in H0; congruence);
               clear Hb
           end;
    split; try (intros [? ?]); intros; try split; lra.
Qed.

(** ** Member file names *)

Lemma string_of_uint_digits (d : Decimal.uint) : all_digits (NilEmpty.string_of_uint d).
Proof.
  unfold all_digits. induction d; simpl; constructor; (reflexivity || assumption).
Qed.

Lemma string_of_uint_nonempty (n : N) :
  NilEmpty.string_of_uint (N.to_uint n) <> EmptyString.
Proof.
  assert (Hnil : N.to_uint n <> Decimal.Nil).
  { destruct n; simpl; [discriminate | apply DecimalPos.Unsigned.to_uint_nonnil]. }
  destruct (N.to_uint n); simpl; congruence.
Qed.

Lemma int_of_digits_string_of_uint (n : N) :
  int_of_digits (NilEmpty.string_of_uint (N.to_uint n)) = Some (Z.of_N n).
Proof.
  unfold int_of_digits. rewrite NilEmpty.usu. simpl.
  rewrite DecimalN.Unsigned.of_to. reflexivity.
Qed.

Lemma append_cons (a : Ascii.ascii) (s r : string) :
  String a s +:+ r = String a (s +:+ r).
Proof. reflexivity. Qed.

Lemma append_nil (r : string) : EmptyString +:+ r = r.
Proof. reflexivity. Qed.

Lemma string_app_assoc (a b c : string) : (a +:+ b) +:+ c = a +:+ (b +:+ c).
Proof.
  induction a as [|x a IH]; [reflexivity|].
  rewrite !append_cons, IH. reflexivity.
Qed.

Lemma span_digits_app (ds rest : string) :
  all_digits ds ->
  match rest with String a _ => is_digit a = false | EmptyString => True end ->
  span_digits (ds +:+ rest) = (ds, rest).
Proof.
  unfold all_digits. intros Hds Hrest. induction ds as [|a ds IH].
  - rewrite append_nil. destruct rest as [|a rest]; [reflexivity|].
    cbn [span_digits]. rewrite Hrest. reflexivity.
  - cbn [String.list_ascii_of_string] in Hds. apply Forall_cons in Hds.
    destruct Hds as [Ha Hds].
    rewrite append_cons. cbn [span_digits]. rewrite Ha, (IH Hds). reflexivity.
Qed.

Lemma span_digits_minus (s : string) :
  span_digits (String "-"%char s) = (EmptyString, String "-"%char s).
Proof. reflexivity. Qed.

Lemma strip_prefix_T (s : string) :
  strip_prefix "_T" (String "_"%char (String "T"%char s)) = Some s.
Proof. reflexivity. Qed.

Lemma no_F_cons (a : Ascii.ascii) (s : string) :
  a <> "F"%char -> no_F s -> no_F (String a s).
Proof. intros Ha Hs. unfold no_F. cbn [String.list_ascii_of_string]. by constructor. Qed.

Lemma no_F_tail (a : Ascii.ascii) (s : string) : no_F (String a s) -> a <> "F"%char /\ no_F s.
Proof.
  unfold no_F. cbn [String.list_ascii_of_string]. intros Hs.
  apply Forall_cons in Hs. exact Hs.
Qed.

Lemma match_member_name_no_F (s : string) : no_F s -> match_member_name s = None.
Proof.
  destruct s as [|a s]; [reflexivity|]. intros Hs. apply no_F_tail in Hs.
  destruct Hs as [Ha _].
  destruct a as [[] [] [] [] [] [] [] []]; try reflexivity. congruence.
Qed.

Lemma pattern_search_no_F (s : string) : no_F s -> pattern_search s = None.
Proof.
  induction s as [|a s IH]; intros Hs.
  - reflexivity.
  - cbn [pattern_search]. rewrite (match_member_name_no_F _ Hs).
    apply IH. apply no_F_tail in Hs. tauto.
Qed.

Lemma no_F_app (s1 s2 : string) : no_F s1 -> no_F s2 -> no_F (s1 +:+ s2).
Proof.
  intros H1 H2. induction s1 as [|a s1 IH]; [exact H2|].
  apply no_F_tail in H1. destruct H1 as [Ha H1].
  rewrite append_cons. apply no_F_cons; [exact Ha | exact (IH H1)].
Qed.

Lemma all_digits_no_F (s : string) : all_digits s -> no_F s.
Proof.
  unfold all_digits, no_F. intros Hs. eapply Forall_impl; [exact Hs|].
  intros a Ha ->. discriminate.
Qed.

Lemma str_int_no_F (z : Z) : no_F (str_int z).
Proof.
  unfold str_int. destruct (z <? 0).
  - apply no_F_cons; [discriminate|]. apply all_digits_no_F, string_of_uint_digits.
  - apply all_digits_no_F, string_of_uint_digits.
Qed.

Lemma str_int_nonneg (z : Z) :
  0 <= z -> str_int z = NilEmpty.string_of_uint (N.to_uint (Z.to_N z)).
Proof. intros Hz. unfold str_int. destruct (Z.ltb_spec z 0); [lia | reflexivity]. Qed.

Lemma str_int_neg (z : Z) :
  z < 0 -> exists ds, str_int z = String "-"%char ds.
Proof. intros Hz. unfold str_int. destruct (Z.ltb_spec z 0); [eauto | lia]. Qed.

Lemma written_name_shape (a b : string) :
  ("F" +:+ a +:+ "_T" +:+ b) +:+ "_aois.geojson"
  = String "F"%char (a +:+ String "_"%char (String "T"%char (b +:+ "_aois.geojson"))).
Proof.
  rewrite !string_app_assoc. rewrite !append_cons, !append_nil. reflexivity.
Qed.

(** The name written for a lead time and an integer threshold that are
    not negative is a member name with these two numbers. *)
Lemma written_name_groups (f t : Z) :
  0 <= f -> 0 <= t ->
  member_name_groups (("F" +:+ str_int f +:+ "_T" +:+ str_int t) +:+ "_aois.geojson")
  = Some (f, t).
Proof.
  intros Hf Ht. rewrite written_name_shape.
  rewrite (str_int_nonneg f Hf), (str_int_nonneg t Ht).
  pose proof (string_of_uint_nonempty (Z.to_N f)) as Hdf.
  pose proof (string_of_uint_nonempty (Z.to_N t)) as Hdt.
  pose proof (string_of_uint_digits (N.to_uint (Z.to_N f))) as Hf_digits.
  pose proof (string_of_uint_digits (N.to_uint (Z.to_N t))) as Ht_digits.
  pose proof (int_of_digits_string_of_uint (Z.to_N f)) as Hf_int.
  pose proof (int_of_digits_string_of_uint (Z.to_N t)) as Ht_int.
  rewrite Z2N.id in Hf_int, Ht_int by assumption.
  revert Hdf Hdt Hf_digits Ht_digits Hf_int Ht_int.
  generalize (NilEmpty.string_of_uint (N.to_uint (Z.to_N f))).
  generalize (NilEmpty.string_of_uint (N.to_uint (Z.to_N t))).
  intros dt df Hdf Hdt Hf_digits Ht_digits Hf_int Ht_int.
  unfold member_name_groups. cbn [pattern_search match_member_name].
  rewrite (span_digits_app df) by (exact Hf_digits || reflexivity).
  destruct df as [|a df]; [congruence|].
  rewrite strip_prefix_T.
  rewrite (span_digits_app dt) by (exact Ht_digits || reflexivity).
  destruct dt as [|b dt]; [congruence|].
  rewrite String.eqb_refl. rewrite Hf_int, Ht_int. reflexivity.
Qed.

(** A name written for a negative lead time or a negative integer
    threshold is no member name. *)
Lemma written_name_negative (f t : Z) :
  f < 0 \/ t < 0 ->
  member_name_groups (("F" +:+ str_int f +:+ "_T" +:+ str_int t) +:+ "_aois.geojson")
  = None.
Proof.
  intros Hneg. rewrite written_name_shape. unfold member_name_groups.
  assert (Hrest : no_F (str_int f +:+ String "_"%char (String "T"%char
                          (str_int t +:+ "_aois.geojson")))).
  { apply no_F_app; [apply str_int_no_F|].
    apply no_F_cons; [discriminate|]. apply no_F_cons; [discriminate|].
    apply no_F_app; [apply str_int_no_F|].
    repeat (apply no_F_cons; [discriminate|]). constructor. }
  cbn [pattern_search]. rewrite (pattern_search_no_F _ Hrest).
  assert (Hmatch : match_member_name
                     (String "F"%char (str_int f +:+ String "_"%char (String "T"%char
                        (str_int t +:+ "_aois.geojson"))))
                   = None).
  { cbn [match_member_name].
    destruct (Z.ltb_spec f 0) as [Hf|Hf].
    - destruct (str_int_neg f Hf) as [ds ->].
      rewrite append_cons, span_digits_minus. reflexivity.
    - destruct Hneg as [Hneg|Ht]; [lia|].
      rewrite (str_int_nonneg f Hf). destruct (str_int_neg t Ht) as [ds ->].
      rewrite span_digits_app; [|apply string_of_uint_digits | reflexivity].
      pose proof (string_of_uint_nonempty (Z.to_N f)) as Hdf.
      destruct (NilEmpty.string_of_uint (N.to_uint (Z.to_N f))); [congruence|].
      rewrite strip_prefix_T, append_cons, span_digits_minus. reflexivity. }
  rewrite Hmatch. reflexivity.
Qed.

(** X22. The files that [process_all_forecasts] writes are the files
    that [collect_members] looks for: for a lead time that is not
    negative and a threshold whose integer part is not negative, the
    written name F<fxx>_T<int(threshold)>_aois.geojson is matched by
    the member pattern, and the Member gets that lead time and the
    integer part of the threshold, not the threshold itself. *)
Theorem written_files_are_member_files (fxx_ : Z) (threshold : pyfloat) (t : Z) :
  py_int threshold = Ok t -> 0 <= fxx_ -> 0 <= t ->
  exists name, aoi_file_name fxx_ threshold = Ok name
               /\ member_name_groups name = Some (fxx_, t).
Proof.
  intros Hint Hf Ht. unfold aoi_file_name, forecast_key. rewrite Hint. cbn [bind].
  eexists. split; [reflexivity|]. apply written_name_groups; assumption.
Qed.

(** X23. A file written for a negative threshold (integer part below
    0) or a negative lead time carries a minus sign in its name, which
    the member pattern does not allow: [collect_members] passes it
    over, and the forecast never enters the ensemble. *)
Theorem negative_threshold_files_not_collected (fxx_ : Z) (threshold : pyfloat) (t : Z) :
  py_int threshold = Ok t -> fxx_ < 0 \/ t < 0 ->
  exists name, aoi_file_name fxx_ threshold = Ok name
               /\ member_name_groups name = None.
Proof.
  intros Hint Hneg. unfold aoi_file_name, forecast_key. rewrite Hint. cbn [bind].
  eexists. split; [reflexivity|]. apply written_name_negative; assumption.
Qed.

Lemma int_of_digits_nonneg (ds : string) (z : Z) : int_of_digits ds = Some z -> 0 <= z.
Proof.
  unfold int_of_digits. destruct (NilEmpty.uint_of_string ds); simpl; [|discriminate].
  intros [= <-]. lia.
Qed.

Lemma member_name_groups_nonneg (name : string) (f t : Z) :
  member_name_groups name = Some (f, t) -> 0 <= f /\ 0 <= t.
Proof.
  unfold member_name_groups. destruct (pattern_search name) as [[df dt]|]; [|discriminate].
  destruct (int_of_digits df) as [f'|] eqn:Hf; [|discriminate].
  destruct (int_of_digits dt) as [t'|] eqn:Ht; [|discriminate].
  intros [= <- <-]. split; eapply int_of_digits_nonneg; eassumption.
Qed.

(** X24. The lead time and the threshold of a Member collected from
    the root directory are the numbers written in its file name, hence
    natural numbers. *)
Theorem collected_members_carry_name_groups {G : Type} (d : disk G) (m : member) :
  well_named d ->
  m ∈ (collect_members d).1 ->
  member_name_groups (p_name (path m)) = Some (fxx m, thr m)
  /\ 0 <= fxx m /\ 0 <= thr m.
Proof.
  intros Hd Hm. apply collect_members_iff in Hm.
  destruct Hm as (f & fxx_ & thr_ & geometry & Hf & _ & Hmatch & _ & ->).
  unfold well_named in Hd. rewrite Forall_forall in Hd. specialize (Hd f Hf).
  cbn [path fxx thr]. rewrite <- Hd, Hmatch. split; [reflexivity|].
  apply (member_name_groups_nonneg (p_name (f_path f))). rewrite <- Hd. exact Hmatch.
Qed.

(** ** The two searches for the population column *)

(** X25. The ranking pass and [enhance_aois] search the population
    column among different candidates in a different order.  They
    settle on the same column (or both on none) exactly when the layer
    has no column Population, has none of U7H001, population and POP
    if it has POPULATION, and has no U7H001 if it has population.
    Whenever [enhance_aois] finds a column the ranking finds one
    too. *)
Theorem population_column_searches (columns : list string) :
  (enhance_pop_col columns = find_pop_col columns
   <-> ("Population"%string ∉ columns)
       /\ ("POPULATION"%string ∈ columns ->
           ("U7H001"%string ∉ columns) /\ ("population"%string ∉ columns)
           /\ ("POP"%string ∉ columns))
       /\ ("population"%string ∈ columns -> "U7H001"%string ∉ columns))
  /\ (is_Some (enhance_pop_col columns) -> is_Some (find_pop_col columns)).
Proof.
  unfold enhance_pop_col, find_pop_col, pop_columns, possible_cols.
  cbn [List.find].
  repeat case_bool_decide; (split; [split|]);
    try (intros [? ?]); intros; try discriminate; try congruence; eauto;
    repeat split; intros; try tauto; try contradiction.
Qed.

(** ** Clipping to land and the statistics of a forecast *)

Lemma mapR_inv {A B} (f : A -> result B) (l : list A) (bs : list B) :
  mapR f l = Ok bs -> Forall2 (fun a b => f a = Ok b) l bs.
Proof.
  revert bs. induction l as [|a l IH]; intros bs; cbn [mapR].
  - intros [= <-]. constructor.
  - destruct (f a) as [b|e] eqn:Hb; cbn [bind]; [|discriminate].
    destruct (mapR f l) as [bs'|e]; cbn [bind]; [|discriminate].
    intros [= <-]. constructor; [exact Hb | apply IH; reflexivity].
Qed.

Lemma filterR_inv {A} (f : A -> result bool) (l r : list A) :
  filterR f l = Ok r ->
  r = List.filter (fun a => match f a with Ok true => true | _ => false end) l.
Proof.
  intros Hr. destruct (filterR_result f l) as [[e He]|Hok]; congruence.
Qed.

Lemma filter_not_nan (t : pyfloat) (l : list pyfloat) :
  Forall (fun x => fgt x t = true) l ->
  List.filter (fun a => negb (is_nan a)) l = l.
Proof.
  induction 1 as [|x l Hx Hl IH]; [reflexivity|]. cbn [List.filter].
  destruct x; simpl in Hx; try discriminate; cbn [is_nan negb]; rewrite IH; reflexivity.
Qed.

Lemma series_mean_above (t : pyfloat) (l : list pyfloat) :
  l <> [] -> Forall (fun x => fgt x t = true) l -> fgt (series_mean l) t = true.
Proof.
  intros Hne Hl. unfold series_mean. rewrite (filter_not_nan t l Hl).
  destruct l as [|v vs]; [congruence|]. apply Forall_cons in Hl.
  destruct Hl as [Hv Hvs]. apply mean_above; assumption.
Qed.

Lemma series_max_above (t : pyfloat) (l : list pyfloat) :
  l <> [] -> Forall (fun x => fgt x t = true) l -> fgt (series_max l) t = true.
Proof.
  intros Hne Hl. unfold series_max. rewrite (filter_not_nan t l Hl).
  destruct l as [|v vs]; [congruence|]. apply Forall_cons in Hl.
  destruct Hl as [Hv Hvs]. apply fold_fmax_above; assumption.
Qed.

Section ForecastProperties.
Context {G : Type} `{Shapely G} `{GeoPandas G}.

Lemma drop_duplicates_spec (rows : list (aoi (G := G))) (seen : list Z) :
  (forall a, a ∈ drop_duplicates seen rows -> a ∈ rows /\ aoi_id a ∉ seen)
  /\ NoDup (aoi_id <$> drop_duplicates seen rows)
  /\ (forall a, a ∈ rows -> aoi_id a ∉ seen ->
        aoi_id a ∈ aoi_id <$> drop_duplicates seen rows).
Proof.
  revert seen. induction rows as [|a rows IH]; intros seen; cbn [drop_duplicates].
  - split; [intros a Ha; inversion Ha|]. split; [constructor|]. intros a Ha. inversion Ha.
  - case_bool_decide as Hseen.
    + destruct (IH seen) as (Hin & Hnodup & Hall).
      split; [|split; [exact Hnodup|]].
      * intros b Hb. destruct (Hin b Hb) as [Hb1 Hb2]. split; [by right | exact Hb2].
      * intros b Hb Hnew. apply elem_of_cons in Hb. destruct Hb as [->|Hb];
          [contradiction | apply Hall; assumption].
    + destruct (IH (aoi_id a :: seen)) as (Hin & Hnodup & Hall).
      split; [|split].
      * intros b Hb. apply elem_of_cons in Hb. destruct Hb as [->|Hb].
        -- split; [by left | exact Hseen].
        -- destruct (Hin b Hb) as [Hb1 Hb2]. split; [by right|].
           intros Hs. apply Hb2. by right.
      * rewrite fmap_cons. constructor; [|exact Hnodup].
        intros Hdup. apply list_elem_of_fmap in Hdup. destruct Hdup as (b & Hid & Hb).
        destruct (Hin b Hb) as [_ Hb2]. apply Hb2. rewrite Hid. by left.
      * intros b Hb Hnew. rewrite fmap_cons.
        destruct (decide (aoi_id b = aoi_id a)) as [->|Hne]; [by left|].
        right. apply elem_of_cons in Hb. destruct Hb as [->|Hb]; [congruence|].
        apply Hall; [exact Hb|]. intros Hs. apply elem_of_cons in Hs.
        destruct Hs as [Hs|Hs]; [congruence | contradiction].
Qed.

(** The rows of the spatial join: the rows that intersect a feature. *)
Lemma sjoin_intersects_rows (rows clipped : list (aoi (G := G))) (land : list G) :
  sjoin_intersects rows land = Ok clipped ->
  forall a, a ∈ clipped <->
            a ∈ rows /\ exists l, l ∈ land /\ geom_intersects (aoi_geometry a) l = Ok true.
Proof.
  unfold sjoin_intersects.
  destruct (mapR _ rows) as [copies|e] eqn:Hcopies; cbn [bind]; [|discriminate].
  intros [= <-]. apply mapR_inv in Hcopies.
  induction Hcopies as [|a0 c rows copies Ha0 Hrest IH]; intros a.
  - simpl. split; [intros Ha; inversion Ha | intros [Ha _]; inversion Ha].
  - cbn [concat]. rewrite elem_of_app, IH, elem_of_cons.
    destruct (filterR _ land) as [met|e] eqn:Hmet; cbn [bind] in Ha0; [|discriminate].
    injection Ha0 as <-. apply filterR_inv in Hmet.
    assert (Hc : a ∈ map (fun _ => a0) met <->
                 a = a0 /\ exists l, l ∈ land /\ geom_intersects (aoi_geometry a) l = Ok true).
    { rewrite list_elem_of_In, in_map_iff. split.
      - intros (l & <- & Hl). split; [reflexivity|]. exists l.
        rewrite Hmet in Hl. apply filter_In in Hl. destruct Hl as [Hl Hb].
        split; [apply list_elem_of_In; exact Hl|].
        destruct (geom_intersects (aoi_geometry a0) l) as [[]|]; congruence.
      - intros (-> & l & Hl & Hb). exists l. split; [reflexivity|].
        rewrite Hmet. apply filter_In. split; [apply list_elem_of_In; exact Hl|].
        rewrite Hb. reflexivity. }
    rewrite Hc. clear. intuition (subst; eauto).
Qed.

(** What [clip_to_land] returns for a land boundary. *)
Lemma clip_to_land_rows (census_gdf : option (layer G)) (gdf_crs : string)
    (gdf out : aoi_frame) (land : layer G) :
  clip_to_land census_gdf gdf_crs gdf (Some land) = Ok out ->
  let rows :=
    if String.eqb gdf_crs (layer_crs land) then frame_rows gdf
    else reproject (layer_crs land) <$> frame_rows gdf in
  frame_columns out = frame_columns gdf
  /\ NoDup (aoi_id <$> frame_rows out)
  /\ (forall a, a ∈ frame_rows out ->
        a ∈ rows /\
        exists l, l ∈ layer_geometry land /\ geom_intersects (aoi_geometry a) l = Ok true)
  /\ (forall a l, a ∈ rows -> l ∈ layer_geometry land ->
        in_bounds (aoi_geometry <$> rows) l = true ->
        geom_intersects (aoi_geometry a) l = Ok true ->
        aoi_id a ∈ aoi_id <$> frame_rows out).
Proof.
  unfold clip_to_land. cbv zeta. intros Hrun.
  set (rows := if String.eqb gdf_crs (layer_crs land) then _ else _) in *.
  destruct (List.filter (in_bounds (aoi_geometry <$> rows)) (layer_geometry land))
    as [|l0 ls] eqn:Hsubset.
  - injection Hrun as <-. cbn [frame_columns frame_rows].
    split; [reflexivity|]. split; [constructor|]. split; [intros a Ha; inversion Ha|].
    intros a l _ Hl Hb _. exfalso.
    assert (Hin : In l (List.filter (in_bounds (aoi_geometry <$> rows)) (layer_geometry land))).
    { apply filter_In. split; [apply list_elem_of_In; exact Hl | exact Hb]. }
    rewrite Hsubset in Hin. inversion Hin.
  - destruct (sjoin_intersects rows (l0 :: ls)) as [clipped|e] eqn:Hjoin;
      cbn [bind] in Hrun; [|discriminate].
    injection Hrun as <-. cbn [frame_columns frame_rows].
    pose proof (sjoin_intersects_rows _ _ _ Hjoin) as Hclipped.
    destruct (drop_duplicates_spec clipped []) as (Hin & Hnodup & Hall).
    split; [reflexivity|]. split; [exact Hnodup|]. split.
    + intros a Ha. destruct (Hin a Ha) as [Ha' _]. apply Hclipped in Ha'.
      destruct Ha' as (Hrow & l & Hl & Hb). split; [exact Hrow|]. exists l.
      split; [|exact Hb]. rewrite <- Hsubset in Hl.
      apply list_elem_of_In, filter_In in Hl. apply list_elem_of_In. tauto.
    + intros a l Ha Hl Hbounds Hb. apply Hall; [|intros Hs; inversion Hs].
      apply Hclipped. split; [exact Ha|]. exists l. split; [|exact Hb].
      rewrite <- Hsubset. apply list_elem_of_In, filter_In.
      split; [apply list_elem_of_In; exact Hl | exact Hbounds].
Qed.

(** X26. Despite its name, [clip_to_land] cuts no geometry: it selects
    rows.  Each row that it returns for a land boundary is a row of
    the frame it was given, whole (reprojected when the two CRS
    differ), that intersects a feature of the boundary; no two
    returned rows have the same id; and every id of a row that
    intersects a feature selected by the bounding box is kept. *)
Theorem clip_to_land_selects_rows (census_gdf : option (layer G)) (gdf_crs : string)
    (gdf out : aoi_frame) (land : layer G) :
  clip_to_land census_gdf gdf_crs gdf (Some land) = Ok out ->
  let rows :=
    if String.eqb gdf_crs (layer_crs land) then frame_rows gdf
    else reproject (layer_crs land) <$> frame_rows gdf in
  frame_columns out = frame_columns gdf
  /\ NoDup (aoi_id <$> frame_rows out)
  /\ (forall a, a ∈ frame_rows out ->
        a ∈ rows /\
        exists l, l ∈ layer_geometry land /\ geom_intersects (aoi_geometry a) l = Ok true)
  /\ (forall a l, a ∈ rows -> l ∈ layer_geometry land ->
        in_bounds (aoi_geometry <$> rows) l = true ->
        geom_intersects (aoi_geometry a) l = Ok true ->
        aoi_id a ∈ aoi_id <$> frame_rows out).
Proof. apply clip_to_land_rows. Qed.

Lemma generate_aois_length (config_min_aoi_area : pyfloat)
    (precip_data : list (list pyfloat)) (ds : dataset) (threshold : pyfloat)
    (min_area : option pyfloat) (frame : aoi_frame) :
  generate_aois config_min_aoi_area precip_data ds threshold min_area = Ok frame ->
  Z.of_nat (length (frame_rows frame)) <= num_regions precip_data threshold.
Proof.
  rewrite generate_aois_unfold.
  destruct (label_spec (exceedance_mask precip_data threshold)) as (Hn & _).
  fold (num_regions precip_data threshold) in Hn.
  destruct (num_regions precip_data threshold =? 0).
  { intros [= <-]. simpl. exact Hn. }
  destruct (shapes_to_aois _ _ _ _ _) as [rows|e] eqn:Hrows; cbn [bind]; [|discriminate].
  intros [= <-]. cbn [frame_rows].
  assert (Hlen : forall ks rows0,
    shapes_to_aois precip_data (labelled_regions precip_data threshold)
      (dataset_transform ds) (default config_min_aoi_area min_area) ks = Ok rows0 ->
    (length rows0 <= length ks)%nat).
  { induction ks as [|k ks IH]; intros rows0; cbn [shapes_to_aois].
    - intros [= <-]. reflexivity.
    - destruct (shape_to_aoi _ _ _ _ k) as [o|e]; cbn [bind]; [|discriminate].
      destruct (shapes_to_aois _ _ _ _ ks) as [rest|e]; cbn [bind]; [|discriminate].
      intros [= <-]. specialize (IH rest eq_refl). destruct o; simpl; lia. }
  apply Hlen in Hrows. unfold region_labels in Hrows.
  rewrite length_map, length_seq in Hrows. lia.
Qed.

(** The frame of which [process_single_forecast] takes the statistics:
    its rows carry the statistics of rows of [generate_aois]. *)
Lemma process_single_forecast_rows (config_clip_to_land : bool)
    (config_min_aoi_area : pyfloat) (config_target_crs : string)
    (land_boundary census_gdf : option (layer G))
    (precip_data : list (list pyfloat)) (ds : dataset) (fxx_ : Z) (threshold : pyfloat)
    (gdf : aoi_frame) (stats : forecast_stats) :
  process_single_forecast config_clip_to_land config_min_aoi_area config_target_crs
    land_boundary census_gdf precip_data ds fxx_ threshold = Ok (gdf, stats) ->
  stats = forecast_statistics fxx_ threshold gdf
  /\ Z.of_nat (length (frame_rows gdf)) <= num_regions precip_data threshold
  /\ Forall (fun a => fgt (mean_precip_mm a) threshold = true
                      /\ fgt (max_precip_mm a) threshold = true) (frame_rows gdf).
Proof.
  unfold process_single_forecast.
  destruct (generate_aois config_min_aoi_area precip_data ds threshold None)
    as [gdf0|e] eqn:Hgen; cbn [bind]; [|discriminate].
  pose proof (generate_aois_length _ _ _ _ _ _ Hgen) as Hlen0.
  assert (Hrows0 : forall a, a ∈ frame_rows gdf0 ->
            fgt (mean_precip_mm a) threshold = true
            /\ fgt (max_precip_mm a) threshold = true).
  { intros a Ha. destruct (generate_aois_row _ _ _ _ _ _ _ Hgen Ha) as (_ & _ & _ & ? & ?).
    tauto. }
  destruct (config_clip_to_land && bool_decide (is_Some land_boundary)
            && negb (frame_empty gdf0)) eqn:Hclip.
  - destruct land_boundary as [land|];
      [|rewrite andb_false_r in Hclip; discriminate].
    destruct (clip_to_land census_gdf config_target_crs gdf0 (Some land))
      as [gdf1|e] eqn:Hrun; cbn [bind]; [|discriminate].
    intros [= <- <-]. split; [reflexivity|].
    destruct (clip_to_land_rows _ _ _ _ _ Hrun) as (_ & Hnodup & Hin & _).
    assert (Hsame : forall a, a ∈ frame_rows gdf1 ->
              exists a0, a0 ∈ frame_rows gdf0 /\ same_row a a0).
    { intros a Ha. destruct (Hin a Ha) as [Ha' _].
      destruct (String.eqb config_target_crs (layer_crs land)).
      - exists a. split; [exact Ha' | repeat split].
      - apply list_elem_of_fmap in Ha'. destruct Ha' as (a0 & -> & Ha0).
        exists a0. split; [exact Ha0 | repeat split]. }
    split.
    + assert (Hle : (length (aoi_id <$> frame_rows gdf1)
                     <= length (aoi_id <$> frame_rows gdf0))%nat).
      { apply NoDup_incl_length; [apply NoDup_ListNoDup; exact Hnodup|].
        intros i Hi. apply list_elem_of_In, list_elem_of_fmap in Hi.
        destruct Hi as (a & -> & Ha). destruct (Hsame a Ha) as (a0 & Ha0 & Hid & _).
        rewrite Hid. apply list_elem_of_In, list_elem_of_fmap. eauto. }
      rewrite !length_fmap in Hle. lia.
    + apply Forall_forall. intros a Ha.
      destruct (Hsame a Ha) as (a0 & Ha0 & _ & Hmean & Hmax & _).
      rewrite Hmean, Hmax. apply Hrows0. exact Ha0.
  - cbn [bind]. intros [= <- <-]. split; [reflexivity|]. split; [exact Hlen0|].
    apply Forall_forall. exact Hrows0.
Qed.

(** X27. The statistics that [process_single_forecast] reports for a
    forecast, with or without the selection of the AOIs over land:
    the number of AOIs never exceeds the number of regions above the
    threshold; when there is no AOI the mean, the maximum and the
    total area are 0; when there is one, the mean over the AOIs
    (computed exactly) and the maximum over the AOIs are strictly
    above the threshold. *)
Theorem forecast_statistics_exceed_threshold (config_clip_to_land : bool)
    (config_min_aoi_area : pyfloat) (config_target_crs : string)
    (land_boundary census_gdf : option (layer G))
    (precip_data : list (list pyfloat)) (ds : dataset) (fxx_ : Z) (threshold : pyfloat)
    (gdf : aoi_frame) (stats : forecast_stats) :
  process_single_forecast config_clip_to_land config_min_aoi_area config_target_crs
    land_boundary census_gdf precip_data ds fxx_ threshold = Ok (gdf, stats) ->
  num_aois stats = length (frame_rows gdf)
  /\ Z.of_nat (num_aois stats) <= num_regions precip_data threshold
  /\ (num_aois stats = 0%nat ->
        mean_precip_over_aois stats = of_int 0
        /\ max_precip_over_aois stats = of_int 0
        /\ total_area_deg2 stats = 0%Q)
  /\ ((0 < num_aois stats)%nat ->
        fgt (mean_precip_over_aois stats) threshold = true
        /\ fgt (max_precip_over_aois stats) threshold = true).
Proof.
  intros Hrun. apply process_single_forecast_rows in Hrun.
  destruct Hrun as (-> & Hlen & Hrows).
  unfold forecast_statistics, frame_empty.
  cbn [num_aois mean_precip_over_aois max_precip_over_aois total_area_deg2].
  split; [reflexivity|]. split; [exact Hlen|].
  destruct (frame_rows gdf) as [|a rows] eqn:Hgdf.
  - split; [intros _; repeat split | simpl; lia].
  - split; [simpl; lia|]. intros _. cbn [negb].
    apply Forall_and in Hrows. destruct Hrows as [Hmean Hmax]. split.
    + apply series_mean_above; [rewrite fmap_cons; discriminate|].
      apply Forall_fmap. exact Hmean.
    + apply series_max_above; [rewrite fmap_cons; discriminate|].
      apply Forall_fmap. exact Hmax.
Qed.

End ForecastProperties.

(** ** The files listed by [get_aoi_files] *)








(** ** The results of [process_all_forecasts] *)

Lemma forecast_key_finite (fxx_ : Z) (threshold : pyfloat) :
  finite threshold -> exists key, forecast_key fxx_ threshold = Ok key.
Proof.
  destruct threshold; simpl; try contradiction. intros _.
  unfold forecast_key. cbn [py_int bind]. eauto.
Qed.

Lemma forecast_key_Raise (fxx_ : Z) (threshold : pyfloat) (e : exception) :
  forecast_key fxx_ threshold = Raise e ->
  ~ finite threshold /\ (e = ValueError \/ e = OverflowError).
Proof.
  unfold forecast_key. destruct threshold; cbn [py_int bind]; try discriminate;
    intros [= <-]; simpl; tauto.
Qed.

Lemma forecast_key_result (fxx_ : Z) (threshold : pyfloat) :
  ~ finite threshold ->
  exists e, forecast_key fxx_ threshold = Raise e /\ (e = ValueError \/ e = OverflowError).
Proof.
  unfold forecast_key. destruct threshold; simpl; intros Hnf; try tauto;
    cbn [bind]; eauto.
Qed.

Section AllForecastsProperties.
Context {S : Type}.
Variable forecast : string -> string -> Z -> pyfloat -> result S.

Lemma thresholds_loop (method date : string) (fxx_ : Z) (thresholds : list pyfloat) :
  Forall finite thresholds ->
  forall by_key, exists by_key',
    foldR (threshold_turn forecast method date fxx_) thresholds by_key = Ok by_key'
    /\ (forall key, is_Some (by_key' !! key) <->
          is_Some (by_key !! key) \/
          exists t, t ∈ thresholds /\ forecast_key fxx_ t = Ok key)
    /\ (forall key entry, by_key' !! key = Some entry ->
          by_key !! key = Some entry \/
          exists t, t ∈ thresholds /\ forecast_key fxx_ t = Ok key
                    /\ entry = entry_of forecast method date fxx_ t).
Proof.
  induction 1 as [|t ts Ht Hts IH]; intros by_key; cbn [foldR].
  - exists by_key. split; [reflexivity|]. split.
    + intros key. split; [auto|]. intros [Hk|(t & Ht & _)]; [exact Hk | inversion Ht].
    + intros key entry Hk. left. exact Hk.
  - destruct (forecast_key_finite fxx_ t Ht) as [key0 Hkey0].
    unfold threshold_turn at 1. rewrite Hkey0. cbn [bind].
    destruct (IH (<[key0 := entry_of forecast method date fxx_ t]> by_key))
      as (by_key' & Hrun & Hkeys & Hentries).
    exists by_key'. split; [exact Hrun|]. split.
    + intros key. rewrite Hkeys. split.
      * intros [Hk|(t' & Ht' & Hk)].
        -- destruct (decide (key0 = key)) as [<-|Hne].
           ++ right. exists t. split; [by left | exact Hkey0].
           ++ left. rewrite lookup_insert_ne in Hk by exact Hne. exact Hk.
        -- right. exists t'. split; [by right | exact Hk].
      * intros [Hk|(t' & Ht' & Hk)].
        -- left. destruct (decide (key0 = key)) as [<-|Hne].
           ++ rewrite lookup_insert_eq. eauto.
           ++ rewrite lookup_insert_ne by exact Hne. exact Hk.
        -- apply elem_of_cons in Ht'. destruct Ht' as [->|Ht'].
           ++ left. rewrite Hkey0 in Hk. injection Hk as <-.
              rewrite lookup_insert_eq. eauto.
           ++ right. eauto.
    + intros key entry Hk. destruct (Hentries key entry Hk) as [Hk'|(t' & Ht' & Hk' & He)].
      * destruct (decide (key0 = key)) as [<-|Hne].
        -- rewrite lookup_insert_eq in Hk'. injection Hk' as <-.
           right. exists t. split; [by left|]. split; [exact Hkey0 | reflexivity].
        -- rewrite lookup_insert_ne in Hk' by exact Hne. left. exact Hk'.
      * right. exists t'. split; [by right|]. split; assumption.
Qed.

Lemma fxx_loop (method date : string) (fxx_list : list Z) (thresholds : list pyfloat) :
  Forall finite thresholds ->
  forall by_key, exists by_key',
    foldR (fxx_turn forecast method date thresholds) fxx_list by_key = Ok by_key'
    /\ (forall key, is_Some (by_key' !! key) <->
          is_Some (by_key !! key) \/
          exists f t, f ∈ fxx_list /\ t ∈ thresholds /\ forecast_key f t = Ok key)
    /\ (forall key entry, by_key' !! key = Some entry ->
          by_key !! key = Some entry \/
          exists f t, f ∈ fxx_list /\ t ∈ thresholds /\ forecast_key f t = Ok key
                      /\ entry = entry_of forecast method date f t).
Proof.
  intros Hts. induction fxx_list as [|f fs IH]; intros by_key; cbn [foldR].
  - exists by_key. split; [reflexivity|]. split.
    + intros key. split; [auto|]. intros [Hk|(f & t & Hf & _)]; [exact Hk | inversion Hf].
    + intros key entry Hk. left. exact Hk.
  - unfold fxx_turn at 1.
    destruct (thresholds_loop method date f thresholds Hts by_key)
      as (by_key1 & -> & Hkeys1 & Hentries1). cbn [bind].
    destruct (IH by_key1) as (by_key' & Hrun & Hkeys & Hentries).
    exists by_key'. split; [exact Hrun|]. split.
    + intros key. rewrite Hkeys, Hkeys1. split.
      * intros [[Hk|(t & Ht & Hk)]|(f' & t & Hf' & Ht & Hk)].
        -- left. exact Hk.
        -- right. exists f, t. split; [by left | split; assumption].
        -- right. exists f', t. split; [by right | split; assumption].
      * intros [Hk|(f' & t & Hf' & Ht & Hk)].
        -- left. left. exact Hk.
        -- apply elem_of_cons in Hf'. destruct Hf' as [->|Hf'].
           ++ left. right. eauto.
           ++ right. eauto.
    + intros key entry Hk.
      destruct (Hentries key entry Hk) as [Hk'|(f' & t & Hf' & Ht & Hk' & He)].
      * destruct (Hentries1 key entry Hk') as [Hk''|(t & Ht & Hk'' & He)].
        -- left. exact Hk''.
        -- right. exists f, t. split; [by left|]. repeat split; assumption.
      * right. exists f', t. split; [by right|]. repeat split; assumption.
Qed.

Lemma date_turn_entries (method date : string) (fxx_list : list Z)
    (thresholds : list pyfloat) (by_date : gmap string (gmap string (forecast_entry S))) :
  Forall finite thresholds ->
  exists by_key,
    date_turn forecast method fxx_list thresholds by_date date
      = Ok (<[date := by_key]> by_date)
    /\ entries_of_forecasts forecast method date fxx_list thresholds by_key.
Proof.
  intros Hts. unfold date_turn.
  destruct (fxx_loop method date fxx_list thresholds Hts ∅)
    as (by_key & -> & Hkeys & Hentries). cbn [bind].
  exists by_key. split; [reflexivity|]. split.
  - intros key. rewrite Hkeys. rewrite lookup_empty. split.
    + intros [[x Hx]|Hk]; [discriminate | exact Hk].
    + intros Hk. right. exact Hk.
  - intros key entry Hk. destruct (Hentries key entry Hk) as [Hk'|Hk'];
      [rewrite lookup_empty in Hk'; discriminate | exact Hk'].
Qed.

Lemma dates_loop (method : string) (dates : list string) (fxx_list : list Z)
    (thresholds : list pyfloat) :
  Forall finite thresholds ->
  forall by_date,
    (forall date by_key, by_date !! date = Some by_key ->
       entries_of_forecasts forecast method date fxx_list thresholds by_key) ->
    exists by_date',
      foldR (date_turn forecast method fxx_list thresholds) dates by_date = Ok by_date'
      /\ (forall date by_key, by_date' !! date = Some by_key ->
            entries_of_forecasts forecast method date fxx_list thresholds by_key)
      /\ (forall date, is_Some (by_date' !! date) <->
            is_Some (by_date !! date) \/ date ∈ dates).
Proof.
  intros Hts. induction dates as [|d ds IH]; intros by_date Hinv; cbn [foldR].
  - exists by_date. split; [reflexivity|]. split; [exact Hinv|].
    intros date. split; [auto|]. intros [Hd|Hd]; [exact Hd | inversion Hd].
  - destruct (date_turn_entries method d fxx_list thresholds by_date Hts)
      as (by_key & -> & Hentries). cbn [bind].
    destruct (IH (<[d := by_key]> by_date)) as (by_date' & Hrun & Hinv' & Hkeys).
    { intros date bk Hbk. destruct (decide (d = date)) as [<-|Hne].
      - rewrite lookup_insert_eq in Hbk. injection Hbk as <-. exact Hentries.
      - rewrite lookup_insert_ne in Hbk by exact Hne. apply (Hinv date bk Hbk). }
    exists by_date'. split; [exact Hrun|]. split; [exact Hinv'|].
    intros date. rewrite Hkeys. destruct (decide (d = date)) as [<-|Hne].
    + rewrite lookup_insert_eq. split; [intros _; right; by left | intros _; left; eauto].
    + rewrite lookup_insert_ne by exact Hne. split.
      * intros [Hd|Hd]; [left; exact Hd | right; by right].
      * intros [Hd|Hd]; [left; exact Hd|].
        apply elem_of_cons in Hd. destruct Hd as [->|Hd]; [congruence | right; exact Hd].
Qed.

Lemma init_results (methods : list string)
    (results : gmap string (gmap string (gmap string (forecast_entry S)))) (m : string) :
  fold_left (fun results method => <[method := ∅]> results) methods results !! m
  = if decide (m ∈ methods) then Some ∅ else results !! m.
Proof.
  revert results. induction methods as [|m0 ms IH]; intros results; cbn [fold_left].
  - rewrite decide_False by (intros Hin; inversion Hin). reflexivity.
  - rewrite IH. destruct (decide (m ∈ ms)) as [Hin|Hnin].
    + rewrite decide_True by (by right). reflexivity.
    + destruct (decide (m0 = m)) as [<-|Hne].
      * rewrite decide_True by (by left). apply lookup_insert_eq.
      * rewrite decide_False.
        -- apply lookup_insert_ne. exact Hne.
        -- intros Hin. apply elem_of_cons in Hin. destruct Hin as [->|Hin]; congruence.
Qed.

(** What the results of a method hold: an entry for each date, made of
    the entries of the forecasts. *)
Lemma methods_loop (methods dates : list string) (fxx_list : list Z)
    (thresholds : list pyfloat) :
  Forall finite thresholds ->
  forall results,
    (forall m by_date, results !! m = Some by_date ->
       forall date by_key, by_date !! date = Some by_key ->
         date ∈ dates /\
         entries_of_forecasts forecast m date fxx_list thresholds by_key) ->
    exists results',
      foldR (method_turn forecast dates fxx_list thresholds) methods results = Ok results'
      /\ (forall m by_date, results' !! m = Some by_date ->
            forall date by_key, by_date !! date = Some by_key ->
              date ∈ dates /\
              entries_of_forecasts forecast m date fxx_list thresholds by_key)
      /\ (forall m, is_Some (results' !! m) <-> is_Some (results !! m) \/ m ∈ methods)
      /\ (forall m,
            (exists by_date, results !! m = Some by_date /\
                             forall date, date ∈ dates -> is_Some (by_date !! date))
            \/ m ∈ methods ->
            exists by_date, results' !! m = Some by_date /\
                            forall date, date ∈ dates -> is_Some (by_date !! date)).
Proof.
  intros Hts. induction methods as [|m0 ms IH]; intros results Hinv; cbn [foldR].
  - exists results. split; [reflexivity|]. split; [exact Hinv|]. split.
    + intros m. split; [auto|]. intros [Hm|Hm]; [exact Hm | inversion Hm].
    + intros m [Hm|Hm]; [exact Hm | inversion Hm].
  - unfold method_turn at 1.
    destruct (dates_loop m0 dates fxx_list thresholds Hts (default ∅ (results !! m0)))
      as (by_date0 & -> & Hinv0 & Hkeys0).
    { intros date by_key Hbk. destruct (results !! m0) as [bd|] eqn:Hm0; simpl in Hbk.
      - apply (Hinv m0 bd Hm0 date by_key Hbk).
      - rewrite lookup_empty in Hbk. discriminate. }
    cbn [bind].
    destruct (IH (<[m0 := by_date0]> results)) as (results' & Hrun & Hinv' & Hkeys & Hdone).
    { intros m by_date Hm date by_key Hbk. destruct (decide (m0 = m)) as [<-|Hne].
      - rewrite lookup_insert_eq in Hm. injection Hm as <-. split; [|apply (Hinv0 _ _ Hbk)].
        assert (Hsome : is_Some (by_date0 !! date)) by eauto.
        apply Hkeys0 in Hsome. destruct Hsome as [[bk Hbk0]|Hd]; [|exact Hd].
        destruct (results !! m0) as [bd|] eqn:Hm0; simpl in Hbk0.
        + apply (Hinv m0 bd Hm0 date bk Hbk0).
        + rewrite lookup_empty in Hbk0. discriminate.
      - rewrite lookup_insert_ne in Hm by exact Hne. apply (Hinv m by_date Hm date by_key Hbk). }
    exists results'. split; [exact Hrun|]. split; [exact Hinv'|]. split.
    + intros m. rewrite Hkeys. destruct (decide (m0 = m)) as [<-|Hne].
      * rewrite lookup_insert_eq. split; [intros _; right; by left | intros _; left; eauto].
      * rewrite lookup_insert_ne by exact Hne. split.
        -- intros [Hm|Hm]; [left; exact Hm | right; by right].
        -- intros [Hm|Hm]; [left; exact Hm|].
           apply elem_of_cons in Hm. destruct Hm as [->|Hm]; [congruence | right; exact Hm].
    + intros m Hm. apply Hdone.
      destruct (decide (m0 = m)) as [<-|Hne].
      * left. exists by_date0. split; [apply lookup_insert_eq|].
        intros date Hd. apply Hkeys0. right. exact Hd.
      * rewrite lookup_insert_ne by exact Hne.
        destruct Hm as [Hm|Hm]; [left; exact Hm|].
        apply elem_of_cons in Hm. destruct Hm as [->|Hm]; [congruence | right; exact Hm].
Qed.

(** X29. With thresholds that are neither NaN nor infinite,
    [process_all_forecasts] never raises, whatever the forecasts do:
    the results have an entry for each configured method and no other,
    under it an entry for each configured date and no other, and under
    the date exactly the keys F<fxx>_T<int(threshold)> of the
    configured lead times and thresholds, each with the statistics or
    the error of a forecast of that key.  Two thresholds with the same
    integer part share one key, hence one entry. *)
Theorem process_all_forecasts_results (forecast_methods forecast_dates : list string)
    (fxx_list : list Z) (thresholds : list pyfloat) :
  Forall finite thresholds ->
  exists results,
    process_all_forecasts forecast forecast_methods forecast_dates fxx_list thresholds
      = Ok results
    /\ (forall m, is_Some (results !! m) <-> m ∈ forecast_methods)
    /\ (forall m by_date, results !! m = Some by_date ->
          (forall date, is_Some (by_date !! date) <-> date ∈ forecast_dates)
          /\ (forall date by_key, by_date !! date = Some by_key ->
                entries_of_forecasts forecast m date fxx_list thresholds by_key)).
Proof.
  intros Hts. unfold process_all_forecasts.
  destruct (methods_loop forecast_methods forecast_dates fxx_list thresholds Hts
              (fold_left (fun results method => <[method := ∅]> results) forecast_methods ∅))
    as (results & Hrun & Hinv & Hkeys & Hdone).
  { intros m by_date Hm date by_key Hbk. rewrite init_results in Hm.
    destruct (decide (m ∈ forecast_methods)); [|rewrite lookup_empty in Hm; discriminate].
    injection Hm as <-. rewrite lookup_empty in Hbk. discriminate. }
  assert (Hmethods : forall m, is_Some (results !! m) <-> m ∈ forecast_methods).
  { intros m. rewrite Hkeys, init_results.
    destruct (decide (m ∈ forecast_methods)) as [Hin|Hnin].
    - split; [intros _; exact Hin | intros _; left; eauto].
    - rewrite lookup_empty. split; [intros [[x Hx]|Hm]; [discriminate | exact Hm] | tauto]. }
  exists results. split; [exact Hrun|]. split; [exact Hmethods|].
  intros m by_date Hm. split.
  - intros date. split.
    + intros [by_key Hbk]. apply (Hinv m by_date Hm date by_key Hbk).
    + intros Hd. destruct (Hdone m) as (bd & Hbd & Hall).
      { right. apply Hmethods. eauto. }
      rewrite Hm in Hbd. injection Hbd as <-. apply Hall. exact Hd.
  - intros date by_key Hbk. apply (Hinv m by_date Hm date by_key Hbk).
Qed.

Lemma thresholds_loop_Raise (method date : string) (fxx_ : Z) (thresholds : list pyfloat) :
  Exists (fun t => ~ finite t) thresholds ->
  forall by_key, exists e,
    foldR (threshold_turn forecast method date fxx_) thresholds by_key = Raise e
    /\ (e = ValueError \/ e = OverflowError).
Proof.
  induction thresholds as [|t ts IH]; intros Hex by_key; [inversion Hex|].
  cbn [foldR]. unfold threshold_turn at 1.
  destruct (forecast_key fxx_ t) as [key|e] eqn:Hkey; cbn [bind].
  - apply IH. apply Exists_cons in Hex. destruct Hex as [Hnf|Hex]; [|exact Hex].
    destruct (forecast_key_result fxx_ t Hnf) as (e & He & _). congruence.
  - exists e. split; [reflexivity|]. apply (forecast_key_Raise _ _ _ Hkey).
Qed.

(** X30. A threshold that is NaN or infinite stops the whole run:
    [int(threshold)] raises in the [try] block at the latest, and
    again in its handler, outside any [try].  With at least one
    method, one date and one lead time configured,
    [process_all_forecasts] then raises ValueError (NaN) or
    OverflowError (infinite), whatever the forecasts do. *)
Theorem nonfinite_threshold_aborts (forecast_methods forecast_dates : list string)
    (fxx_list : list Z) (thresholds : list pyfloat) :
  forecast_methods <> [] -> forecast_dates <> [] -> fxx_list <> [] ->
  Exists (fun t => ~ finite t) thresholds ->
  exists e,
    process_all_forecasts forecast forecast_methods forecast_dates fxx_list thresholds
      = Raise e
    /\ (e = ValueError \/ e = OverflowError).
Proof.
  intros Hm Hd Hf Hex. unfold process_all_forecasts.
  destruct forecast_methods as [|m ms]; [congruence|].
  destruct forecast_dates as [|d ds]; [congruence|].
  destruct fxx_list as [|f fs]; [congruence|].
  set (results0 := fold_left _ (m :: ms) ∅).
  cbn [foldR]. unfold method_turn at 1. cbn [foldR]. unfold date_turn at 1.
  cbn [foldR]. unfold fxx_turn at 1.
  destruct (thresholds_loop_Raise m d f thresholds Hex ∅) as (e & -> & He).
  cbn [bind]. exists e. split; [reflexivity | exact He].
Qed.

End AllForecastsProperties.

(** * The further properties on the example inputs *)

Module EnsembleWitnesses.
Import Cells Examples MoreExamples.


Lemma probability_is_fraction_of_members_witness :
  exists out p q,
    create_ensemble_probabilities (one_bin_processor []) scenario_c_disk = Ok out
    /\ prob_grids out !! "10-20"%string = Some p
    /\ cell_at p 0 0 = Some q /\ (q == 1 # 3)%Q.
Proof.
  destruct (create_ensemble_probabilities (one_bin_processor []) scenario_c_disk)
    as [out|e] eqn:Hrun; [|vm_compute in Hrun; discriminate].
  destruct (probability_is_fraction_of_members (one_bin_processor []) scenario_c_disk
              out "10-20"%string 0 0 Hrun) as [_ Hprob].
  - vm_compute. by left.
  - vm_compute. lia.
  - vm_compute. lia.
  - destruct Hprob as (p & Hp & q & Hq & Hval).
    + vm_compute. lia.
    + vm_compute. reflexivity.
    + exists out, p, q. split; [reflexivity|]. split; [exact Hp|]. split; [exact Hq|].
      rewrite Hval. vm_compute. reflexivity.
Defined.

Lemma output_grids_have_grid_shape_witness :
  exists out,
    create_ensemble_probabilities (one_bin_processor []) scenario_c_disk = Ok out
    /\ (forall lbl g, out_counts out !! lbl = Some g -> has_shape g 2 2)
    /\ (forall lbl p, prob_grids out !! lbl = Some p -> has_shape p 2 2).
Proof.
  destruct (create_ensemble_probabilities (one_bin_processor []) scenario_c_disk)
    as [out|e] eqn:Hrun; [|vm_compute in Hrun; discriminate].
  exists out. split; [reflexivity|].
  apply (output_grids_have_grid_shape (one_bin_processor []) scenario_c_disk out Hrun).
Defined.

Lemma no_member_no_grid_witness :
  exists out,
    create_ensemble_probabilities (one_bin_processor []) [broken_file] = Ok out /\
    prob_grids out = ∅ /\
    out_warnings out = [FailedToRead (f_path broken_file); NoMembersForBin "10-20"%string] /\
    forall lbl, lbl ∈ ["10-20"%string] -> out_denoms out !! lbl = Some 0.
Proof.
  apply (no_member_no_grid (one_bin_processor []) [broken_file]).
  vm_compute. reflexivity.
Defined.

Lemma run_warnings_exact_witness :
  exists out,
    create_ensemble_probabilities (one_bin_processor [missing_member]) [broken_file]
    = Ok out
    /\ out_warnings out = [FailedToProcessMember (path missing_member)]
    /\ exists out',
         create_ensemble_probabilities (one_bin_processor []) [broken_file; covering_file]
         = Ok out'
         /\ out_warnings out' = [FailedToRead (f_path broken_file)].
Proof.
  destruct (create_ensemble_probabilities (one_bin_processor [missing_member])
              [broken_file]) as [out|e] eqn:Hrun; [|vm_compute in Hrun; discriminate].
  exists out. split; [reflexivity|]. split.
  - rewrite (run_warnings_exact (one_bin_processor [missing_member]) [broken_file] out Hrun).
    pose proof Hrun as Hc. vm_compute in Hc. injection Hc as <-.
    vm_compute. reflexivity.
  - destruct (create_ensemble_probabilities (one_bin_processor [])
                [broken_file; covering_file]) as [out'|e] eqn:Hrun';
      [|vm_compute in Hrun'; discriminate].
    exists out'. split; [reflexivity|].
    rewrite (run_warnings_exact (one_bin_processor []) [broken_file; covering_file]
               out' Hrun').
    pose proof Hrun' as Hc. vm_compute in Hc. injection Hc as <-.
    vm_compute. reflexivity.
Defined.

Lemma collected_members_are_readable_witness :
  exists out,
    create_ensemble_probabilities (one_bin_processor []) [broken_file; covering_file]
    = Ok out
    /\ unreadable [broken_file; covering_file] (member_of covering_file) = false
    /\ out_warnings out = [FailedToRead (f_path broken_file)].
Proof.
  destruct (create_ensemble_probabilities (one_bin_processor [])
              [broken_file; covering_file]) as [out|e] eqn:Hrun;
    [|vm_compute in Hrun; discriminate].
  destruct (collected_members_are_readable (one_bin_processor [])
              [broken_file; covering_file] out) as [Hread Hws].
  - reflexivity.
  - vm_compute. repeat constructor; intros Hin;
      repeat (apply elem_of_cons in Hin; destruct Hin as [Hin|Hin]; [discriminate|]);
      inversion Hin.
  - exact Hrun.
  - exists out. split; [reflexivity|]. split.
    + apply Hread. vm_compute. by left.
    + rewrite Hws. pose proof Hrun as Hc. vm_compute in Hc. injection Hc as <-.
      vm_compute. reflexivity.
Defined.


Lemma written_files_are_member_files_witness :
  exists name, aoi_file_name 6 (Fin (257 # 10)) = Ok name
               /\ member_name_groups name = Some (6, 25).
Proof.
  apply (written_files_are_member_files 6 (Fin (257 # 10)) 25);
    [vm_compute; reflexivity | lia | lia].
Defined.

Lemma negative_threshold_files_not_collected_witness :
  exists name, aoi_file_name 6 (of_int (-5)) = Ok name
               /\ member_name_groups name = None.
Proof.
  apply (negative_threshold_files_not_collected 6 (of_int (-5)) (-5));
    [vm_compute; reflexivity | right; lia].
Defined.

Lemma collected_members_carry_name_groups_witness :
  member_name_groups "F06_T15_aois.geojson" = Some (6, 15) /\ 0 <= 6 /\ 0 <= 15.
Proof.
  apply (collected_members_carry_name_groups scenario_c_disk (member_of covering_file)).
  - repeat constructor; vm_compute; reflexivity.
  - vm_compute. by left.
Defined.

End EnsembleWitnesses.

Module RankingWitnesses.
Import Cells Examples MoreExamples.

Lemma groups_partition_aois_witness :
  sum_Z (ensemble_count
           <$> rank_aois_by_probability (default_processor []) two_bins_disk None 10)
  = Z.of_nat (length (keyed_rows (aoi_rows (default_processor []) two_bins_disk))).
Proof.
  apply (groups_partition_aois (default_processor []) two_bins_disk None 10).
  vm_compute. discriminate.
Defined.

Lemma population_degrades_to_zero_witness :
  exists g,
    rank_aois_by_probability (default_processor []) one_aoi_disk (Some unnamed_census) 10
    = [g]
    /\ population_affected g = Some 0.
Proof.
  eexists. split; [vm_compute; reflexivity|].
  apply (population_degrades_to_zero (default_processor []) one_aoi_disk unnamed_census 10).
  - vm_compute. by left.
  - left. vm_compute. reflexivity.
Defined.

Lemma member_aois_rows_witness :
  a_geometry <$> (member_aois (default_processor []) [gap_file] (member_of gap_file)).1
  = [[(0, 0)%nat]]
  /\ (member_aois (default_processor []) [gap_file] (member_of gap_file)).2
     = [FailedToProcess (path (member_of gap_file))].
Proof.
  destruct (member_aois_rows (default_processor []) [gap_file] (member_of gap_file))
    as (_ & _ & Hgap & _).
  apply (Hgap [[(0, 0)%nat]] [Some [(1, 1)%nat]]). vm_compute. reflexivity.
Defined.

End RankingWitnesses.

Module ExtractionWitnesses.
Import Cells Examples MoreExamples.

Lemma generate_aois_regions_witness :
  exists frame : aoi_frame,
    generate_aois (Fin (1 # 100)) block_field (example_dataset 5) (of_int 10) None
    = Ok frame
    /\ frame_columns frame
       = ["id"; "mean_precip_mm"; "max_precip_mm"; "area_deg2"; "geometry"]%string
    /\ aoi_id <$> frame_rows frame
       ≡ₚ kept_regions block_field (example_dataset 5) (of_int 10) (Fin (1 # 100))
    /\ Forall (fun a => aoi_geometry a
                        = region_polygon block_field (example_dataset 5) (of_int 10)
                            (aoi_id a))
              (frame_rows frame).
Proof.
  apply (generate_aois_regions (Fin (1 # 100)) block_field (example_dataset 5)
           (of_int 10) None).
  vm_compute. discriminate.
Defined.

Lemma aoi_maximum_exceeds_threshold_witness :
  exists frame a,
    generate_aois (Fin (1 # 100)) block_field (example_dataset 5) (of_int 10) None
    = Ok frame
    /\ frame_rows frame = [a]
    /\ fgt (max_precip_mm a) (of_int 10) = true.
Proof.
  do 2 eexists. split; [vm_compute; reflexivity|]. split; [reflexivity|].
  eapply (aoi_maximum_exceeds_threshold (Fin (1 # 100)) block_field (example_dataset 5)
            (of_int 10) None).
  - vm_compute. reflexivity.
  - by left.
Defined.

Lemma aoi_mean_exceeds_threshold_witness :
  exists frame a,
    generate_aois (Fin (1 # 100)) block_field (example_dataset 5) (of_int 10) None
    = Ok frame
    /\ frame_rows frame = [a]
    /\ fgt (mean_precip_mm a) (of_int 10) = true.
Proof.
  do 2 eexists. split; [vm_compute; reflexivity|]. split; [reflexivity|].
  eapply (aoi_mean_exceeds_threshold (Fin (1 # 100)) block_field (example_dataset 5)
            (of_int 10) None).
  - vm_compute. reflexivity.
  - by left.
Defined.

Lemma aoi_area_not_below_minimum_witness :
  exists frame a,
    generate_aois (Fin (1 # 100)) block_field (example_dataset 5) (of_int 10) None
    = Ok frame
    /\ frame_rows frame = [a]
    /\ aoi_id a <> 0
    /\ area_deg2 a = geom_area (aoi_geometry a)
    /\ flt (Fin (area_deg2 a)) (Fin (1 # 100)) = false.
Proof.
  do 2 eexists. split; [vm_compute; reflexivity|]. split; [reflexivity|].
  eapply (aoi_area_not_below_minimum (Fin (1 # 100)) block_field (example_dataset 5)
            (of_int 10) None).
  - vm_compute. reflexivity.
  - by left.
Defined.

Lemma generate_aois_int16_overflow_witness :
  generate_aois (Fin (1 # 100)) (checkerboard 256) (example_dataset 256) (of_int 0)
    (Some (of_int 0))
  = Raise ValueError.
Proof.
  apply (generate_aois_int16_overflow (Fin (1 # 100)) (checkerboard 256)
           (example_dataset 256) (of_int 0) (Some (of_int 0)) 32768).
  - lia.
  - vm_compute. discriminate.
  - vm_compute. reflexivity.
Defined.

Lemma dataset_transform_straddling_witness :
  (t_east (dataset_transform gfs_dataset) < t_west (dataset_transform gfs_dataset))%Q.
Proof.
  apply (dataset_transform_straddling gfs_dataset).
  - vm_compute. discriminate.
  - vm_compute. reflexivity.
  - split; [vm_compute; discriminate | vm_compute; reflexivity].
Defined.

End ExtractionWitnesses.

Module ForecastWitnesses.
Import Cells Examples MoreExamples.

Lemma clip_to_land_selects_rows_witness :
  exists out,
    clip_to_land None "EPSG:4326" block_frame (Some land_cells) = Ok out
    /\ frame_columns out = frame_columns block_frame
    /\ NoDup (aoi_id <$> frame_rows out)
    /\ forall a, a ∈ frame_rows out -> a ∈ frame_rows block_frame.
Proof.
  destruct (clip_to_land None "EPSG:4326" block_frame (Some land_cells))
    as [out|e] eqn:Hrun; [|vm_compute in Hrun; discriminate].
  destruct (clip_to_land_selects_rows None "EPSG:4326"%string block_frame out land_cells Hrun)
    as (Hcols & Hnodup & Hrows & _).
  exists out. split; [reflexivity|]. split; [exact Hcols|]. split; [exact Hnodup|].
  intros a Ha. apply (Hrows a Ha).
Defined.

Lemma forecast_statistics_exceed_threshold_witness :
  exists gdf stats,
    process_single_forecast true (Fin (1 # 100)) "EPSG:4326" (Some land_cells) None
      block_field (example_dataset 5) 6 (of_int 10) = Ok (gdf, stats)
    /\ (0 < num_aois stats)%nat
    /\ fgt (mean_precip_over_aois stats) (of_int 10) = true
    /\ fgt (max_precip_over_aois stats) (of_int 10) = true.
Proof.
  destruct (process_single_forecast true (Fin (1 # 100)) "EPSG:4326" (Some land_cells) None
              block_field (example_dataset 5) 6 (of_int 10))
    as [[gdf stats]|e] eqn:Hrun; [|vm_compute in Hrun; discriminate].
  destruct (forecast_statistics_exceed_threshold true (Fin (1 # 100)) "EPSG:4326"%string
              (Some land_cells) None block_field (example_dataset 5) 6 (of_int 10)
              gdf stats Hrun) as (_ & _ & _ & Hpos).
  assert (Hn : (0 < num_aois stats)%nat).
  { pose proof Hrun as Hc. vm_compute in Hc. injection Hc as _ Hs.
    rewrite <- Hs. vm_compute. lia. }
  exists gdf, stats. split; [reflexivity|]. split; [exact Hn|]. exact (Hpos Hn).
Defined.

Lemma process_all_forecasts_results_witness :
  exists results,
    process_all_forecasts example_forecast ["standard"%string] ["2025-10-07"%string]
      [0; 12] [of_int 5; Fin (257 # 10); Fin (259 # 10)] = Ok results
    /\ (forall m, is_Some (results !! m) <-> m ∈ ["standard"%string])
    /\ (forall m by_date, results !! m = Some by_date ->
          (forall date, is_Some (by_date !! date) <-> date ∈ ["2025-10-07"%string])
          /\ (forall date by_key, by_date !! date = Some by_key ->
                entries_of_forecasts example_forecast m date [0; 12]
                  [of_int 5; Fin (257 # 10); Fin (259 # 10)] by_key)).
Proof.
  apply (process_all_forecasts_results example_forecast ["standard"%string]
           ["2025-10-07"%string] [0; 12] [of_int 5; Fin (257 # 10); Fin (259 # 10)]).
  repeat constructor.
Defined.

Lemma nonfinite_threshold_aborts_witness :
  exists e,
    process_all_forecasts example_forecast ["standard"%string] ["2025-10-07"%string]
      [0; 12] [of_int 5; NaN] = Raise e
    /\ (e = ValueError \/ e = OverflowError).
Proof.
  apply (nonfinite_threshold_aborts example_forecast ["standard"%string]
           ["2025-10-07"%string] [0; 12] [of_int 5; NaN]); try discriminate.
  apply Exists_cons. right. apply Exists_cons. left. simpl. tauto.
Defined.

End ForecastWitnesses.
